(* ===== verification/_CoqProject ===== *)
-Q . S2P
Prelude.v
Item.v
Double.v
JsString.v
ParseInt.v
Json.v
Snapshot.v
Store.v
App.v
Quota.v
Aggregate.v
Filter.v
Render.v
Refinement.v
XlsxExport.v
