(* ===== verification/Prelude.v ===== *)
(** * A verification development for App_Inventory (src/App.jsx)

    The program is one React component, [App] in src/App.jsx (215
    lines). It keeps a warehouse inventory in the browser: an array of
    item objects in React state, mirrored as JSON text to [localStorage].
    It has stock-in, stock-out and image-upload handlers, derived
    counters, a search filter and an Excel export.  The files, in
    dependency order:

    - [Prelude.v] (this file): the numbers of [parseInt] as [option Z]
      ([None] is NaN) with the comparisons of ECMAScript in [js_scope];
      sums ([sumZ], the [reduce] of line 92) and boolean filters with
      their lemmas; the hint databases [inventory] / [inventory_rw]; the
      tactic [js_cases] that decides the integer tests of a handler.

    - [Item.v], Module [Item]: the item object (lines 16-35, plus the
      [initialQty] that the [.map] of line 79 adds, an [option Z] because
      the literal lacks it), ledger entries [{type, qty, date}] over the
      Inductive [LedgerType], the in-place writes of lines 108-109,
      118-119 and 158, the seed data, and the ledger invariant [item_ok]:
      quantity = initial quantity + signed ledger, quantity >= 0, entries
      positive.

    - [Double.v], Module [Double]: binary64 doubles after the Stdlib's
      [SpecFloat] (round to nearest even) for the two expressions with
      the literal [0.1]: the low-stock test [q < i * 0.1] (line 93) and
      [Math.ceil(i * 0.1)] (line 134).  The proofs follow [SFmul] through
      the shift, round and carry of [binary_round_aux].  For integers
      [0 <= i < 2^53] and [|q| < 2^53] the test is [10 q < i] and the
      ceiling is the ceiling of [i/10] (C23, C31).  A negative [i] near
      [-7e15] breaks both ([negative_initial_rounds]).

    - [JsString.v] and [ParseInt.v]: [toLowerCase], [includes], the
      leading-space trim, HTML's strip-and-collapse of ASCII whitespace
      (the value of an [<option>] without a [value] attribute), and
      ECMAScript [parseInt] with undefined radix (sign, [0x] prefix,
      longest digit prefix); [prompt]'s null is the text "null"; the
      guard [!qty || qty <= 0] of lines 106 / 115 (C13, C14).  Strings
      are the Rocq strings of their UTF-8 bytes.

    - [Json.v], Module [Json]: [JSON.stringify] (line 85) as a printer in
      continuation-passing style, equal to the reference printer that
      joins with [String.concat] ([stringify_to_ref]).  [JSON.parse] (line 13) is a
      fuelled mutual recursive-descent parser.  Its result tells a
      SyntaxError apart from a text that reaches a value outside the model
      (a non-integral number, a lone surrogate).  The fuel [parse_fuel s =
      1 + length s] is enough: every call consumes a character, so more
      fuel changes nothing ([parse_total]).  [parse] reads back every
      printed value.

    - [Snapshot.v], Module [Snapshot]: the JSON value of an item (its
      properties in creation order) and its decoding. The stored text of
      a list is [snapshot].  [load_text] reads the text back: a
      SyntaxError, the items, or [OutsideModel] for a value that the save
      would not write back unchanged.  Theorem: the round trip of every
      list of items through the storage (C25).

    - [Store.v], Module [Store]: the state [AppState]:
      - the hooks of lines 5-8;
      - a heap [gmap loc Item] of the JavaScript objects;
      - the [localStorage] entry as [option string];
      - the pending [FileReader]s.
      It also holds the handlers [handleStockIn] (104-111),
      [handleStockOut] (113-121), [handleImageUpload] (152-162) and
      [reader_onload] (156-160).  React state is an array of references,
      and the handlers write through them.  [commit] is [setInventoryData]
      followed by the save effect of lines 84-86, which stores the JSON
      text.  Theorems: the success, alert and TypeError behaviour of each
      handler (C2-C5, C15).

    - [App.v], Module [App]: the mount.  It runs [load_effect] (lines
      10-82), then the save effect of the same commit, then the
      re-render.  The mount is a value of [AppState + perror]: JSON.parse's
      SyntaxError crashes the component, and [OutsideModel] leaves the
      model.  The file also holds StrictMode's double run, the events as a
      step function, and the Inductive [reachable].  Theorems:
      - the invariant of reachable states, by rule induction (C1);
      - the reload round trip (C6);
      - the stale reader closure (C8);
      - the mount ordering findings (C9, C10);
      - the seed (C16);
      - the crash on a corrupt entry (C26);
      - every pending reader fires, writes its image onto the item at
        its index in pick order, and leaves (C30, liveness).

    - [Quota.v], Module [Quota]: the save effect when
      [localStorage.setItem] throws on a full quota (line 85).  The
      browser's quota test is the variable [fits] of a Section, so every
      theorem holds for every quota.  [step_write] is the text an event's
      commit saves; [step_q] and [mount_q] are the step and the mount
      with each save under the quota, as partial results ([SQuota],
      [MQuota]: the component stops, and the storage keeps what
      [setItem] left).  [reachable_q] is their Inductive reachability,
      a refinement of [App.reachable] ([rq_reachable]).  Theorems:
      - a refused save is fatal and the reload loses the event (C11);
      - a snapshot that no longer fits is wiped to "[]" at mount (C12).

    - [Aggregate.v] (lines 88-93) and [Filter.v] (95-102): the options as
      [[...new Set(..)]] in first-seen order, [totalStock],
      [lowStockCount] with the double test, and the three-way filter
      (C17, C19-C21).  [lowStockCount] equals the count of the integer
      test on exact items (C31).

    - [Render.v], Module [Render]: the JSX of lines 164-215 as a view.
      It has three cards ([toLocaleString] with a locale's group
      separator), the search input, the two selects, and the export
      button with the event each control dispatches.  [ui_reachable]
      holds the states a user reaches through those controls.  Theorems:
      the inventory is frozen for the user (C24); each filter is empty
      or the value of an offered option (C27); an offered warehouse whose
      name has stray whitespace selects no item (C28); the Total Stok
      card shows the digits of the stored total (C29).

    - [Refinement.v]: the value-level contract of the store, with the
      errors InvalidQuantity, InsufficientStock and a missing record.
      The class [InventoryStore] has three operations, stock-in,
      stock-out and attach image, and the laws [InventoryStoreLaws].  The
      heap store is an instance in every reachable state (C7).  Clients
      are proved against the class: [totalStock] after a stock operation
      (C18), and atomic failures ([stock_failure_atomic]).

    - [XlsxExport.v]: [handleExportExcel] (lines 123-150): its row
      objects, with the safety stock [Math.ceil(initialQty * 0.1)] in
      doubles (C23), and the four calls it makes on the [XLSX] library
      ([xlsx_call]) in order.  In every reachable state the export
      writes the rows of all the stored items, whatever the filters
      (C22).

    Numbers.  Quantities are [Z].  [parseInt] and [JSON.parse] give the
    exact integer of their digits, [+=] and [-=] (lines 108, 118) and the
    sum of line 92 are exact, and [JSON.stringify] prints an integer as
    its digits.  JavaScript doubles agree on integers below 2^53 (and
    print so below 1e21); above, a double rounds ([parseInt] of
    "9007199254740993" is 9007199254740992), which the model does not
    follow: the theorems on quantities describe the program for
    quantities below 2^53.  The two products with [0.1] are modelled in
    binary64 and proved equal to their integer forms in that range.  The
    only fuel is the parser's, with the bound above; every other
    function is structural ([alloc], [digit_prefix], [new_Set], the
    string scanner).

    Not modelled:
    - the size of the quota and what else the origin stores: [fits] is
      a parameter;
    - what the XLSX library does with the calls (the sheet and file
      formats), and the encoding of the file picker and [FileReader]:
      libraries, so a picked file is its data URL;
    - CSS and layout of the JSX;
    - the locale of [toLocaleString]: its group separator is a
      parameter, and the digits are grouped by three, as in en-US and
      id-ID; locales that group otherwise (en-IN) or do not group four
      digits (es-ES) are not modelled;
    - non-ASCII text: [toLowerCase] lowers ASCII letters only, and the
      trim of [parseInt] skips ASCII white space only (JavaScript also
      skips NBSP and U+FEFF);
    - JSON numbers that are not integers, lone surrogates, and stored
      values in a shape the app never writes ([OutsideModel]). *)

From stdpp Require Export base list gmap strings.
From Stdlib Require Export ZArith Lia.

(** ** JavaScript numbers produced by [parseInt]

    [parseInt] returns an integral number or NaN; [None] is NaN.  The
    comparisons of the handlers follow the abstract relational comparison
    of ECMAScript: every comparison with NaN is false. *)

Abbreviation jsnum := (option Z).

Declare Scope js_scope.
Delimit Scope js_scope with js.

(** [!n] : the falsy numbers are NaN and (plus or minus) zero. *)
Definition js_falsy (n : jsnum) : bool :=
  match n with
  | None => true
  | Some z => (z =? 0)%Z
  end.

Definition js_le (a b : jsnum) : bool :=
  match a, b with
  | Some x, Some y => (x <=? y)%Z
  | _, _ => false
  end.

Definition js_lt (a b : jsnum) : bool :=
  match a, b with
  | Some x, Some y => (x <? y)%Z
  | _, _ => false
  end.

Notation "a <=ⱼ b" := (js_le a b) (at level 70) : js_scope.
Notation "a <ⱼ b" := (js_lt a b) (at level 70) : js_scope.
Notation "a >ⱼ b" := (js_lt b a) (at level 70) : js_scope.

(** ** Sums over lists: [Array.prototype.reduce] with [+] *)

Definition sumZ {A} (f : A → Z) (l : list A) : Z :=
  foldr (λ x acc, f x + acc)%Z 0%Z l.

Create HintDb inventory discriminated.
Create Rewrite HintDb inventory_rw.

Lemma sumZ_nil {A} (f : A → Z) : sumZ f [] = 0%Z.
Proof. done. Qed.

Lemma sumZ_cons {A} (f : A → Z) x l : sumZ f (x :: l) = (f x + sumZ f l)%Z.
Proof. done. Qed.

Lemma sumZ_app {A} (f : A → Z) l1 l2 :
  sumZ f (l1 ++ l2) = (sumZ f l1 + sumZ f l2)%Z.
Proof. induction l1 as [|x l1 IH]; simpl; [done|]. unfold sumZ in *. simpl. lia. Qed.

#[export] Hint Rewrite @sumZ_nil @sumZ_cons @sumZ_app : inventory_rw.

(** [l.reduce((s, x) => s + f x, a)] is a left fold; it computes [a] plus the sum. *)
Lemma fold_left_sumZ {A} (f : A → Z) (l : list A) (a : Z) :
  fold_left (λ s x, s + f x)%Z l a = (a + sumZ f l)%Z.
Proof.
  revert a. induction l as [|x l IH]; intros a; simpl; [lia|].
  rewrite IH. unfold sumZ; simpl. lia.
Qed.

Lemma sumZ_ext {A} (f g : A → Z) (l : list A) :
  (∀ x, x ∈ l → f x = g x) → sumZ f l = sumZ g l.
Proof.
  induction l as [|x l IH]; intros Hfg; [done|].
  rewrite !sumZ_cons, Hfg, IH; [done| |]; set_solver.
Qed.

Lemma sumZ_nonneg {A} (f : A → Z) (l : list A) :
  (∀ x, x ∈ l → 0 ≤ f x)%Z → (0 ≤ sumZ f l)%Z.
Proof.
  induction l as [|x l IH]; intros Hf; [done|].
  rewrite sumZ_cons. assert (0 ≤ f x)%Z by (apply Hf; set_solver).
  assert (0 ≤ sumZ f l)%Z by (apply IH; set_solver). lia.
Qed.

(** Replacing one element changes the sum by the difference. *)
Lemma sumZ_insert {A} (f : A → Z) (l : list A) i x y :
  l !! i = Some y → sumZ f (<[i := x]> l) = (sumZ f l - f y + f x)%Z.
Proof.
  revert i. induction l as [|z l IH]; intros [|i] Hi; simplify_eq/=; rewrite ?sumZ_cons; [lia|].
  rewrite IH by done. lia.
Qed.

(** ** Indexed updates

    [alter f i l] applies [f] at index [i]; out of range it leaves [l]
    alone.  These two lemmas read it as the write of the handlers. *)

Lemma list_alter_lookup_Some {A} (f : A → A) (l : list A) i x :
  l !! i = Some x → alter f i l = <[i := f x]> l.
Proof.
  intros Hi. apply list_eq. intros j. rewrite list_lookup_alter.
  destruct (decide (i = j)) as [<-|Hij].
  - rewrite list_lookup_insert_eq, Hi; [done|]. by eapply lookup_lt_Some.
  - rewrite list_lookup_insert_ne by done. by destruct (l !! j).
Qed.

Lemma list_alter_lookup_None {A} (f : A → A) (l : list A) i :
  l !! i = None → alter f i l = l.
Proof.
  intros Hi. apply list_eq. intros j. rewrite list_lookup_alter.
  destruct (decide (i = j)) as [<-|]; [by rewrite Hi|]. by destruct (l !! j).
Qed.

(** ** Boolean [Array.prototype.filter] *)

Lemma length_filter_app {A} (p : A → bool) (l1 l2 : list A) :
  length (List.filter p (l1 ++ l2)) = length (List.filter p l1) + length (List.filter p l2).
Proof. by rewrite List.filter_app, length_app. Qed.

Lemma elem_of_filterb {A} (p : A → bool) (l : list A) x :
  x ∈ List.filter p l ↔ x ∈ l ∧ p x = true.
Proof. rewrite !list_elem_of_In. apply List.filter_In. Qed.

#[export] Hint Rewrite @elem_of_filterb : inventory_rw.

(** Replacing one element changes the count of a filter by at most the
    change of that element's test. *)
Lemma length_filter_insert {A} (p : A → bool) (l : list A) i x y :
  l !! i = Some y →
  length (List.filter p (<[i := x]> l)) + (if p y then 1 else 0) =
  length (List.filter p l) + (if p x then 1 else 0).
Proof.
  revert i. induction l as [|z l IH]; intros [|i] Hi; simplify_eq/=.
  - destruct (p x), (p y); simpl; lia.
  - specialize (IH i Hi). destruct (p z); simpl; lia.
Qed.

(** ** Tactics *)

(** Decide every integer comparison of the goal and the hypotheses, so
    that the branches of a handler's tests become arithmetic facts. *)
Ltac js_cases :=
  repeat (match goal with
  | |- context [(?a <=? ?b)%Z] => destruct (Z.leb_spec a b)
  | |- context [(?a <? ?b)%Z] => destruct (Z.ltb_spec a b)
  | |- context [(?a =? ?b)%Z] => destruct (Z.eqb_spec a b)
  | H : context [(?a <=? ?b)%Z] |- _ => destruct (Z.leb_spec a b)
  | H : context [(?a <? ?b)%Z] |- _ => destruct (Z.ltb_spec a b)
  | H : context [(?a =? ?b)%Z] |- _ => destruct (Z.eqb_spec a b)
  end; simpl in *).

Ltac inv_auto := autorewrite with inventory_rw in *; simplify_eq/=; eauto with inventory.
