(* ===== verification/Item.v ===== *)
(** Item records and their stock ledger: the object literals of
    src/App.jsx lines 15-79 and the [history] entries that the stock
    handlers push (lines 109, 119).  The ledger invariant of an item says
    that its quantity is its initial quantity plus the signed sum of its
    ledger. *)

From S2P Require Import Prelude.

Module Item.

(** The [type] property of a ledger entry: the strings 'IN' and 'OUT'. *)
Inductive LedgerType := IN | OUT.

#[export] Instance LedgerType_eq_dec : EqDecision LedgerType.
Proof. solve_decision. Defined.

(** [{ type, qty, date }] as pushed at lines 109 and 119; [date] is the
    [new Date().toLocaleString()] string. *)
Record LedgerEntry := mkEntry {
  type : LedgerType;
  qty : Z;
  date : string
}.

#[export] Instance LedgerEntry_eq_dec : EqDecision LedgerEntry.
Proof. solve_decision. Defined.

(** One inventory object, with the properties in the order of the literal
    (lines 16-35) and [initialQty] last, as the spread of line 79 appends
    it.  [initialQty = None] is the absent property of the literal;
    [image = None] is [null]. *)
Record Item := mkItem {
  materialCode : string;
  materialName : string;
  specification : string;
  warehouseName : string;
  lotNo : string;
  stockUnit : string;
  inventoryQty : Z;
  inventoryStatus : string;
  inventoryOrg : string;
  typeOfOwner : string;
  ownerName : string;
  customerPN : string;
  brand : string;
  gram : string;
  materialGrouping : string;
  customerEndPN : string;
  masterDataProperty : string;
  history : list LedgerEntry;
  image : option string;
  initialQty : option Z
}.

#[export] Instance Item_eq_dec : EqDecision Item.
Proof. solve_decision. Defined.

(** The in-place updates of the handlers, each on one object. *)

(** [item.inventoryQty += qty] (line 108) and [-= qty] (line 118). *)
Definition set_inventoryQty (q : Z) (it : Item) : Item :=
  {| materialCode := it.(materialCode); materialName := it.(materialName);
     specification := it.(specification); warehouseName := it.(warehouseName);
     lotNo := it.(lotNo); stockUnit := it.(stockUnit); inventoryQty := q;
     inventoryStatus := it.(inventoryStatus); inventoryOrg := it.(inventoryOrg);
     typeOfOwner := it.(typeOfOwner); ownerName := it.(ownerName);
     customerPN := it.(customerPN); brand := it.(brand); gram := it.(gram);
     materialGrouping := it.(materialGrouping); customerEndPN := it.(customerEndPN);
     masterDataProperty := it.(masterDataProperty); history := it.(history);
     image := it.(image); initialQty := it.(initialQty) |}.

(** [item.history.push(e)] (lines 109, 119). *)
Definition push_history (e : LedgerEntry) (it : Item) : Item :=
  {| materialCode := it.(materialCode); materialName := it.(materialName);
     specification := it.(specification); warehouseName := it.(warehouseName);
     lotNo := it.(lotNo); stockUnit := it.(stockUnit); inventoryQty := it.(inventoryQty);
     inventoryStatus := it.(inventoryStatus); inventoryOrg := it.(inventoryOrg);
     typeOfOwner := it.(typeOfOwner); ownerName := it.(ownerName);
     customerPN := it.(customerPN); brand := it.(brand); gram := it.(gram);
     materialGrouping := it.(materialGrouping); customerEndPN := it.(customerEndPN);
     masterDataProperty := it.(masterDataProperty); history := it.(history) ++ [e];
     image := it.(image); initialQty := it.(initialQty) |}.

(** [item.image = result] (line 158). *)
Definition set_image (data : string) (it : Item) : Item :=
  {| materialCode := it.(materialCode); materialName := it.(materialName);
     specification := it.(specification); warehouseName := it.(warehouseName);
     lotNo := it.(lotNo); stockUnit := it.(stockUnit); inventoryQty := it.(inventoryQty);
     inventoryStatus := it.(inventoryStatus); inventoryOrg := it.(inventoryOrg);
     typeOfOwner := it.(typeOfOwner); ownerName := it.(ownerName);
     customerPN := it.(customerPN); brand := it.(brand); gram := it.(gram);
     materialGrouping := it.(materialGrouping); customerEndPN := it.(customerEndPN);
     masterDataProperty := it.(masterDataProperty); history := it.(history);
     image := Some data; initialQty := it.(initialQty) |}.

(** [({ ...item, initialQty: item.inventoryQty })] (line 79). *)
Definition with_initialQty (it : Item) : Item :=
  {| materialCode := it.(materialCode); materialName := it.(materialName);
     specification := it.(specification); warehouseName := it.(warehouseName);
     lotNo := it.(lotNo); stockUnit := it.(stockUnit); inventoryQty := it.(inventoryQty);
     inventoryStatus := it.(inventoryStatus); inventoryOrg := it.(inventoryOrg);
     typeOfOwner := it.(typeOfOwner); ownerName := it.(ownerName);
     customerPN := it.(customerPN); brand := it.(brand); gram := it.(gram);
     materialGrouping := it.(materialGrouping); customerEndPN := it.(customerEndPN);
     masterDataProperty := it.(masterDataProperty); history := it.(history);
     image := it.(image); initialQty := Some it.(inventoryQty) |}.

(** The three literals of lines 16-78, before the [.map] of line 79. *)
Definition seedLiteral : list Item := [
  {| materialCode := "9.04.009449";
     materialName := "EZC250H3200 MCCB 3P 200A36kA Schneider";
     specification := "EZC250H3200 MCCB 3P 200A36kA Schneider";
     warehouseName := "Pulp Tray (Consumable Material)";
     lotNo := ""; stockUnit := "unit"; inventoryQty := 1;
     inventoryStatus := "Available"; inventoryOrg := "PT GAOYI PACKAGING INDONESIA";
     typeOfOwner := "Business Org"; ownerName := "PT GAOYI PACKAGING INDONESIA";
     customerPN := ""; brand := ""; gram := "";
     materialGrouping := "Electrical appliances"; customerEndPN := "";
     masterDataProperty := ""; history := []; image := None; initialQty := None |};
  {| materialCode := "9.07.011003";
     materialName := "Airtac Solenoid Valve 4V21008A AC220V";
     specification := "Airtac Solenoid Valve 4V21008A AC220V";
     warehouseName := "Pulp Tray (Consumable Material)";
     lotNo := ""; stockUnit := "Pcs"; inventoryQty := 3;
     inventoryStatus := "Available"; inventoryOrg := "PT GAOYI PACKAGING INDONESIA";
     typeOfOwner := "Business Org"; ownerName := "PT GAOYI PACKAGING INDONESIA";
     customerPN := ""; brand := ""; gram := "";
     materialGrouping := "Accessories"; customerEndPN := "";
     masterDataProperty := ""; history := []; image := None; initialQty := None |};
  {| materialCode := "1465.Z.0021";
     materialName := "INNER CARTON FILLER MATERIAL";
     specification := "320±3mm(L)*180±2mm(W)*32±2mm(H); 86g±10%";
     warehouseName := "Pulp Tray (Finished Product)";
     lotNo := ""; stockUnit := "Pcs"; inventoryQty := 3000;
     inventoryStatus := "Available"; inventoryOrg := "PT GAOYI PACKAGING INDONESIA";
     typeOfOwner := "Business Org"; ownerName := "PT GAOYI PACKAGING INDONESIA";
     customerPN := "SLPRT-100292700"; brand := ""; gram := "";
     materialGrouping := "Pulp"; customerEndPN := "H23-361 A04 R04";
     masterDataProperty := ""; history := []; image := None; initialQty := None |}
].

(** [initialData] (lines 15-79). *)
Definition initialData : list Item := with_initialQty <$> seedLiteral.

(** ** The ledger *)

(** The signed quantity of an entry: [+qty] for IN, [-qty] for OUT. *)
Definition signed (e : LedgerEntry) : Z :=
  match e.(type) with IN => e.(qty) | OUT => - e.(qty) end%Z.

Definition ledger_sum (h : list LedgerEntry) : Z := sumZ signed h.

(** The ledger invariant of one item: the initial quantity is set, the
    quantity is its initial quantity plus the signed ledger and is never
    negative, and every entry moved a positive quantity. *)
Definition item_ok (it : Item) : Prop :=
  match it.(initialQty) with
  | Some i =>
      it.(inventoryQty) = (i + ledger_sum it.(history))%Z ∧
      (0 ≤ it.(inventoryQty))%Z ∧
      Forall (λ e, 0 < e.(qty))%Z it.(history)
  | None => False
  end.

#[export] Instance item_ok_dec it : Decision (item_ok it).
Proof. unfold item_ok. destruct (initialQty it); apply _. Defined.

End Item.
