(* ===== verification/Double.v ===== *)
(** The double arithmetic of two expressions of src/App.jsx with the
    literal [0.1]: [item.inventoryQty < item.initialQty * 0.1] (line 93)
    and [Math.ceil(item.initialQty * 0.1)] (line 134).  A JavaScript
    number is an IEEE 754 binary64 double; the model uses the Stdlib's
    [SpecFloat] (precision 53, [emax] 1024, round to nearest even):
    [of_Z] is the double of an integer, [tenth] the double the literal
    [0.1] denotes, [mul] and [lt] are [*] and [<], [ceil_Z] is the value
    of [Math.ceil] on a finite double.

    The lemmas follow [SFmul] through [binary_round_aux]: the right shift
    of the exact product with its round and sticky bits ([iter_shr_1]),
    the rounding to nearest even ([round_ne_spec]) and the carry into the
    next binade ([round_aux_spec]).  Values are compared as integers at
    the scale [2^108] ([sval]), where every double met here is an
    integer.  The result: for [0 <= i < 2^53] and [|q| < 2^53] the double
    test [q < i * 0.1] is the integer test [10 q < i], and
    [Math.ceil(i * 0.1)] is the ceiling of [i / 10].  For a negative [i]
    the product can round onto an integer and both differ from the
    integer forms. *)

From S2P Require Import Prelude.
From Stdlib Require Import Floats.SpecFloat.

Module Double.
Local Open Scope Z_scope.

(** ** Doubles *)

(** The double of an integer ([Number] of a JSON integer or of a
    [parseInt] result): exact below [2^53]. *)
Definition of_Z (z : Z) : spec_float := binary_normalize 53 1024 z 0 false.

(** The literal [0.1]: the double nearest to 1/10, [7205759403792794 * 2^-56],
    whose mantissa is [(2^56 + 4) / 10]. *)
Definition T : positive := 7205759403792794.
Definition tenth : spec_float := S754_finite false T (-56).

(** [x * y] and [x < y] on numbers. *)
Definition mul (x y : spec_float) : spec_float := SFmul 53 1024 x y.
Definition lt (x y : spec_float) : bool := SFltb x y.

(** [Math.ceil(x)] for a finite [x] (a zero or a finite double), as an
    integer; [None] for NaN and the infinities. *)
Definition ceil_Z (x : spec_float) : option Z :=
  match x with
  | S754_zero _ => Some 0
  | S754_finite s m e =>
      Some (if 0 <=? e then cond_Zopp s (Zpos m * 2 ^ e)
            else - ((- cond_Zopp s (Zpos m)) / 2 ^ (- e)))
  | _ => None
  end.

(** The value of a finite double times [2^K]: an integer when the
    exponent is at least [-K]. *)
Definition sval (K : Z) (x : spec_float) : Z :=
  match x with
  | S754_finite s m e => cond_Zopp s (Zpos m * 2 ^ (e + K))
  | _ => 0
  end.

(** Zero, or a normal double whose exponent is at least [-K]. *)
Definition normal (K : Z) (x : spec_float) : Prop :=
  match x with
  | S754_zero _ => True
  | S754_finite _ m e => 2 ^ 52 <= Zpos m < 2 ^ 53 ∧ 0 <= e + K
  | _ => False
  end.

(** ** Shifts and rounding *)

Lemma digits2_pos_bounds p :
  2 ^ (Zpos (digits2_pos p) - 1) <= Zpos p < 2 ^ Zpos (digits2_pos p).
Proof.
  induction p as [p IH|p IH|].
  - change (digits2_pos p~1) with (Pos.succ (digits2_pos p)).
    rewrite Pos2Z.inj_succ, Pos2Z.inj_xI.
    set (d := Zpos (digits2_pos p)) in *.
    assert (0 < d) by (subst d; lia).
    assert (2 ^ d = 2 * 2 ^ (d - 1)) as E1 by (rewrite <- Z.pow_succ_r by lia; f_equal; lia).
    assert (2 ^ Z.succ d = 2 * 2 ^ d) as E2 by (rewrite Z.pow_succ_r by lia; lia).
    replace (Z.succ d - 1) with d by lia. lia.
  - change (digits2_pos p~0) with (Pos.succ (digits2_pos p)).
    rewrite Pos2Z.inj_succ. change (Zpos p~0) with (2 * Zpos p).
    set (d := Zpos (digits2_pos p)) in *.
    assert (0 < d) by (subst d; lia).
    assert (2 ^ d = 2 * 2 ^ (d - 1)) as E1 by (rewrite <- Z.pow_succ_r by lia; f_equal; lia).
    assert (2 ^ Z.succ d = 2 * 2 ^ d) as E2 by (rewrite Z.pow_succ_r by lia; lia).
    replace (Z.succ d - 1) with d by lia. lia.
  - cbv. split; congruence.
Qed.

Lemma iter_pos_nat {A} (f : A -> A) p x : iter_pos f p x = Nat.iter (Pos.to_nat p) f x.
Proof.
  revert x. induction p as [p IH|p IH|]; intros x; cbn [iter_pos].
  - rewrite IH, IH, Pos2Nat.inj_xI, Nat.iter_succ_r, <- Nat.iter_add. f_equal. lia.
  - rewrite IH, IH, Pos2Nat.inj_xO, <- Nat.iter_add. f_equal. lia.
  - reflexivity.
Qed.

Lemma shr_1_spec m r s :
  0 <= m ->
  shr_1 (Build_shr_record m r s) = Build_shr_record (m / 2) (Z.odd m) (r || s).
Proof.
  intros Hm. rewrite <- Z.div2_div.
  destruct m as [|[p|p|]|p]; try lia; reflexivity.
Qed.

Lemma mod_pow2_succ m k :
  0 <= k ->
  m mod 2 ^ (k + 1) = m mod 2 ^ k + 2 ^ k * ((m / 2 ^ k) mod 2).
Proof.
  intros Hk. rewrite Z.pow_add_r by lia. apply Z.rem_mul_r; [|lia].
  apply Z.pow_nonzero; lia.
Qed.

Lemma iter_shr_1 k m :
  0 <= m ->
  Nat.iter (S k) shr_1 (Build_shr_record m false false) =
  Build_shr_record (m / 2 ^ Z.of_nat (S k)) (Z.odd (m / 2 ^ Z.of_nat k))
                   (negb (m mod 2 ^ Z.of_nat k =? 0)).
Proof.
  intros Hm. induction k as [|k IH].
  - cbn [Nat.iter]. rewrite shr_1_spec by lia. change (2 ^ Z.of_nat 1) with 2. change (2 ^ Z.of_nat 0) with 1. rewrite Z.div_1_r, Z.mod_1_r. reflexivity.
  - rewrite Nat.iter_succ, IH.
    assert (0 <= 2 ^ Z.of_nat (S k)) by (apply Z.pow_nonneg; lia).
    rewrite shr_1_spec by (apply Z.div_pos; lia).
    rewrite Z.div_div by (try apply Z.pow_pos_nonneg; lia).
    replace (2 ^ Z.of_nat (S (S k))) with (2 ^ Z.of_nat (S k) * 2)
      by (rewrite (Nat2Z.inj_succ (S k)), Z.pow_succ_r by lia; lia).
    f_equal.
    replace (Z.of_nat (S k)) with (Z.of_nat k + 1) by lia.
    rewrite mod_pow2_succ by lia.
    assert (0 <= m mod 2 ^ Z.of_nat k) by (apply Z.mod_pos_bound, Z.pow_pos_nonneg; lia).
    assert (0 < 2 ^ Z.of_nat k) by (apply Z.pow_pos_nonneg; lia).
    rewrite Zmod_odd. destruct (Z.odd _); simpl.
    + symmetry. apply Bool.negb_true_iff, Z.eqb_neq. lia.
    + rewrite Z.mul_0_r, Z.add_0_r. reflexivity.
Qed.


Lemma shr_spec m e n :
  0 <= m -> 0 < n ->
  shr (Build_shr_record m false false) e n =
  (Build_shr_record (m / 2 ^ n) (Z.odd (m / 2 ^ (n - 1))) (negb (m mod 2 ^ (n - 1) =? 0)), e + n).
Proof.
  intros Hm Hn. destruct n as [|p|p]; try lia. unfold shr.
  rewrite iter_pos_nat. destruct (Pos2Nat.is_succ p) as [k Hk]. rewrite Hk, iter_shr_1 by assumption.
  assert (Z.of_nat (S k) = Zpos p) as Hp by (rewrite <- Hk; apply positive_nat_Z).
  rewrite Hp. replace (Z.of_nat k) with (Zpos p - 1) by lia. reflexivity.
Qed.

Lemma round_ne_spec m n :
  0 <= m -> 0 < n ->
  let q := m / 2 ^ n in
  let mr := round_nearest_even q
              (loc_of_shr_record (Build_shr_record q (Z.odd (m / 2 ^ (n - 1))) (negb (m mod 2 ^ (n - 1) =? 0)))) in
  Z.abs (mr * 2 ^ n - m) <= 2 ^ (n - 1) /\ (mr = q \/ mr = q + 1).
Proof.
  intros Hm Hn q mr.
  set (h := 2 ^ (n - 1)) in *.
  assert (0 < h) by (apply Z.pow_pos_nonneg; lia).
  assert (2 ^ n = h * 2) as Hn2 by (subst h; rewrite Z.mul_comm, <- Z.pow_succ_r by lia; f_equal; lia).
  assert (q = m / h / 2) as Hq by (subst q; rewrite Hn2, Z.div_div by lia; reflexivity).
  pose proof (Z.div_mod m h ltac:(lia)) as Hm1. pose proof (Z.mod_pos_bound m h H) as Ht.
  pose proof (Z.div_mod (m / h) 2 ltac:(lia)) as Hm2. pose proof (Z.mod_pos_bound (m / h) 2 ltac:(lia)) as Hb.
  rewrite <- Hq in Hm2. rewrite Hn2.
  subst mr. rewrite Zmod_odd in Hm2.
  destruct (Z.odd (m / h)); destruct (m mod h =? 0) eqn:Et; simpl;
    [apply Z.eqb_eq in Et | apply Z.eqb_neq in Et | apply Z.eqb_eq in Et | apply Z.eqb_neq in Et].
  - destruct (Z.even q); split; lia.
  - split; lia.
  - split; lia.
  - split; lia.
Qed.


Lemma digits2_pos_eq x k :
  0 < k -> 2 ^ (k - 1) <= Zpos x < 2 ^ k -> Zpos (digits2_pos x) = k.
Proof.
  intros Hk Hx. pose proof (digits2_pos_bounds x) as Hd.
  set (d := Zpos (digits2_pos x)) in *. assert (0 < d) by (subst d; lia).
  destruct (Z.lt_trichotomy d k) as [Hlt|[Heq|Hgt]]; [|exact Heq|].
  - pose proof (Z.pow_le_mono_r 2 d (k - 1) ltac:(lia) ltac:(lia)). lia.
  - pose proof (Z.pow_le_mono_r 2 k (d - 1) ltac:(lia) ltac:(lia)). lia.
Qed.

Lemma digits2_pos_53 x : 2 ^ 52 <= Zpos x < 2 ^ 53 -> Zpos (digits2_pos x) = 53.
Proof. intros H. apply digits2_pos_eq; [lia|exact H]. Qed.

Lemma digits2_pos_54 x : Zpos x = 2 ^ 53 -> Zpos (digits2_pos x) = 54.
Proof. intros H. apply digits2_pos_eq; [lia|rewrite H; vm_compute; split; congruence]. Qed.

Lemma shr_fexp_exact P E :
  -1074 <= Zpos (digits2_pos P) + E - 53 ->
  shr_fexp 53 1024 (Zpos P) E loc_Exact =
  shr (Build_shr_record (Zpos P) false false) E (Zpos (digits2_pos P) - 53).
Proof.
  intros H. unfold shr_fexp, fexp, emin. simpl shr_record_of_loc. f_equal.
  change (Zdigits2 (Zpos P)) with (Zpos (digits2_pos P)). lia.
Qed.

(** [binary_round_aux] on an exact positive product with at least 53
    digits in the normal range: a normal result within half a unit of
    the last place, on the grid of that unit. *)
Lemma round_aux_spec sx P E :
  let D := Zpos (digits2_pos P) in
  53 <= D -> -1074 <= D + E - 53 -> D + E - 52 <= 971 ->
  exists (m : positive) e mr,
    binary_round_aux 53 1024 sx (Zpos P) E loc_Exact = S754_finite sx m e /\
    2 ^ 52 <= Zpos m < 2 ^ 53 /\ 0 <= e - E /\
    Zpos m * 2 ^ (e - E) = mr * 2 ^ (D - 53) /\
    Z.abs (mr * 2 ^ (D - 53) - Zpos P) <= 2 ^ (D - 53 - 1).
Proof.
  intros D HD Hmin Hmax. pose proof (digits2_pos_bounds P) as HP. fold D in HP.
  remember (binary_round_aux 53 1024 sx (Zpos P) E loc_Exact) as r eqn:Hr.
  unfold binary_round_aux in Hr. rewrite shr_fexp_exact in Hr by lia. fold D in Hr.
  destruct (Z.eq_dec D 53) as [H53|H53].
  - rewrite H53, Z.sub_diag in Hr. cbn [shr shr_m loc_of_shr_record round_nearest_even] in Hr.
    rewrite shr_fexp_exact in Hr by lia. fold D in Hr. rewrite H53, Z.sub_diag in Hr.
    cbn [shr shr_m] in Hr.
    replace (E <=? 1024 - 53) with true in Hr by (symmetry; apply Z.leb_le; lia).
    exists P, E, (Zpos P). rewrite H53 in HP. split_and!; [exact Hr|idtac..]; try lia.
    + by rewrite H53, !Z.sub_diag.
    + rewrite H53, Z.sub_diag, Z.pow_0_r, Z.mul_1_r, Z.sub_diag. simpl. lia.
  - rewrite shr_spec in Hr by lia. cbn [shr_m] in Hr.
    set (n := D - 53) in *.
    destruct (round_ne_spec (Zpos P) n ltac:(lia) ltac:(lia)) as [Herr Hmr].
    set (q := Zpos P / 2 ^ n) in *.
    revert Hr Herr Hmr.
    generalize (round_nearest_even q (loc_of_shr_record {| shr_m := q;
      shr_r := Z.odd (Zpos P / 2 ^ (n - 1)); shr_s := negb (Zpos P mod 2 ^ (n - 1) =? 0) |})).
    intros mr Hr Herr Hmr.
    assert (2 ^ D = 2 ^ n * 2 ^ 53) as HDn by (rewrite <- Z.pow_add_r by lia; f_equal; lia).
    assert (2 ^ (D - 1) = 2 ^ n * 2 ^ 52) as HDn1 by (rewrite <- Z.pow_add_r by lia; f_equal; lia).
    assert (0 < 2 ^ n) by (apply Z.pow_pos_nonneg; lia).
    assert (2 ^ 52 <= q < 2 ^ 53) as Hq.
    { subst q. split.
      - apply Z.div_le_lower_bound; lia.
      - apply Z.div_lt_upper_bound; lia. }
    assert (2 ^ 52 <= mr <= 2 ^ 53) as Hmrb by lia.
    destruct mr as [|pm|pm] eqn:Emr; try lia.
    destruct (Z.eq_dec (Zpos pm) (2 ^ 53)) as [Htop|Htop].
    + rewrite shr_fexp_exact in Hr.
      2:{ rewrite (digits2_pos_54 pm Htop). lia. }
      rewrite (digits2_pos_54 pm Htop) in Hr.
      rewrite shr_spec in Hr by lia. cbn [shr_m] in Hr.
      replace (Zpos pm / 2 ^ (54 - 53)) with (Zpos 4503599627370496) in Hr by (rewrite Htop; reflexivity).
      replace (E + n + (54 - 53) <=? 1024 - 53) with true in Hr by (symmetry; apply Z.leb_le; lia).
      exists 4503599627370496%positive, (E + n + (54 - 53)), (Zpos pm).
      split_and!; [exact Hr|idtac..]; try lia.
      replace (E + n + (54 - 53) - E) with (n + 1) by lia. rewrite Z.pow_add_r by lia. rewrite Htop.
      change (Zpos 4503599627370496) with (2 ^ 52). fold n. rewrite Z.pow_1_r. lia.
    + rewrite shr_fexp_exact in Hr.
      2:{ rewrite (digits2_pos_53 pm) by lia. lia. }
      rewrite (digits2_pos_53 pm), Z.sub_diag in Hr by lia. cbn [shr shr_m] in Hr.
      replace (E + n <=? 1024 - 53) with true in Hr by (symmetry; apply Z.leb_le; lia).
      exists pm, (E + n), (Zpos pm). fold n.
      split_and!; [exact Hr|idtac..]; try lia.
      f_equal. f_equal. lia.
Qed.


(** ** Integers as doubles *)

Lemma iter_xO p k : Zpos (Pos.iter xO p k) = Zpos p * 2 ^ Zpos k.
Proof.
  rewrite <- Z.shiftl_mul_pow2 by lia. simpl Z.shiftl.
  apply (Pos.iter_swap_gen _ _ Zpos xO (Z.mul 2)). reflexivity.
Qed.

Lemma normalize_pos sx p :
  binary_normalize 53 1024 (cond_Zopp sx (Zpos p)) 0 false = binary_round 53 1024 sx p 0.
Proof. by destruct sx. Qed.

Lemma shl_align_small p :
  Zpos (digits2_pos p) <= 53 ->
  ∃ p', shl_align p 0 (fexp 53 1024 (Zpos (digits2_pos p) + 0)) = (p', Zpos (digits2_pos p) - 53) ∧
        Zpos p' = Zpos p * 2 ^ (53 - Zpos (digits2_pos p)).
Proof.
  intros Hd.
  assert (fexp 53 1024 (Zpos (digits2_pos p) + 0) = Zpos (digits2_pos p) - 53) as ->
    by (unfold fexp, emin; lia).
  unfold shl_align. rewrite Z.sub_0_r.
  destruct (Zpos (digits2_pos p) - 53) as [|k|k] eqn:Ek.
  - exists p. split; [done|]. replace (53 - Zpos (digits2_pos p)) with 0 by lia. lia.
  - lia.
  - exists (Pos.iter xO p k). split; [done|]. rewrite iter_xO. do 2 f_equal. lia.
Qed.

Lemma of_pos_spec sx p :
  Zpos p < 2 ^ 53 ->
  ∃ m e, binary_normalize 53 1024 (cond_Zopp sx (Zpos p)) 0 false = S754_finite sx m e ∧
    2 ^ 52 <= Zpos m < 2 ^ 53 ∧ -52 <= e <= 0 ∧ Zpos m * 2 ^ (e + 52) = Zpos p * 2 ^ 52.
Proof.
  intros Hp. pose proof (digits2_pos_bounds p) as Hd.
  assert (Zpos (digits2_pos p) <= 53).
  { destruct (Z.le_gt_cases (Zpos (digits2_pos p)) 53) as [|Hgt]; [done|].
    pose proof (Z.pow_le_mono_r 2 53 (Zpos (digits2_pos p) - 1) ltac:(lia) ltac:(lia)). lia. }
  rewrite normalize_pos. unfold binary_round.
  destruct (shl_align_small p) as (p' & -> & Hp'); [done|].
  set (d := Zpos (digits2_pos p)) in *.
  assert (2 ^ 52 <= Zpos p' < 2 ^ 53) as Hb.
  { rewrite Hp'. assert (2 ^ 53 = 2 ^ d * 2 ^ (53 - d)) as E53 by (rewrite <- Z.pow_add_r by lia; f_equal; lia).
    assert (2 ^ 52 = 2 ^ (d - 1) * 2 ^ (53 - d)) as E52 by (rewrite <- Z.pow_add_r by lia; f_equal; lia).
    assert (0 < 2 ^ (53 - d)) by (apply Z.pow_pos_nonneg; lia). nia. }
  destruct (round_aux_spec sx p' (d - 53)) as (m & e & mr & Hr & Hm & He & Hv & Herr);
    cbv zeta in *; rewrite ?(digits2_pos_53 p' Hb) in *; try lia.
  rewrite Z.sub_diag, Z.pow_0_r, Z.mul_1_r in Hv, Herr. simpl in Herr.
  assert (mr = Zpos p') as -> by lia.
  exists m, e. split; [done|]. split; [done|].
  assert (e = d - 53) as ->.
  { destruct (Z.eq_dec e (d - 53)) as [|Hne]; [done|].
    assert (2 <= 2 ^ (e - (d - 53))) by (rewrite <- (Z.pow_1_r 2) at 1; apply Z.pow_le_mono_r; lia). nia. }
  rewrite Z.sub_diag, Z.pow_0_r, Z.mul_1_r in Hv. rewrite Hv, Hp'.
  split; [lia|]. rewrite <- Z.mul_assoc, <- Z.pow_add_r by lia. do 2 f_equal. lia.
Qed.


(** ** The product [i * 0.1] *)

(** The arithmetic core: the rounded product [mr * g] of the exact
    product [X] (all at the scale [2^108]) lies in [((c-1), c]] times
    [2^108] for the ceiling [c] of [i/10]. *)
Lemma tenth_arith (i c mr g H X t : Z) :
  0 < i < 2 ^ 53 -> 10 * (c - 1) < i <= 10 * c -> g = 2 * H -> 0 < H -> g * t = 2 ^ 108 ->
  10 * X = i * 2 ^ 108 + 4 * i * 2 ^ 52 -> 2 ^ 53 * H <= X -> X < 2 ^ 54 * H ->
  Z.abs (mr * g - X) <= H ->
  (c - 1) * 2 ^ 108 < mr * g <= c * 2 ^ 108.
Proof.
  intros Hi Hc Hg HH Ht HX Hlo Hhi Herr.
  change (2 ^ 53) with (2 * 2 ^ 52) in *. change (2 ^ 54) with (4 * 2 ^ 52) in *.
  change (2 ^ 108) with (2 ^ 56 * 2 ^ 52) in *.
  set (A := 2 ^ 52) in *. assert (0 < A) by (subst A; lia).
  change (2 ^ 56) with 72057594037927936 in *.
  split.
  - (* 10 H < 2^108 + 4 i A *)
    assert (20 * A * H <= i * (72057594037927936 * A) + 4 * i * A) by lia.
    assert (10 * H < 72057594037927936 * A + 4 * i * A) by nia.
    nia.
  - destruct (Z.eq_dec i (10 * c)) as [Heq|Hne].
    + subst i.
      assert (c * 72057594037927936 * A + 4 * c * A < 4 * A * H) by lia.
      assert (4 * c * A * 4 * A < 4 * A * H) by nia.
      assert (4 * c * A < H) by nia.
      assert (mr * g < (c * t + 1) * g) by nia.
      assert (mr < c * t + 1) by nia.
      nia.
    + assert (c * 72057594037927936 * A > X) by lia.
      assert (mr <= c * t) by nia.
      nia.
Qed.

(** ** Comparisons of doubles as integers *)

Lemma mag_compare m1 e1 m2 e2 K :
  2 ^ 52 <= Zpos m1 < 2 ^ 53 -> 2 ^ 52 <= Zpos m2 < 2 ^ 53 -> 0 <= e1 + K -> 0 <= e2 + K ->
  match Z.compare e1 e2 with Lt => Lt | Gt => Gt | Eq => Pos.compare_cont Eq m1 m2 end =
  Z.compare (Zpos m1 * 2 ^ (e1 + K)) (Zpos m2 * 2 ^ (e2 + K)).
Proof.
  intros H1 H2 He1 He2. destruct (Z.compare_spec e1 e2) as [->|Hlt|Hgt].
  - change (Pos.compare_cont Eq m1 m2) with (Z.compare (Zpos m1) (Zpos m2)).
    rewrite <- Zmult_compare_compat_r; [done|]. apply Z.lt_gt, Z.pow_pos_nonneg; lia.
  - symmetry. apply (proj2 (Z.compare_lt_iff _ _)).
    replace (e2 + K) with ((e1 + K) + (e2 - e1)) by lia. rewrite (Z.pow_add_r 2 (e1 + K) (e2 - e1)) by lia.
    assert (0 < 2 ^ (e1 + K)) by (apply Z.pow_pos_nonneg; lia).
    assert (2 <= 2 ^ (e2 - e1)) by (rewrite <- (Z.pow_1_r 2) at 1; apply Z.pow_le_mono_r; lia).
    change (2 ^ 53) with (2 * 2 ^ 52) in *.
    assert (Zpos m1 < Zpos m2 * 2 ^ (e2 - e1)) by nia.
    nia.
  - symmetry. apply (proj2 (Z.compare_gt_iff _ _)).
    replace (e1 + K) with ((e2 + K) + (e1 - e2)) by lia. rewrite (Z.pow_add_r 2 (e2 + K) (e1 - e2)) by lia.
    assert (0 < 2 ^ (e2 + K)) by (apply Z.pow_pos_nonneg; lia).
    assert (2 <= 2 ^ (e1 - e2)) by (rewrite <- (Z.pow_1_r 2) at 1; apply Z.pow_le_mono_r; lia).
    change (2 ^ 53) with (2 * 2 ^ 52) in *.
    assert (Zpos m2 < Zpos m1 * 2 ^ (e1 - e2)) by nia.
    nia.
Qed.

Lemma compare_sval K x y :
  normal K x -> normal K y -> SFcompare x y = Some (Z.compare (sval K x) (sval K y)).
Proof.
  destruct x as [sx| | |sx mx ex], y as [sy| | |sy my ey]; unfold normal, sval; cbn [SFcompare];
    try done.
  - intros _ [[? ?] ?]. assert (0 < 2 ^ (ey + K)) by (apply Z.pow_pos_nonneg; lia).
    destruct sy; cbn [cond_Zopp]; f_equal; symmetry;
      [apply (proj2 (Z.compare_gt_iff _ _))|apply (proj2 (Z.compare_lt_iff _ _))]; nia.
  - intros [[? ?] ?] _. assert (0 < 2 ^ (ex + K)) by (apply Z.pow_pos_nonneg; lia).
    destruct sx; cbn [cond_Zopp]; f_equal; symmetry;
      [apply (proj2 (Z.compare_lt_iff _ _))|apply (proj2 (Z.compare_gt_iff _ _))]; nia.
  - intros [Hx Hex] [Hy Hey].
    assert (0 < 2 ^ (ex + K)) by (apply Z.pow_pos_nonneg; lia).
    assert (0 < 2 ^ (ey + K)) by (apply Z.pow_pos_nonneg; lia).
    destruct sx, sy; cbn [cond_Zopp]; f_equal.
    + rewrite Z.compare_opp, (Z.compare_antisym (Zpos mx * 2 ^ (ex + K))),
        <- (mag_compare mx ex my ey K) by done.
      by destruct (Z.compare ex ey).
    + symmetry. apply (proj2 (Z.compare_lt_iff _ _)). nia.
    + symmetry. apply (proj2 (Z.compare_gt_iff _ _)). nia.
    + by apply mag_compare.
Qed.

Lemma ltb_sval K x y : normal K x -> normal K y -> SFltb x y = Z.ltb (sval K x) (sval K y).
Proof.
  intros Hx Hy. unfold SFltb, Z.ltb. rewrite (compare_sval K x y Hx Hy).
  by destruct (Z.compare _ _).
Qed.

Lemma of_Z_spec z :
  Z.abs z < 2 ^ 53 -> normal 108 (of_Z z) ∧ sval 108 (of_Z z) = z * 2 ^ 108.
Proof.
  intros Hz. destruct z as [|p|p]; [done| |].
  - destruct (of_pos_spec false p) as (m & e & Hof & Hm & He & Hv); [lia|].
    unfold of_Z. change (Zpos p) with (cond_Zopp false (Zpos p)). rewrite Hof.
    split; [simpl; lia|]. unfold sval; cbn [cond_Zopp].
    replace (e + 108) with ((e + 52) + 56) by lia. rewrite Z.pow_add_r by lia.
    change (2 ^ 108) with (2 ^ 52 * 2 ^ 56). nia.
  - destruct (of_pos_spec true p) as (m & e & Hof & Hm & He & Hv); [lia|].
    unfold of_Z. change (Zneg p) with (cond_Zopp true (Zpos p)). rewrite Hof.
    split; [simpl; lia|]. unfold sval; cbn [cond_Zopp].
    replace (e + 108) with ((e + 52) + 56) by lia. rewrite Z.pow_add_r by lia.
    change (2 ^ 108) with (2 ^ 52 * 2 ^ 56). nia.
Qed.

Lemma ceil_div_bounds i : 10 * (- ((- i) / 10) - 1) < i <= 10 * (- ((- i) / 10)).
Proof. pose proof (Z.div_mod (- i) 10 ltac:(lia)). pose proof (Z.mod_pos_bound (- i) 10 ltac:(lia)). lia. Qed.

Lemma pow_lt_exp a b : 0 <= a -> 0 <= b -> 2 ^ a < 2 ^ b -> a < b.
Proof.
  intros Ha Hb H. destruct (Z.lt_ge_cases a b) as [|Hge]; [done|].
  pose proof (Z.pow_le_mono_r 2 b a ltac:(lia) Hge). lia.
Qed.

(** The double [i * 0.1] for [0 < i < 2^53]. *)
Lemma times_tenth_spec i :
  0 < i < 2 ^ 53 ->
  ∃ m e, SFmul 53 1024 (of_Z i) tenth = S754_finite false m e ∧
    2 ^ 52 <= Zpos m < 2 ^ 53 ∧ 0 <= e + 108 ∧
    (- ((- i) / 10) - 1) * 2 ^ 108 < Zpos m * 2 ^ (e + 108) <= - ((- i) / 10) * 2 ^ 108.
Proof.
  intros Hi. destruct i as [|p|p]; try lia.
  destruct (of_pos_spec false p) as (mi & ei & Hof & Hmi & Hei & Hvi); [lia|].
  unfold of_Z. change (Zpos p) with (cond_Zopp false (Zpos p)) at 1. rewrite Hof.
  change (SFmul 53 1024 (S754_finite false mi ei) tenth)
    with (binary_round_aux 53 1024 false (Zpos (mi * T)) (ei + -56) loc_Exact).
  assert (2 ^ 52 <= Zpos T < 2 ^ 53) as HT by (vm_compute; split; congruence).
  assert (10 * Zpos T = 2 ^ 56 + 4) as HT10 by reflexivity.
  rewrite Pos2Z.inj_mul.
  set (P := Zpos mi * Zpos T) in *.
  pose proof (digits2_pos_bounds (mi * T)) as HD. rewrite Pos2Z.inj_mul in HD. fold P in HD.
  set (D := Zpos (digits2_pos (mi * T))) in *.
  assert (2 ^ 104 <= P < 2 ^ 106) as HP.
  { change (2 ^ 104) with (2 ^ 52 * 2 ^ 52). change (2 ^ 106) with (2 ^ 53 * 2 ^ 53). subst P. nia. }
  assert (105 <= D <= 106) as HDr.
  { assert (0 < D) by (subst D; lia).
    assert (104 < D) by (apply pow_lt_exp; lia).
    assert (D - 1 < 106) by (apply pow_lt_exp; lia). lia. }
  destruct (round_aux_spec false (mi * T) (ei + -56)) as (m & e & mr & Hr & Hm & He & Hv & Herr);
    [fold D; lia..|]. fold D in Hv, Herr.
  rewrite Pos2Z.inj_mul in Herr. fold P in Herr.
  exists m, e. split; [exact Hr|]. split; [exact Hm|]. split; [lia|].
  set (n := D - 53) in *. assert (52 <= n <= 53) by (subst n; lia).
  set (u := 2 ^ (ei + 52)).
  assert (0 < u) by (apply Z.pow_pos_nonneg; lia).
  assert (Zpos m * 2 ^ (e + 108) = mr * (2 ^ n * u)) as ->.
  { replace (e + 108) with ((e - (ei + -56)) + (ei + 52)) by lia.
    rewrite Z.pow_add_r, Z.mul_assoc, Hv by lia. subst u. ring. }
  set (X := P * u).
  assert (X = Zpos p * 2 ^ 52 * Zpos T) as HX.
  { subst X P u. rewrite <- Hvi. ring. }
  set (hu := 2 ^ (n - 1) * u). set (g := 2 ^ n * u).
  assert (2 ^ n = 2 * 2 ^ (n - 1)) as Hn2
    by (rewrite <- Z.pow_succ_r by lia; f_equal; lia).
  assert (g = 2 * hu) as Hg by (subst g hu; rewrite Hn2; ring).
  assert (0 < hu) by (subst hu; pose proof (Z.pow_pos_nonneg 2 (n - 1)); nia).
  assert (2 ^ (D - 1) = 2 ^ 53 * 2 ^ (n - 1)) as HD1 by (rewrite <- Z.pow_add_r by lia; f_equal; lia).
  assert (2 ^ D = 2 ^ 54 * 2 ^ (n - 1)) as HD2 by (rewrite <- Z.pow_add_r by lia; f_equal; lia).
  assert (2 ^ 53 * hu <= X) as Hlo by (subst hu X; nia).
  assert (X < 2 ^ 54 * hu) as Hhi by (subst hu X; nia).
  assert (g = 2 ^ (n + (ei + 52))) as Hge by (subst g u; rewrite (Z.pow_add_r 2 n (ei + 52)) by lia; ring).
  assert (n + (ei + 52) < 106) as Hexp.
  { apply pow_lt_exp; [lia|lia|]. rewrite <- Hge.
    change (2 ^ 106) with (2 ^ 53 * 2 ^ 53). change (2 ^ 53) with (2 * 2 ^ 52) in Hlo, Hi, HT. nia. }
  set (t := 2 ^ (108 - (n + (ei + 52)))).
  assert (g * t = 2 ^ 108) as Ht by (rewrite Hge; subst t; rewrite <- Z.pow_add_r by lia; f_equal; lia).
  assert (Z.abs (mr * g - X) <= hu) as Herr'.
  { subst g X hu. replace (mr * (2 ^ n * u) - P * u) with ((mr * 2 ^ n - P) * u) by ring.
    rewrite Z.abs_mul, (Z.abs_eq u) by lia. nia. }
  assert (10 * X = Zpos p * 2 ^ 108 + 4 * Zpos p * 2 ^ 52) as HX10.
  { rewrite HX. change (2 ^ 108) with (2 ^ 52 * 2 ^ 56). nia. }
  apply (tenth_arith (Zpos p) _ mr g hu X t); try done. apply ceil_div_bounds.
Qed.

Lemma cond_Zopp_mul s a b : cond_Zopp s (a * b) = cond_Zopp s a * b.
Proof. destruct s; cbn [cond_Zopp]; ring. Qed.

Lemma ceil_Z_spec s m e K :
  0 <= K -> 0 <= e + K ->
  ∃ c, ceil_Z (S754_finite s m e) = Some c ∧
       (c - 1) * 2 ^ K < sval K (S754_finite s m e) <= c * 2 ^ K.
Proof.
  intros HK HeK. unfold ceil_Z, sval.
  rewrite !cond_Zopp_mul.
  set (v := cond_Zopp s (Zpos m)).
  assert (0 < 2 ^ (e + K)) by (apply Z.pow_pos_nonneg; lia).
  destruct (Z.leb_spec 0 e) as [He|He]; eexists; split; [reflexivity| |reflexivity|].
  - assert (2 ^ (e + K) = 2 ^ e * 2 ^ K) as -> by (apply Z.pow_add_r; lia).
    assert (0 < 2 ^ K) by (apply Z.pow_pos_nonneg; lia). nia.
  - assert (2 ^ K = 2 ^ (- e) * 2 ^ (e + K)) as -> by (rewrite <- Z.pow_add_r by lia; f_equal; lia).
    assert (0 < 2 ^ (- e)) by (apply Z.pow_pos_nonneg; lia).
    pose proof (Z.div_mod (- v) (2 ^ (- e)) ltac:(lia)).
    pose proof (Z.mod_pos_bound (- v) (2 ^ (- e)) ltac:(lia)). nia.
Qed.

(** ** The two expressions with [0.1] *)

(** [q < i * 0.1] is [10 q < i] for integers [0 <= i < 2^53] and
    [|q| < 2^53]. *)
Lemma lt_tenth (q i : Z) :
  0 <= i < 2 ^ 53 -> Z.abs q < 2 ^ 53 ->
  lt (of_Z q) (mul (of_Z i) tenth) = (10 * q <? i).
Proof.
  unfold lt, mul. intros Hi Hq. destruct (of_Z_spec q Hq) as [Hnq Hvq].
  assert (0 < 2 ^ 108) by (apply Z.pow_pos_nonneg; lia).
  destruct (Z.eq_dec i 0) as [->|Hi0].
  - change (SFmul 53 1024 (of_Z 0) tenth) with (S754_zero false).
    rewrite (ltb_sval 108) by done. rewrite Hvq. simpl sval.
    apply Bool.eq_iff_eq_true. rewrite !Z.ltb_lt. nia.
  - destruct (times_tenth_spec i) as (m & e & -> & Hm & He & Hb); [lia|].
    rewrite (ltb_sval 108 _ _ Hnq) by (simpl; lia). rewrite Hvq. unfold sval; cbn [cond_Zopp].
    pose proof (ceil_div_bounds i).
    apply Bool.eq_iff_eq_true. rewrite !Z.ltb_lt. split; intros; nia.
Qed.

(** [Math.ceil(i * 0.1)] is the ceiling of [i / 10] for [0 <= i < 2^53]. *)
Lemma ceil_tenth (i : Z) :
  0 <= i < 2 ^ 53 -> ceil_Z (mul (of_Z i) tenth) = Some (- ((- i) / 10)).
Proof.
  unfold mul. intros Hi. destruct (Z.eq_dec i 0) as [->|Hi0]; [reflexivity|].
  destruct (times_tenth_spec i) as (m & e & -> & Hm & He & Hb); [lia|].
  destruct (ceil_Z_spec false m e 108) as (c & -> & Hc); [lia|lia|].
  unfold sval in Hc; cbn [cond_Zopp] in Hc.
  assert (0 < 2 ^ 108) by (apply Z.pow_pos_nonneg; lia).
  f_equal. nia.
Qed.

(** The integer forms hold only for a nonnegative initial quantity:
    for [i = -7000000000000009] the product [i * 0.1] rounds to the
    integer [-700000000000001], so [q < i * 0.1] is false at
    [q = -700000000000001] although [10 q < i], and [Math.ceil(i * 0.1)]
    is [-700000000000001], not the ceiling [-700000000000000] of [i/10]. *)
Example negative_initial_rounds :
  lt (of_Z (-700000000000001)) (mul (of_Z (-7000000000000009)) tenth) = false ∧
  (10 * -700000000000001 <? -7000000000000009) = true ∧
  ceil_Z (mul (of_Z (-7000000000000009)) tenth) = Some (-700000000000001) ∧
  - ((- -7000000000000009) / 10) = -700000000000000.
Proof. vm_compute. repeat split. Qed.

End Double.
