(* ===== verification/JsString.v ===== *)
(** The string built-ins that src/App.jsx calls: [toLowerCase] and
    [includes] (lines 97-98), the leading-whitespace trim that starts
    [parseInt] (lines 105, 114), and HTML's strip-and-collapse of ASCII
    whitespace that gives an [<option>] its value (lines 195, 203).  A string is the Coq [string] of its
    UTF-8 bytes.  [toLowerCase] is modelled on ASCII letters: JavaScript
    also lowers non-ASCII letters, which the model leaves unchanged.
    [includes] on UTF-8 bytes agrees with [includes] on UTF-16 code units
    for well-formed text, since UTF-8 is self-synchronising. *)

From S2P Require Import Prelude.
From Stdlib Require Import Ascii.

Module JsString.

Definition code (c : ascii) : Z := Z.of_nat (nat_of_ascii c).

Definition is_upper (c : ascii) : bool := ((65 <=? code c) && (code c <=? 90))%Z.

Definition lower_char (c : ascii) : ascii :=
  if is_upper c then ascii_of_nat (nat_of_ascii c + 32) else c.

(** [String.prototype.toLowerCase] *)
Fixpoint toLowerCase (s : string) : string :=
  match s with
  | EmptyString => EmptyString
  | String c r => String (lower_char c) (toLowerCase r)
  end.

(** [s.startsWith(p)]: [p] is a prefix of [s]. *)
Fixpoint startsWith (s p : string) : bool :=
  match p, s with
  | EmptyString, _ => true
  | String c p', String d s' => bool_decide (c = d) && startsWith s' p'
  | String _ _, EmptyString => false
  end.

(** [String.prototype.includes]: [p] occurs in [s] at some index
    [0 <= k <= length s]. *)
Fixpoint includes (s p : string) : bool :=
  match s with
  | EmptyString => startsWith EmptyString p
  | String _ s' => startsWith s p || includes s' p
  end.

(** The ASCII part of StrWhiteSpaceChar: TAB, LF, VT, FF, CR and SPACE. *)
Definition is_space (c : ascii) : bool :=
  ((9 <=? code c) && (code c <=? 13) || (code c =? 32))%Z.

(** [TrimString(s, start)] *)
Fixpoint trim_start (s : string) : string :=
  match s with
  | EmptyString => EmptyString
  | String c r => if is_space c then trim_start r else s
  end.

(** HTML's ASCII whitespace: TAB, LF, FF, CR and SPACE (not VT). *)
Definition is_html_space (c : ascii) : bool :=
  ((code c =? 9) || (code c =? 10) || (code c =? 12) || (code c =? 13) || (code c =? 32))%Z.

(** The runs of characters between ASCII whitespace; [cur] is the run
    read so far. *)
Fixpoint html_words (cur s : string) : list string :=
  match s with
  | EmptyString => if String.eqb cur "" then [] else [cur]
  | String c r =>
      if is_html_space c then (if String.eqb cur "" then [] else [cur]) ++ html_words "" r
      else html_words (cur +:+ String c EmptyString) r
  end.

(** "Strip and collapse ASCII whitespace" of HTML: the [text] of an
    [<option>], and so its [value] when it has no [value] attribute. *)
Definition strip_collapse (s : string) : string := String.concat " " (html_words "" s).

(** ** Lemmas *)

Example strip_collapse_examples :
  strip_collapse " Gudang  A " = "Gudang A" ∧ strip_collapse "Gudang A" = "Gudang A" ∧
  strip_collapse "   " = "".
Proof. split_and!; reflexivity. Qed.

Lemma startsWith_spec s p : startsWith s p = true ↔ ∃ r, s = p +:+ r.
Proof.
  revert s. induction p as [|c p IH]; intros [|d s]; simpl.
  - split; [by exists ""|done].
  - split; [by exists (String d s)|done].
  - split; [done|]. by intros [r ?].
  - rewrite andb_true_iff, bool_decide_eq_true, IH. split.
    + intros [-> [r ->]]. by exists r.
    + intros [r Hr]. simpl in Hr. injection Hr as -> ->. split; [done|by exists r].
Qed.

(** [includes] finds exactly the substrings. *)
Lemma includes_spec s p : includes s p = true ↔ ∃ a b, s = a +:+ p +:+ b.
Proof.
  induction s as [|c s IH]; cbn [includes].
  - rewrite startsWith_spec. split.
    + intros [r Hr]. exists "", r. done.
    + intros [[|??] [b Hb]]; [|done]. by exists b.
  - rewrite orb_true_iff, startsWith_spec, IH. split.
    + intros [[r Hr]|[a [b ->]]].
      * by exists "", r.
      * by exists (String c a), b.
    + intros [[|d a] [b Hab]]; simpl in Hab.
      * left. by exists b.
      * right. injection Hab as _ ->. eauto.
Qed.

Lemma includes_empty s : includes s "" = true.
Proof. destruct s; simpl; [done|]. done. Qed.

#[export] Hint Resolve includes_empty : inventory.

Lemma string_app_cons c s t : String c s +:+ t = String c (s +:+ t).
Proof. reflexivity. Qed.

Lemma string_app_nil_r s : s +:+ "" = s.
Proof. induction s as [|c s IH]; [done|]. by rewrite string_app_cons, IH. Qed.

Lemma string_app_assoc s t u : (s +:+ t) +:+ u = s +:+ (t +:+ u).
Proof. induction s as [|c s IH]; [done|]. by rewrite !string_app_cons, IH. Qed.

Lemma lower_char_idem c : lower_char (lower_char c) = lower_char c.
Proof. destruct c as [[] [] [] [] [] [] [] []]; reflexivity. Qed.

Lemma toLowerCase_idem s : toLowerCase (toLowerCase s) = toLowerCase s.
Proof. induction s as [|c s IH]; simpl; [done|]. by rewrite lower_char_idem, IH. Qed.

Lemma toLowerCase_app s t : toLowerCase (s +:+ t) = toLowerCase s +:+ toLowerCase t.
Proof. induction s as [|c s IH]; [done|]. by rewrite string_app_cons; simpl; rewrite IH. Qed.

Lemma trim_start_no_space c r :
  is_space c = false → trim_start (String c r) = String c r.
Proof. simpl. by intros ->. Qed.

End JsString.
