(* ===== verification/ParseInt.v ===== *)
(** [parseInt(prompt(...))] and the quantity guard of the stock handlers
    (src/App.jsx lines 105-106 and 114-115).  [parseInt] follows
    ECMAScript's algorithm with an undefined radix: trim leading white
    space, read one sign, strip a [0x]/[0X] prefix (radix 16, else 10),
    take the longest prefix of radix digits, NaN if it is empty.  The value
    is the exact integer; JavaScript rounds it to a double, which the model
    does not follow beyond 2^53.  A negative zero is the integer 0: the
    guard rejects both. *)

From S2P Require Import Prelude JsString.
From stdpp Require Import pretty.
From Stdlib Require Import Ascii.

Module ParseInt.
Import JsString.

(** The value of a character as a digit of radix up to 36. *)
Definition digit_value (c : ascii) : option Z :=
  let n := code c in
  if ((48 <=? n) && (n <=? 57))%Z then Some (n - 48)%Z
  else if ((97 <=? n) && (n <=? 122))%Z then Some (n - 87)%Z
  else if ((65 <=? n) && (n <=? 90))%Z then Some (n - 55)%Z
  else None.

Definition radix_digit (R : Z) (c : ascii) : option Z :=
  match digit_value c with
  | Some d => if (d <? R)%Z then Some d else None
  | None => None
  end.

(** The longest prefix of [s] made of radix-[R] digits, as digit values. *)
Fixpoint digit_prefix (R : Z) (s : string) : list Z :=
  match s with
  | EmptyString => []
  | String c r =>
      match radix_digit R c with
      | Some d => d :: digit_prefix R r
      | None => []
      end
  end.

(** The mathematical value of a digit sequence, most significant first. *)
Definition horner (R : Z) (ds : list Z) : Z :=
  fold_left (λ acc d, acc * R + d)%Z ds 0%Z.

(** Steps 4-5 of parseInt: a leading [-] sets the sign, a leading [+]
    or [-] is removed. *)
Definition read_sign (s : string) : Z * string :=
  match s with
  | String c r =>
      if bool_decide (c = "-"%char) then (-1, r)%Z
      else if bool_decide (c = "+"%char) then (1, r)%Z
      else (1, s)%Z
  | EmptyString => (1, s)%Z
  end.

(** Steps 6-10 with radix undefined: a [0x] / [0X] prefix selects 16. *)
Definition read_radix (s : string) : Z * string :=
  match s with
  | String c (String x r) =>
      if bool_decide (c = "0"%char) &&
         (bool_decide (x = "x"%char) || bool_decide (x = "X"%char))
      then (16, r)%Z else (10, s)%Z
  | _ => (10, s)%Z
  end.

(** [parseInt(string)] *)
Definition parseInt (input : string) : jsnum :=
  let '(sign, s) := read_sign (trim_start input) in
  let '(R, s) := read_radix s in
  match digit_prefix R s with
  | [] => None
  | ds => Some (sign * horner R ds)%Z
  end.

(** [prompt] returns the typed string or [null]; [parseInt] first applies
    ToString, and ToString(null) is ["null"]. *)
Definition prompt_to_string (answer : option string) : string :=
  match answer with Some s => s | None => "null" end.

(** The quantity read by lines 105 and 114. *)
Definition read_qty (answer : option string) : jsnum :=
  parseInt (prompt_to_string answer).

(** The guard [!qty || qty <= 0] of lines 106 and 115. *)
Definition qty_invalid (qty : jsnum) : bool :=
  (js_falsy qty || (qty <=ⱼ Some 0%Z))%js.

(** A string made only of decimal digits. *)
Fixpoint all_digits (s : string) : bool :=
  match s with
  | EmptyString => true
  | String c r => match radix_digit 10 c with Some _ => all_digits r | None => false end
  end.

(** ** Lemmas *)

Lemma horner_app R ds es :
  horner R (ds ++ es) = (horner R ds * R ^ Z.of_nat (length es) + horner R es)%Z.
Proof.
  unfold horner. rewrite fold_left_app. generalize (fold_left (λ acc d, acc * R + d)%Z ds 0%Z).
  induction es as [|e es IH]; intros a; simpl; [lia|].
  rewrite IH, (IH (0 * R + e)%Z), Nat2Z.inj_succ, Z.pow_succ_r by lia. lia.
Qed.

Lemma radix_digit_10 c d :
  radix_digit 10 c = Some d → code c = (48 + d)%Z ∧ (0 ≤ d < 10)%Z.
Proof. unfold radix_digit, digit_value. intros H. js_cases; simplify_eq; lia. Qed.

Lemma radix_digit_char d :
  (d < 10)%N → radix_digit 10 (pretty_N_char d) = Some (Z.of_N d).
Proof.
  intros Hd.
  assert (d = 0 ∨ d = 1 ∨ d = 2 ∨ d = 3 ∨ d = 4 ∨ d = 5 ∨ d = 6 ∨ d = 7 ∨ d = 8 ∨ d = 9)%N
    as Hcases by lia.
  by repeat destruct Hcases as [->|Hcases]; [..|subst].
Qed.

Lemma digit_not_space c d : radix_digit 10 c = Some d → is_space c = false.
Proof. intros [Hc ?]%radix_digit_10. unfold is_space. rewrite Hc. js_cases; done || lia. Qed.

Lemma digit_prefix_app t u :
  all_digits t = true → digit_prefix 10 (t +:+ u) = digit_prefix 10 t ++ digit_prefix 10 u.
Proof.
  induction t as [|c t IH]; simpl; [done|].
  destruct (radix_digit 10 c); [|done]. intros Ht. by rewrite IH.
Qed.

(** A digit string never starts a hex prefix unless it is ["0"] itself
    followed by an [x]. *)
Lemma read_radix_digits t u :
  all_digits t = true → t ≠ "" → (t = "0" → u = "") → read_radix (t +:+ u) = (10%Z, t +:+ u).
Proof.
  destruct t as [|c [|d t]]; simpl; [done| |].
  - destruct u as [|x u]; [done|]. intros _ _ Hu.
    case_bool_decide; [subst; by specialize (Hu eq_refl)|done].
  - destruct (radix_digit 10 c); [|done].
    destruct (radix_digit 10 d) eqn:Hd; [|done]. intros _ _ _.
    repeat case_bool_decide; simpl; subst; done.
Qed.

Lemma parse_digits t u :
  all_digits t = true → t ≠ "" → (t = "0" → u = "") → digit_prefix 10 u = [] →
  (parseInt (t +:+ u) = Some (horner 10 (digit_prefix 10 t)) ∧
   parseInt ("-" +:+ t +:+ u) = Some (- horner 10 (digit_prefix 10 t))%Z).
Proof.
  intros Ht Hne H0 Hu.
  assert (read_radix (t +:+ u) = (10%Z, t +:+ u)) as Hr by by apply read_radix_digits.
  assert (digit_prefix 10 (t +:+ u) = digit_prefix 10 t) as Hdp
    by by rewrite digit_prefix_app, Hu, app_nil_r.
  destruct t as [|c t]; [done|]. simpl in Ht.
  destruct (radix_digit 10 c) as [d|] eqn:Hc; [|done].
  rewrite !string_app_cons in Hr, Hdp |- *.
  assert (c ≠ "-"%char) by (intros ->; done).
  assert (c ≠ "+"%char) by (intros ->; done).
  split; unfold parseInt.
  - rewrite trim_start_no_space by apply (digit_not_space c d Hc).
    unfold read_sign. rewrite !bool_decide_eq_false_2 by done.
    lazy beta iota. rewrite Hr. lazy beta iota. rewrite Hdp. simpl. rewrite Hc. f_equal; lia.
  - change ("-" +:+ ?x) with (String "-" x).
    rewrite trim_start_no_space by reflexivity.
    unfold read_sign. rewrite bool_decide_eq_true_2 by done.
    lazy beta iota. rewrite Hr. lazy beta iota. rewrite Hdp. simpl. rewrite Hc. f_equal; lia.
Qed.

(** The decimal printing of [x] in front of [s] adds the value of [x]
    above the digits of [s]. *)
Lemma horner_pretty_go x s :
  horner 10 (digit_prefix 10 (pretty_N_go x s)) =
  (Z.of_N x * 10 ^ Z.of_nat (length (digit_prefix 10 s)) + horner 10 (digit_prefix 10 s))%Z.
Proof.
  revert s. induction (N.lt_wf_0 x) as [x _ IH]; intros s.
  destruct (decide (x = 0)%N) as [->|Hx]; [rewrite pretty_N_go_0; lia|].
  rewrite pretty_N_go_step, IH by (try apply N.div_lt; lia). simpl.
  rewrite radix_digit_char by (apply N.mod_lt; lia).
  change (Z.of_N (x `mod` 10) :: digit_prefix 10 s) with ([Z.of_N (x `mod` 10)] ++ digit_prefix 10 s).
  rewrite horner_app, length_app. cbn [length plus].
  rewrite Nat2Z.inj_succ, Z.pow_succ_r by lia.
  assert (horner 10 [Z.of_N (x `mod` 10)] = Z.of_N (x `mod` 10)) as -> by done.
  assert (Z.of_N x = 10 * Z.of_N (x `div` 10) + Z.of_N (x `mod` 10))%Z as ->
    by (pose proof (N.div_mod x 10); lia).
  ring.
Qed.

Lemma all_digits_pretty_go x s : all_digits s = true → all_digits (pretty_N_go x s) = true.
Proof.
  revert s. induction (N.lt_wf_0 x) as [x _ IH]; intros s Hs.
  destruct (decide (x = 0)%N) as [->|Hx]; [by rewrite pretty_N_go_0|].
  rewrite pretty_N_go_step by lia. apply IH; [apply N.div_lt; lia|].
  simpl. by rewrite radix_digit_char by (apply N.mod_lt; lia).
Qed.

Lemma pretty_pos_digits p :
  let t := pretty_N_go (Npos p) "" in
  all_digits t = true ∧ t ≠ "" ∧ t ≠ "0" ∧ horner 10 (digit_prefix 10 t) = Zpos p.
Proof.
  simpl. pose proof (horner_pretty_go (Npos p) "") as Hh. simpl in Hh.
  rewrite Z.mul_1_r, Z.add_0_r in Hh.
  split_and!; [by apply all_digits_pretty_go| |by apply pretty_N_go_ne_0|done].
  intros Hnil. rewrite Hnil in Hh. done.
Qed.

Lemma pretty_Z_parse z rest :
  (z = 0%Z → rest = "") → digit_prefix 10 rest = [] → parseInt (pretty z +:+ rest) = Some z.
Proof.
  intros H0 Hrest. destruct z as [|p|p].
  - by rewrite H0.
  - destruct (pretty_pos_digits p) as (Ht & Hne & Hn0 & Hh).
    change (pretty (Zpos p)) with (pretty_N_go (Npos p) "").
    rewrite (proj1 (parse_digits _ rest Ht Hne (λ H, False_rect _ (Hn0 H)) Hrest)). by rewrite Hh.
  - destruct (pretty_pos_digits p) as (Ht & Hne & Hn0 & Hh).
    change (pretty (Zneg p)) with ("-" +:+ pretty_N_go (Npos p) "").
    rewrite string_app_assoc.
    rewrite (proj2 (parse_digits _ rest Ht Hne (λ H, False_rect _ (Hn0 H)) Hrest)). by rewrite Hh.
Qed.

Lemma qty_invalid_false_inv qty : qty_invalid qty = false → ∃ q, qty = Some q ∧ (0 < q)%Z.
Proof.
  unfold qty_invalid, js_falsy, js_le. destruct qty as [q|]; simpl; [|done].
  js_cases; intros Hf; try discriminate. eexists; split; [done|lia].
Qed.

Lemma qty_invalid_positive q : (0 < q)%Z → qty_invalid (Some q) = false.
Proof. intros Hq. unfold qty_invalid, js_falsy, js_le. simpl. js_cases; done || lia. Qed.

(** ** Properties *)

(** C13: [parseInt] accepts a numeric prefix: text that starts with the
    decimal digits of a non-zero integer and continues with anything that
    is not a decimal digit (["12abc"], ["1.5"], ["3e2"], ["7 pcs"]) is read
    as that integer, not rejected as non-numeric. *)
Theorem parseInt_numeric_prefix (z : Z) (rest : string) :
  z ≠ 0%Z → digit_prefix 10 rest = [] → parseInt (pretty z +:+ rest) = Some z.
Proof. intros Hz Hrest. apply pretty_Z_parse; [done|done]. Qed.

Lemma parseInt_numeric_prefix_witness :
  parseInt ("12" +:+ ".5kg") = Some 12%Z.
Proof. apply (parseInt_numeric_prefix 12 ".5kg"); [lia|reflexivity]. Defined.

(** C14: The guard of lines 106 and 115 lets a quantity through exactly
    when [parseInt] read a positive integer: NaN (a cancelled prompt,
    empty or non-numeric text), zero and negative numbers are rejected. *)
Theorem qty_invalid_spec (qty : jsnum) :
  qty_invalid qty = false ↔ ∃ q, qty = Some q ∧ (0 < q)%Z.
Proof.
  split; [apply qty_invalid_false_inv|]. intros (q & -> & Hq). by apply qty_invalid_positive.
Qed.

Example parseInt_examples :
  parseInt "  42" = Some 42%Z ∧ parseInt "0x1A" = Some 26%Z ∧ parseInt "-7" = Some (-7)%Z ∧
  parseInt "1e3" = Some 1%Z ∧ parseInt "abc" = None ∧ parseInt "" = None ∧
  read_qty None = None ∧ parseInt "0x" = None.
Proof. split_and!; reflexivity. Qed.

End ParseInt.
