(* ===== verification/Json.v ===== *)
(** The text layer of [localStorage] (src/App.jsx lines 11-13 and 85):
    [JSON.stringify] of the inventory array and [JSON.parse] of the stored
    text, after ECMAScript's SerializeJSONProperty / QuoteJSONString and
    the JSON grammar of [JSON.parse].  Values are the [json] tree; numbers
    are integers ([Z]); strings are the bytes of their UTF-8 encoding.
    The parser is a fuelled recursive descent; the fuel [S (length s)] is
    enough for every text (termination), the result does not depend on a
    larger fuel, and the parser reads back every printed value (round
    trip). *)

From S2P Require Import Prelude JsString ParseInt.
From stdpp Require Import pretty.
From Stdlib Require Import Ascii.

Module Json.
Import JsString ParseInt.

#[local] Arguments String.append _ _ : simpl nomatch.

(** A JSON value as [JSON.parse] builds it: objects keep their members in
    text order. *)
#[warnings="-register-all"]
Inductive json :=
| JNull
| JBool (b : bool)
| JNum (z : Z)
| JStr (s : string)
| JArr (l : list json)
| JObj (kvs : list (string * json)).

(** Induction with the hypotheses on the elements of arrays and the
    values of objects. *)
Section json_ind'.
Context (P : json → Prop)
  (Pnull : P JNull) (Pbool : ∀ b, P (JBool b)) (Pnum : ∀ z, P (JNum z))
  (Pstr : ∀ s, P (JStr s))
  (Parr : ∀ l, Forall P l → P (JArr l))
  (Pobj : ∀ kvs, Forall (λ kv, P kv.2) kvs → P (JObj kvs)).

Fixpoint json_ind' (j : json) : P j :=
  match j with
  | JNull => Pnull
  | JBool b => Pbool b
  | JNum z => Pnum z
  | JStr s => Pstr s
  | JArr l => Parr l ((fix go (l : list json) : Forall P l :=
                 match l with
                 | [] => Forall_nil_2 _
                 | x :: l' => Forall_cons_2 _ _ _ (json_ind' x) (go l')
                 end) l)
  | JObj kvs => Pobj kvs ((fix go (kvs : list (string * json)) : Forall (λ kv, P kv.2) kvs :=
                 match kvs with
                 | [] => Forall_nil_2 _
                 | kv :: kvs' => Forall_cons_2 _ _ _ (json_ind' kv.2) (go kvs')
                 end) kvs)
  end.
End json_ind'.

Definition dq : ascii := "034"%char.
Definition bs : ascii := "092"%char.

(** ** [JSON.stringify] *)

Definition hex_char (n : N) : ascii :=
  if (n <? 10)%N then ascii_of_N (48 + n) else ascii_of_N (87 + n).

(** QuoteJSONString, one code unit: the short escapes of table 73, a
    lower-case [\u00XX] for the other control characters, the character
    itself otherwise.  The text goes in front of [t]. *)
Definition escape_to (c : ascii) (t : string) : string :=
  let n := N_of_ascii c in
  if (n =? 8)%N then String bs (String "b" t)
  else if (n =? 9)%N then String bs (String "t" t)
  else if (n =? 10)%N then String bs (String "n" t)
  else if (n =? 12)%N then String bs (String "f" t)
  else if (n =? 13)%N then String bs (String "r" t)
  else if (n =? 34)%N then String bs (String dq t)
  else if (n =? 92)%N then String bs (String bs t)
  else if (n <? 32)%N then
    String bs (String "u" (String "0" (String "0"
      (String (hex_char (n / 16)) (String (hex_char (n mod 16)) t)))))
  else String c t.

(** The quoted body of [s] and the closing quote, in front of [t]. *)
Fixpoint quote_to (s t : string) : string :=
  match s with
  | EmptyString => String dq t
  | String c s' => escape_to c (quote_to s' t)
  end.

Definition quote (s t : string) : string := String dq (quote_to s t).

(** The elements after the first one of an array, each after a [","],
    and the closing bracket, in front of [t] (SerializeJSONArray). *)
Definition join_to (f : json → string → string) (t : string) : list json → string :=
  fix go (l : list json) : string :=
    match l with
    | [] => String "]" t
    | y :: l' => String "," (f y (go l'))
    end.

(** A member [quote(key) ":" value] of an object (SerializeJSONObject). *)
Definition member_to (f : json → string → string) (kv : string * json) (t : string) : string :=
  quote kv.1 (String ":" (f kv.2 t)).

Definition join_members_to (f : json → string → string) (t : string)
    : list (string * json) → string :=
  fix go (kvs : list (string * json)) : string :=
    match kvs with
    | [] => String "}" t
    | kv :: kvs' => String "," (member_to f kv (go kvs'))
    end.

(** SerializeJSONProperty on a value, in front of [t]: arrays and objects
    without a gap, their elements joined by [","]; numbers by
    Number::toString, which prints an integer in decimal. *)
Fixpoint stringify_to (j : json) (t : string) : string :=
  match j with
  | JNull => "null" +:+ t
  | JBool true => "true" +:+ t
  | JBool false => "false" +:+ t
  | JNum z => pretty z +:+ t
  | JStr s => quote s t
  | JArr [] => String "[" (String "]" t)
  | JArr (x :: l) => String "[" (stringify_to x (join_to stringify_to t l))
  | JObj [] => String "{" (String "}" t)
  | JObj (kv :: kvs) => String "{" (member_to stringify_to kv (join_members_to stringify_to t kvs))
  end.

(** [JSON.stringify(value)] *)
Definition stringify (j : json) : string := stringify_to j "".

(** ** [JSON.parse] *)

(** The white space of the JSON grammar: tab, line feed, carriage
    return, space. *)
Definition is_json_ws (c : ascii) : bool :=
  match c with
  | "009"%char | "010"%char | "013"%char | " "%char => true
  | _ => false
  end.

Fixpoint skip_ws (s : string) : string :=
  match s with
  | String c r => if is_json_ws c then skip_ws r else s
  | EmptyString => EmptyString
  end.

(** The result of a parser: a value and the text after it, a
    SyntaxError, a text that reaches a value outside the model (a number
    that is not an integer, a lone surrogate) before any SyntaxError, or
    out of fuel.  The parser stops at the first value outside the model:
    whether the text after it is well formed is not examined. *)
Inductive presult (A : Type) :=
| POk (a : A) (rest : string)
| PErr
| POut
| PFuel.
Arguments POk {A} a rest.
Arguments PErr {A}.
Arguments POut {A}.
Arguments PFuel {A}.

Definition pbind {A B} (r : presult A) (k : A → string → presult B) : presult B :=
  match r with
  | POk a s => k a s
  | PErr => PErr
  | POut => POut
  | PFuel => PFuel
  end.

(** The states of the string scanner: plain text, after a backslash,
    inside the four hex digits of a [\u] escape (with the high surrogate
    that precedes it, if any), after a high surrogate. *)
Inductive sstate :=
| SNorm
| SEsc
| SHex (k : nat) (acc : Z) (hi : option Z)
| SHi (h : Z)
| SHiEsc (h : Z).

Definition short_escape (c : ascii) : option ascii :=
  match c with
  | "034"%char => Some dq
  | "092"%char => Some bs
  | "/"%char => Some "/"%char
  | "b"%char => Some "008"%char
  | "f"%char => Some "012"%char
  | "n"%char => Some "010"%char
  | "r"%char => Some "013"%char
  | "t"%char => Some "009"%char
  | _ => None
  end.

Definition hex_value (c : ascii) : option Z := radix_digit 16 c.

Definition is_high (u : Z) : bool := (55296 <=? u)%Z && (u <=? 56319)%Z.
Definition is_low (u : Z) : bool := (56320 <=? u)%Z && (u <=? 57343)%Z.

(** UTF-8 bytes of a code point. *)
Definition byte (z : Z) : ascii := ascii_of_N (Z.to_N z).

Definition utf8 (cp : Z) : string :=
  if (cp <? 128)%Z then String (byte cp) ""
  else if (cp <? 2048)%Z then
    String (byte (192 + cp / 64)) (String (byte (128 + cp mod 64)) "")
  else if (cp <? 65536)%Z then
    String (byte (224 + cp / 4096)) (String (byte (128 + (cp / 64) mod 64))
      (String (byte (128 + cp mod 64)) ""))
  else
    String (byte (240 + cp / 262144)) (String (byte (128 + (cp / 4096) mod 64))
      (String (byte (128 + (cp / 64) mod 64)) (String (byte (128 + cp mod 64)) ""))).

Definition prepend (u : string) (o : presult string) : presult string :=
  pbind o (λ x r, POk (u +:+ x) r).

(** The body of a string literal after its opening quote: the decoded
    bytes and the text after the closing quote.  A raw control character
    or a malformed escape is a SyntaxError.  A lone surrogate is valid
    JSON but has no UTF-8 form: the string is outside the model. *)
Fixpoint p_string (q : sstate) (s : string) : presult string :=
  match s with
  | EmptyString => PErr
  | String c r =>
      match q with
      | SNorm =>
          if Ascii.eqb c dq then POk EmptyString r
          else if Ascii.eqb c bs then p_string SEsc r
          else if (N_of_ascii c <? 32)%N then PErr
          else prepend (String c EmptyString) (p_string SNorm r)
      | SEsc =>
          match short_escape c with
          | Some d => prepend (String d EmptyString) (p_string SNorm r)
          | None => if Ascii.eqb c "u" then p_string (SHex 4 0 None) r else PErr
          end
      | SHex k acc hi =>
          match hex_value c with
          | None => PErr
          | Some d =>
              let u := (acc * 16 + d)%Z in
              match k with
              | 1 =>
                  match hi with
                  | None =>
                      if is_high u then p_string (SHi u) r
                      else if is_low u then POut
                      else prepend (utf8 u) (p_string SNorm r)
                  | Some h =>
                      if is_low u
                      then prepend (utf8 (65536 + (h - 55296) * 1024 + (u - 56320))) (p_string SNorm r)
                      else POut
                  end
              | S k' => p_string (SHex k' u hi) r
              | O => PErr
              end
          end
      | SHi h =>
          if Ascii.eqb c bs then p_string (SHiEsc h) r
          else if (N_of_ascii c <? 32)%N then PErr else POut
      | SHiEsc h =>
          if Ascii.eqb c "u" then p_string (SHex 4 0 (Some h)) r
          else match short_escape c with Some _ => POut | None => PErr end
      end
  end.

(** Numbers: [-]? ([0] | [1-9] digits) ([.] digits)? ([eE] [+-]? digits)?.
    The value is exact; a number that is not an integer is outside the
    integer model. *)
Fixpoint span_digits (s : string) : list Z * string :=
  match s with
  | String c r =>
      match radix_digit 10 c with
      | Some d => let '(ds, r') := span_digits r in (d :: ds, r')
      | None => ([], s)
      end
  | EmptyString => ([], EmptyString)
  end.

Definition p_digits (s : string) : option (list Z * string) :=
  match span_digits s with
  | ([], _) => None
  | (ds, r) => Some (ds, r)
  end.

Definition p_int (s : string) : option (list Z * string) :=
  match s with
  | String c r => if Ascii.eqb c "0" then Some ([0%Z], r) else p_digits s
  | EmptyString => None
  end.

Definition p_frac (s : string) : option (list Z * string) :=
  match s with
  | String c r => if Ascii.eqb c "." then p_digits r else Some ([], s)
  | EmptyString => Some ([], s)
  end.

Definition p_exp (s : string) : option (Z * string) :=
  match s with
  | String c r =>
      if Ascii.eqb c "e" || Ascii.eqb c "E" then
        let '(sg, r1) :=
          match r with
          | String c' r1 =>
              if Ascii.eqb c' "+" then (1%Z, r1)
              else if Ascii.eqb c' "-" then ((-1)%Z, r1) else (1%Z, r)
          | EmptyString => (1%Z, r)
          end in
        match p_digits r1 with
        | Some (ds, r2) => Some ((sg * horner 10 ds)%Z, r2)
        | None => None
        end
      else Some (0%Z, s)
  | EmptyString => Some (0%Z, EmptyString)
  end.

Definition number_value (neg : bool) (ip fp : list Z) (e : Z) : option Z :=
  let m := horner 10 (ip ++ fp) in
  let e' := (e - Z.of_nat (length fp))%Z in
  let v := if (0 <=? e')%Z then Some (m * 10 ^ e')%Z
           else if (m mod 10 ^ (- e') =? 0)%Z then Some (m / 10 ^ (- e'))%Z
           else None in
  if neg then option_map Z.opp v else v.

Definition p_number (s : string) : presult Z :=
  let '(neg, s1) := match s with
                    | String c r => if Ascii.eqb c "-" then (true, r) else (false, s)
                    | EmptyString => (false, s)
                    end in
  match p_int s1 with
  | None => PErr
  | Some (ip, r1) =>
      match p_frac r1 with
      | None => PErr
      | Some (fp, r2) =>
          match p_exp r2 with
          | None => PErr
          | Some (e, r3) =>
              match number_value neg ip fp e with
              | Some z => POk z r3
              | None => POut
              end
          end
      end
  end.

(** The first character of a value decides its kind. *)
Inductive token := TObj | TArr | TStr | TNum | TTrue | TFalse | TNull | TBad.

Definition token_of (c : ascii) : token :=
  match c with
  | "{"%char => TObj
  | "["%char => TArr
  | "034"%char => TStr
  | "-"%char | "0"%char | "1"%char | "2"%char | "3"%char | "4"%char
  | "5"%char | "6"%char | "7"%char | "8"%char | "9"%char => TNum
  | "t"%char => TTrue
  | "f"%char => TFalse
  | "n"%char => TNull
  | _ => TBad
  end.

Fixpoint strip_prefix (p s : string) : option string :=
  match p, s with
  | EmptyString, _ => Some s
  | String a p', String b s' => if Ascii.eqb a b then strip_prefix p' s' else None
  | String _ _, EmptyString => None
  end.

Definition p_keyword (kw : string) (v : json) (s : string) : presult json :=
  match strip_prefix kw s with Some r => POk v r | None => PErr end.

(** After white space, the punctuation [d] and the text after it. *)
Definition closes (d : ascii) (s : string) : option string :=
  match skip_ws s with
  | String c r => if Ascii.eqb c d then Some r else None
  | EmptyString => None
  end.

(** One member [ws string ws : value] of an object, with the parser of
    its value. *)
Definition p_member (pv : string → presult json) (s : string) : presult (string * json) :=
  match closes dq s with
  | Some r =>
      pbind (p_string SNorm r) (λ k r1,
        match closes ":" r1 with
        | Some r2 => pbind (pv r2) (λ v r3, POk (k, v) r3)
        | None => PErr
        end)
  | None => PErr
  end.

(** A value, the rest of an array after an element, the rest of an
    object after a member.  Every call spends one unit of fuel. *)
Fixpoint p_value (n : nat) (s : string) : presult json :=
  match n with
  | O => PFuel
  | S n' =>
      match skip_ws s with
      | EmptyString => PErr
      | String c r =>
          match token_of c with
          | TObj =>
              match closes "}" r with
              | Some r' => POk (JObj []) r'
              | None => pbind (p_member (p_value n') r) (λ kv r1,
                          pbind (p_members n' r1) (λ kvs r2, POk (JObj (kv :: kvs)) r2))
              end
          | TArr =>
              match closes "]" r with
              | Some r' => POk (JArr []) r'
              | None => pbind (p_value n' r) (λ v r1,
                          pbind (p_elems n' r1) (λ vs r2, POk (JArr (v :: vs)) r2))
              end
          | TStr => pbind (p_string SNorm r) (λ str r1, POk (JStr str) r1)
          | TNum => pbind (p_number (String c r)) (λ z r1, POk (JNum z) r1)
          | TTrue => p_keyword "true" (JBool true) (String c r)
          | TFalse => p_keyword "false" (JBool false) (String c r)
          | TNull => p_keyword "null" JNull (String c r)
          | TBad => PErr
          end
      end
  end
with p_elems (n : nat) (s : string) : presult (list json) :=
  match n with
  | O => PFuel
  | S n' =>
      match closes "]" s with
      | Some r => POk [] r
      | None =>
          match closes "," s with
          | Some r => pbind (p_value n' r) (λ v r1,
                        pbind (p_elems n' r1) (λ vs r2, POk (v :: vs) r2))
          | None => PErr
          end
      end
  end
with p_members (n : nat) (s : string) : presult (list (string * json)) :=
  match n with
  | O => PFuel
  | S n' =>
      match closes "}" s with
      | Some r => POk [] r
      | None =>
          match closes "," s with
          | Some r => pbind (p_member (p_value n') r) (λ kv r1,
                        pbind (p_members n' r1) (λ kvs r2, POk (kv :: kvs) r2))
          | None => PErr
          end
      end
  end.

(** The fuel of [JSON.parse]: one unit more than the text has
    characters ([parse_total] shows it is enough). *)
Definition parse_fuel (s : string) : nat := S (String.length s).

(** Why a text gives no value of the model: [JSON.parse] throws a
    SyntaxError, or the text reaches a value the model does not
    represent (see [presult]). *)
Inductive perror := SyntaxError | OutsideModel.

(** [JSON.parse(text)]: one value, then only white space. *)
Definition parse (s : string) : json + perror :=
  match p_value (parse_fuel s) s with
  | POk j r => match skip_ws r with EmptyString => inl j | _ => inr SyntaxError end
  | PErr => inr SyntaxError
  | POut | PFuel => inr OutsideModel
  end.

(** The fuel a printed value needs: one unit per value, one per element
    or member, one for the closing bracket. *)
Definition sizes {A} (f : A → nat) : list A → nat :=
  fix go (l : list A) : nat :=
    match l with
    | [] => 0
    | x :: l' => S (f x) + go l'
    end.

Fixpoint jsize (j : json) : nat :=
  match j with
  | JArr l => 2 + sizes jsize l
  | JObj kvs => 2 + sizes (λ kv, jsize kv.2) kvs
  | _ => 1
  end.

(** What may follow a value inside a printed text. *)
Definition delim (s : string) : bool :=
  match s with
  | EmptyString => true
  | String c _ => Ascii.eqb c "," || Ascii.eqb c "]" || Ascii.eqb c "}"
  end.

(** A reference printer that builds the text of each value and joins
    the texts of the elements with [String.concat ","], as the
    specification of SerializeJSONArray and SerializeJSONObject reads. *)
Definition quote_ref (s : string) : string := String dq (quote_to s "").

Fixpoint stringify_ref (j : json) : string :=
  match j with
  | JNull => "null"
  | JBool true => "true"
  | JBool false => "false"
  | JNum z => pretty z
  | JStr s => quote_ref s
  | JArr l => "[" +:+ String.concat "," (map stringify_ref l) +:+ "]"
  | JObj kvs =>
      "{" +:+ String.concat "," (map (λ kv, quote_ref kv.1 +:+ ":" +:+ stringify_ref kv.2) kvs) +:+ "}"
  end.

(** The elements after the first, each after a comma. *)
Definition comma_join (l : list string) : string := foldr (λ y acc, "," +:+ (y +:+ acc)) "" l.

(** The parser reads back the printed text of [j] before any text that
    may follow a value, with the fuel [jsize j] or more. *)
Definition reads_back (j : json) : Prop :=
  ∀ n t, delim t = true → jsize j ≤ n → p_value n (stringify_to j t) = POk j t.

(** ** Lemmas *)

(** *** Strings *)

Lemma p_string_escape c t :
  p_string SNorm (escape_to c t) = prepend (String c EmptyString) (p_string SNorm t).
Proof. destruct c as [[] [] [] [] [] [] [] []]; reflexivity. Qed.

Lemma p_string_quote s t : p_string SNorm (quote_to s t) = POk s t.
Proof. induction s as [|c s IH]; [done|]. simpl. by rewrite p_string_escape, IH. Qed.

(** *** Numbers *)

Lemma delim_cases s :
  delim s = true → s = EmptyString ∨ ∃ c u, s = String c u ∧ (c = ","%char ∨ c = "]"%char ∨ c = "}"%char).
Proof.
  destruct s as [|c u]; [by left|]. simpl. intros H. right. exists c, u. split; [done|].
  repeat (apply orb_prop in H as [H|H]); apply Ascii.eqb_eq in H; auto.
Qed.

Lemma N_lt_10_cases (d : N) :
  (d < 10)%N → d = 0%N ∨ d = 1%N ∨ d = 2%N ∨ d = 3%N ∨ d = 4%N ∨ d = 5%N ∨ d = 6%N ∨ d = 7%N ∨ d = 8%N ∨ d = 9%N.
Proof. lia. Qed.

(** A decimal digit is a number token, not white space, not a sign, and
    is ["0"] only for zero. *)
Lemma digit_char_facts d :
  (d < 10)%N →
  token_of (pretty_N_char d) = TNum ∧ is_json_ws (pretty_N_char d) = false ∧
  Ascii.eqb (pretty_N_char d) "-" = false ∧ (Ascii.eqb (pretty_N_char d) "0" = true ↔ d = 0%N).
Proof.
  intros Hd. pose proof (N_lt_10_cases d Hd) as Hc.
  by repeat destruct Hc as [->|Hc]; [..|subst].
Qed.

Lemma pretty_N_go_head x s :
  x ≠ 0%N → ∃ d u, pretty_N_go x s = String (pretty_N_char d) u ∧ (0 < d < 10)%N.
Proof.
  revert s. induction (N.lt_wf_0 x) as [x _ IH]; intros s Hx.
  rewrite pretty_N_go_step by lia.
  destruct (decide (x `div` 10 = 0)%N) as [H0|H0].
  - rewrite H0, pretty_N_go_0. exists (x `mod` 10)%N, s. split; [done|].
    pose proof (N.div_mod x 10). pose proof (N.mod_lt x 10). lia.
  - apply IH; [apply N.div_lt; lia|done].
Qed.

Lemma span_digits_app t u :
  all_digits t = true → span_digits u = ([], u) → span_digits (t +:+ u) = (digit_prefix 10 t, u).
Proof.
  induction t as [|c t IH]; simpl; [done|].
  destruct (radix_digit 10 c); [|done]. intros Ht Hu. by rewrite IH.
Qed.

Lemma delim_tail rest :
  delim rest = true →
  span_digits rest = ([], rest) ∧ p_frac rest = Some ([], rest) ∧ p_exp rest = Some (0%Z, rest).
Proof. intros [->|(c & u & -> & [->|[->| ->]])]%delim_cases; done. Qed.

(** The digits of a positive number, read back. *)
Lemma p_int_pretty p rest :
  delim rest = true →
  ∃ ds, p_int (pretty_N_go (Npos p) "" +:+ rest) = Some (ds, rest) ∧ number_value false ds [] 0 = Some (Zpos p).
Proof.
  intros Hr. destruct (delim_tail rest Hr) as (Hsp & _ & _).
  destruct (pretty_pos_digits p) as (Ht & Hne & _ & Hh).
  destruct (pretty_N_go_head (Npos p) "") as (d & u & Hu & Hd); [done|].
  destruct (digit_char_facts d) as (_ & _ & _ & H0); [lia|].
  exists (digit_prefix 10 (pretty_N_go (Npos p) "")). split.
  - unfold p_int. rewrite Hu, string_app_cons. lazy beta iota.
    assert (Ascii.eqb (pretty_N_char d) "0" = false) as -> by (apply not_true_iff_false; rewrite H0; lia).
    rewrite <-string_app_cons, <-Hu. unfold p_digits. rewrite span_digits_app by done.
    destruct (digit_prefix 10 _) eqn:E; [|done]. by compute in Hh.
  - unfold number_value. simpl. rewrite app_nil_r, Hh. f_equal. lia.
Qed.

Lemma p_number_pretty z rest :
  delim rest = true → p_number (pretty z +:+ rest) = POk z rest.
Proof.
  intros Hr. destruct (delim_tail rest Hr) as (_ & Hf & He).
  destruct z as [|p|p].
  - by destruct (delim_cases rest Hr) as [->|(c & u & -> & [->|[->| ->]])].
  - destruct (p_int_pretty p rest Hr) as (ds & Hi & Hv).
    destruct (pretty_N_go_head (Npos p) "") as (d & u & Hu & Hd); [done|].
    destruct (digit_char_facts d) as (_ & _ & Hm & _); [lia|].
    change (pretty (Zpos p)) with (pretty_N_go (Npos p) "").
    unfold p_number. rewrite Hu, string_app_cons, Hm, <-string_app_cons, <-Hu.
    cbv beta iota. by rewrite Hi, Hf, He, Hv.
  - destruct (p_int_pretty p rest Hr) as (ds & Hi & Hv).
    change (pretty (Zneg p)) with ("-" +:+ pretty_N_go (Npos p) "").
    rewrite string_app_assoc. unfold p_number. simpl.
    rewrite Hi, Hf, He. change (option_map Z.opp ?v) with (option_map Z.opp (number_value false ds [] 0)).
    by rewrite Hv.
Qed.

(** *** Printed values read back *)

Lemma number_head (z : Z) t :
  ∃ c u, pretty z +:+ t = String c u ∧ is_json_ws c = false ∧ token_of c = TNum.
Proof.
  destruct z as [|p|p]; [by eexists _, _| |by eexists _, _].
  destruct (pretty_N_go_head (Npos p) "") as (d & u & Hu & Hd); [done|].
  destruct (digit_char_facts d) as (Ht & Hw & _); [lia|].
  change (pretty (Zpos p)) with (pretty_N_go (Npos p) "").
  rewrite Hu, string_app_cons. by eexists _, _.
Qed.

Lemma stringify_head j t :
  ∃ c u, stringify_to j t = String c u ∧ is_json_ws c = false ∧ token_of c ≠ TBad.
Proof.
  destruct j as [|[]|z|s|[|x l]|[|kv kvs]]; try by eexists _, _.
  destruct (number_head z t) as (c & u & Hu & Hw & Ht). exists c, u. simpl. by rewrite Hu, Ht.
Qed.

Lemma closes_stringify d j t : token_of d = TBad → closes d (stringify_to j t) = None.
Proof.
  destruct (stringify_head j t) as (c & u & -> & Hw & Ht). unfold closes. simpl. rewrite Hw.
  intros Hd. destruct (Ascii.eqb_spec c d); [by subst|done].
Qed.

Lemma delim_join f t l : delim (join_to f t l) = true.
Proof. by destruct l. Qed.

Lemma delim_join_members f t kvs : delim (join_members_to f t kvs) = true.
Proof. by destruct kvs. Qed.

Lemma jsize_pos j : 1 ≤ jsize j.
Proof. destruct j; simpl; lia. Qed.

Lemma p_member_to kv m t :
  reads_back kv.2 → delim t = true → jsize kv.2 ≤ m →
  p_member (p_value m) (member_to stringify_to kv t) = POk kv t.
Proof.
  intros Hkv Ht Hm. destruct kv as [k v]. unfold p_member, member_to, quote. simpl.
  rewrite p_string_quote. simpl. rewrite Hkv by done. done.
Qed.

Lemma p_elems_join l :
  Forall reads_back l →
  ∀ n t, delim t = true → S (sizes jsize l) ≤ n → p_elems n (join_to stringify_to t l) = POk l t.
Proof.
  induction 1 as [|x l Hx Hl IH]; intros [|n] t Ht Hn; try lia; [done|].
  simpl in Hn. simpl. rewrite Hx by (done || apply delim_join || lia). simpl.
  rewrite IH by (done || lia). done.
Qed.

Lemma p_members_join kvs :
  Forall (λ kv, reads_back kv.2) kvs →
  ∀ n t, delim t = true → S (sizes (λ kv, jsize kv.2) kvs) ≤ n →
  p_members n (join_members_to stringify_to t kvs) = POk kvs t.
Proof.
  induction 1 as [|kv kvs Hkv Hkvs IH]; intros [|n] t Ht Hn; try lia; [done|].
  simpl in Hn. simpl. rewrite p_member_to by (done || apply delim_join_members || lia). simpl.
  rewrite IH by (done || lia). done.
Qed.

Lemma p_value_stringify j : reads_back j.
Proof.
  induction j as [| b | z | s | l IH | kvs IH] using json_ind';
    intros [|n] t Ht Hn; try (simpl in Hn; lia).
  - done.
  - by destruct b.
  - destruct (number_head z t) as (c & u & Hu & Hw & Htok).
    simpl. rewrite Hu. simpl. rewrite Hw, Htok. simpl. rewrite <-Hu, p_number_pretty by done. done.
  - simpl. by rewrite p_string_quote.
  - destruct l as [|x l]; [done|]. inversion IH as [|? ? Hx Hl]; subst. simpl in Hn.
    simpl. rewrite closes_stringify by done.
    rewrite Hx by (apply delim_join || lia). simpl. rewrite p_elems_join by (done || lia). done.
  - destruct kvs as [|kv kvs]; [done|]. inversion IH as [|? ? Hkv Hkvs]; subst. simpl in Hn.
    simpl. rewrite (p_member_to kv n (join_members_to stringify_to t kvs))
      by (done || apply delim_join_members || lia). simpl.
    rewrite p_members_join by (done || lia). done.
Qed.

(** *** Every step consumes text *)

Abbreviation len := String.length.

Lemma skip_ws_length s : len (skip_ws s) ≤ len s.
Proof. induction s as [|c s IH]; simpl; [lia|]. destruct (is_json_ws c); simpl; lia. Qed.

Lemma closes_length d s r : closes d s = Some r → len r < len s.
Proof.
  unfold closes. pose proof (skip_ws_length s).
  destruct (skip_ws s) as [|c u]; [done|]. simpl in *.
  destruct (Ascii.eqb c d); intros; simplify_eq; lia.
Qed.

Lemma prepend_inv u o x r : prepend u o = POk x r → ∃ x', o = POk x' r.
Proof. destruct o; simpl; intros; simplify_eq; eauto. Qed.

Lemma p_string_length q s x r : p_string q s = POk x r → len r < len s.
Proof.
  revert q x. induction s as [|c s IH]; intros q x; [done|]. simpl.
  repeat match goal with
  | |- context [match ?e with _ => _ end] => destruct e
  | |- context [if ?b then _ else _] => destruct b
  end; intros H; simplify_eq/=; try lia;
  try (apply prepend_inv in H as [? H]); try (apply IH in H; lia).
Qed.

Lemma span_digits_length s ds r : span_digits s = (ds, r) → len r ≤ len s ∧ (ds ≠ [] → len r < len s).
Proof.
  revert ds. induction s as [|c s IH]; intros ds; simpl; [intros; simplify_eq; done|].
  destruct (radix_digit 10 c); [|intros; simplify_eq; split; [simpl; lia|done]].
  destruct (span_digits s) as [ds' r'] eqn:E. intros; simplify_eq.
  destruct (IH ds' eq_refl). lia.
Qed.

Lemma p_digits_length s ds r : p_digits s = Some (ds, r) → len r < len s.
Proof.
  unfold p_digits. destruct (span_digits s) as [[|d ds'] r'] eqn:E; [done|].
  intros; simplify_eq. apply span_digits_length in E as [_ H]. by apply H.
Qed.

Lemma p_exp_length s e r : p_exp s = Some (e, r) → len r ≤ len s.
Proof.
  unfold p_exp. destruct s as [|c u]; [intros; simplify_eq; lia|].
  destruct (_ || _); [|intros; simplify_eq; lia].
  destruct u as [|c' u]; simpl;
    [|destruct (Ascii.eqb c' "+"); [|destruct (Ascii.eqb c' "-")]];
    try (destruct (p_digits _) as [[ds r2]|] eqn:E; [|done]); intros; simplify_eq;
    apply p_digits_length in E; simpl in *; lia.
Qed.

Lemma p_number_length s z r : p_number s = POk z r → len r < len s.
Proof.
  unfold p_number.
  assert (∀ s1 r1 ip, p_int s1 = Some (ip, r1) → len r1 < len s1) as Hint.
  { intros [|c u] r1 ip; simpl; [done|].
    destruct (Ascii.eqb c "0"); [intros; simplify_eq; simpl; lia|apply p_digits_length]. }
  assert (∀ s1 r1 fp, p_frac s1 = Some (fp, r1) → len r1 ≤ len s1) as Hfrac.
  { intros [|c u] r1 fp; simpl; [intros; simplify_eq; simpl; lia|].
    destruct (Ascii.eqb c "."); [intros H%p_digits_length; lia|intros; simplify_eq; simpl; lia]. }
  assert (∃ neg s1, (match s with String c r => if Ascii.eqb c "-" then (true, r) else (false, s)
                     | EmptyString => (false, s) end) = (neg, s1) ∧ len s1 ≤ len s) as (neg & s1 & -> & Hs1).
  { destruct s as [|c u]; [by eexists _, _|]. simpl. destruct (Ascii.eqb c "-"); eexists _, _; split; done || simpl; lia. }
  destruct (p_int s1) as [[ip r1]|] eqn:E1; [|done].
  destruct (p_frac r1) as [[fp r2]|] eqn:E2; [|done].
  destruct (p_exp r2) as [[e r3]|] eqn:E3; [|done].
  destruct (number_value _ _ _ _); [|done]. intros; simplify_eq.
  apply Hint in E1. apply Hfrac in E2. apply p_exp_length in E3. lia.
Qed.

Lemma strip_prefix_length p s r : strip_prefix p s = Some r → len r + len p = len s.
Proof.
  revert s. induction p as [|a p IH]; intros [|b s]; simpl; intros; simplify_eq; try lia; try done.
  destruct (Ascii.eqb a b); [|done]. apply IH in H. lia.
Qed.

Lemma pbind_ok {A B} (r : presult A) (k : A → string → presult B) b s :
  pbind r k = POk b s → ∃ a s', r = POk a s' ∧ k a s' = POk b s.
Proof. destruct r; simpl; [eauto|done..]. Qed.

Lemma p_member_length pv s kv r :
  (∀ s' v r', pv s' = POk v r' → len r' < len s') →
  p_member pv s = POk kv r → len r < len s.
Proof.
  intros Hpv. unfold p_member.
  destruct (closes dq s) as [r0|] eqn:E0; [|done].
  intros (k & r1 & E1 & H)%pbind_ok.
  destruct (closes ":" r1) as [r2|] eqn:E2; [|done].
  apply pbind_ok in H as (v & r3 & Hv & H). simplify_eq.
  apply closes_length in E0. apply p_string_length in E1. apply closes_length in E2.
  apply Hpv in Hv. lia.
Qed.

Lemma p_keyword_length kw v s j r : kw ≠ EmptyString → p_keyword kw v s = POk j r → len r < len s.
Proof.
  unfold p_keyword. destruct (strip_prefix kw s) eqn:E; [|done]. intros Hkw ?; simplify_eq.
  apply strip_prefix_length in E. destruct kw; [done|]. simpl in E. lia.
Qed.

(** Each parser consumes at least one character. *)
Lemma p_consume n :
  (∀ s j r, p_value n s = POk j r → len r < len s) ∧
  (∀ s l r, p_elems n s = POk l r → len r < len s) ∧
  (∀ s l r, p_members n s = POk l r → len r < len s).
Proof.
  induction n as [|n (IHv & IHe & IHm)]; [done|]. split_and!.
  - intros s j r. simpl. pose proof (skip_ws_length s).
    destruct (skip_ws s) as [|c u]; [done|]. simpl in *.
    destruct (token_of c).
    + destruct (closes "}" u) eqn:E; [intros; simplify_eq; apply closes_length in E; lia|].
      intros (kv & r1 & H1 & (kvs & r2 & H2 & H3)%pbind_ok)%pbind_ok. simplify_eq.
      apply p_member_length in H1; [|exact IHv]. apply IHm in H2. lia.
    + destruct (closes "]" u) eqn:E; [intros; simplify_eq; apply closes_length in E; lia|].
      intros (v & r1 & H1 & (vs & r2 & H2 & H3)%pbind_ok)%pbind_ok. simplify_eq.
      apply IHv in H1. apply IHe in H2. lia.
    + intros (str & r1 & H1 & H2)%pbind_ok. simplify_eq.
      apply p_string_length in H1. lia.
    + intros (z & r1 & H1 & H2)%pbind_ok. simplify_eq.
      apply p_number_length in H1. simpl in H1. lia.
    + intros H1%p_keyword_length; [simpl in H1; lia|done].
    + intros H1%p_keyword_length; [simpl in H1; lia|done].
    + intros H1%p_keyword_length; [simpl in H1; lia|done].
    + done.
  - intros s l r. simpl.
    destruct (closes "]" s) eqn:E; [intros; simplify_eq; by apply closes_length in E|].
    destruct (closes "," s) eqn:E2; [|done].
    intros (v & r1 & H1 & (vs & r2 & H2 & H3)%pbind_ok)%pbind_ok. simplify_eq.
    apply closes_length in E2. apply IHv in H1. apply IHe in H2. lia.
  - intros s l r. simpl.
    destruct (closes "}" s) eqn:E; [intros; simplify_eq; by apply closes_length in E|].
    destruct (closes "," s) eqn:E2; [|done].
    intros (kv & r1 & H1 & (kvs & r2 & H2 & H3)%pbind_ok)%pbind_ok. simplify_eq.
    apply closes_length in E2. apply p_member_length in H1; [|exact IHv]. apply IHm in H2. lia.
Qed.

Lemma pbind_total {A B} (r : presult A) (k : A → string → presult B) :
  r ≠ PFuel → (∀ a s, r = POk a s → k a s ≠ PFuel) → pbind r k ≠ PFuel.
Proof. intros Hr Hk. destruct r; simpl; [by eapply Hk|done..]. Qed.

(** The leaf scanners never ask for fuel. *)
Lemma p_string_total q s : p_string q s ≠ PFuel.
Proof.
  revert q. induction s as [|c s IH]; intros q; [done|]. simpl.
  repeat match goal with
  | |- context [match ?e with _ => _ end] => destruct e
  | |- context [if ?b then _ else _] => destruct b
  end; try done; unfold prepend; apply pbind_total; done.
Qed.

Lemma p_number_total s : p_number s ≠ PFuel.
Proof. unfold p_number. by repeat case_match. Qed.

Lemma p_member_total pv s :
  (∀ s', len s' < len s → pv s' ≠ PFuel) → p_member pv s ≠ PFuel.
Proof.
  intros Hpv. unfold p_member.
  destruct (closes dq s) as [r0|] eqn:E0; [|done].
  apply pbind_total; [apply p_string_total|]. intros k r1 E1.
  destruct (closes ":" r1) as [r2|] eqn:E2; [|done].
  apply pbind_total; [|done]. apply Hpv.
  apply closes_length in E0. apply p_string_length in E1. apply closes_length in E2. lia.
Qed.

Lemma leaf_total {A} (r : presult A) (k : A → string → presult json) :
  r ≠ PFuel → (∀ a s, k a s ≠ PFuel) → pbind r k ≠ PFuel.
Proof. intros Hr Hk. apply pbind_total; auto. Qed.

Lemma p_keyword_total kw v s : p_keyword kw v s ≠ PFuel.
Proof. unfold p_keyword. by destruct (strip_prefix kw s). Qed.

Lemma pbind_mono {A B} (r1 r2 : presult A) (k1 k2 : A → string → presult B) :
  pbind r1 k1 ≠ PFuel → (r1 ≠ PFuel → r2 = r1) →
  (∀ a s, r1 = POk a s → k1 a s ≠ PFuel → k2 a s = k1 a s) →
  pbind r2 k2 = pbind r1 k1.
Proof. destruct r1; simpl; intros H Hr Hk; rewrite Hr by done; simpl; eauto. Qed.

Lemma p_member_mono pv1 pv2 s :
  p_member pv1 s ≠ PFuel → (∀ s', pv1 s' ≠ PFuel → pv2 s' = pv1 s') →
  p_member pv2 s = p_member pv1 s.
Proof.
  intros H Hpv. unfold p_member in *.
  destruct (closes dq s) as [r0|]; [|done].
  apply pbind_mono; [done|done|]. intros k r1 _ Hk.
  destruct (closes ":" r1) as [r2|]; [|done].
  apply pbind_mono; [done|apply Hpv|done].
Qed.

(** With more fuel than characters, no parser runs out of fuel. *)
Lemma p_total n :
  (∀ s, len s < n → p_value n s ≠ PFuel) ∧
  (∀ s, len s < n → p_elems n s ≠ PFuel) ∧
  (∀ s, len s < n → p_members n s ≠ PFuel).
Proof.
  induction n as [|n (IHv & IHe & IHm)]; [split_and!; intros; lia|].
  destruct (p_consume n) as (Cv & Ce & Cm). split_and!.
  - intros s Hs. simpl. pose proof (skip_ws_length s).
    destruct (skip_ws s) as [|c u]; [done|]. simpl in *.
    destruct (token_of c);
      try (apply leaf_total; [apply p_string_total || apply p_number_total|done]);
      try apply p_keyword_total; try done.
    + destruct (closes "}" u); [done|]. apply pbind_total.
      * apply p_member_total. intros. apply IHv. lia.
      * intros kv r1 H1. apply pbind_total; [|done]. apply IHm.
        apply p_member_length in H1; [lia|exact Cv].
    + destruct (closes "]" u); [done|]. apply pbind_total; [apply IHv; lia|].
      intros v r1 H1. apply pbind_total; [|done]. apply IHe. apply Cv in H1. lia.
  - intros s Hs. simpl. destruct (closes "]" s); [done|].
    destruct (closes "," s) eqn:E; [|done]. apply closes_length in E.
    apply pbind_total; [apply IHv; lia|].
    intros v r1 H1. apply pbind_total; [|done]. apply IHe. apply Cv in H1. lia.
  - intros s Hs. simpl. destruct (closes "}" s); [done|].
    destruct (closes "," s) eqn:E; [|done]. apply closes_length in E.
    apply pbind_total.
    + apply p_member_total. intros. apply IHv. lia.
    + intros kv r1 H1. apply pbind_total; [|done]. apply IHm.
      apply p_member_length in H1; [lia|exact Cv].
Qed.

(** A result that did not run out of fuel stays the same with more fuel. *)
Lemma p_mono n :
  ∀ m, n ≤ m →
  (∀ s, p_value n s ≠ PFuel → p_value m s = p_value n s) ∧
  (∀ s, p_elems n s ≠ PFuel → p_elems m s = p_elems n s) ∧
  (∀ s, p_members n s ≠ PFuel → p_members m s = p_members n s).
Proof.
  induction n as [|n IH]; intros m Hm; [done|].
  destruct m as [|m]; [lia|]. destruct (IH m) as (Mv & Me & Mm); [lia|]. split_and!.
  - intros s. simpl. destruct (skip_ws s) as [|c u]; [done|].
    destruct (token_of c); try done.
    + destruct (closes "}" u); [done|]. intros H. apply pbind_mono; [done| |].
      * intros H'. by apply p_member_mono.
      * intros kv r1 _ H2. apply pbind_mono; [done|apply Mm|done].
    + destruct (closes "]" u); [done|]. intros H. apply pbind_mono; [done|apply Mv|].
      intros v r1 _ H2. apply pbind_mono; [done|apply Me|done].
  - intros s. simpl. destruct (closes "]" s); [done|]. destruct (closes "," s); [|done].
    intros H. apply pbind_mono; [done|apply Mv|].
    intros v r1 _ H2. apply pbind_mono; [done|apply Me|done].
  - intros s. simpl. destruct (closes "}" s); [done|]. destruct (closes "," s); [|done].
    intros H. apply pbind_mono; [done|intros; by apply p_member_mono|].
    intros kv r1 _ H2. apply pbind_mono; [done|apply Mm|done].
Qed.

(** *** The printer against the reference printer *)

Lemma escape_to_app c x t : escape_to c (x +:+ t) = escape_to c x +:+ t.
Proof. unfold escape_to. by repeat case_match. Qed.

Lemma quote_to_app s t : quote_to s t = quote_to s "" +:+ t.
Proof.
  induction s as [|c s IH]; [done|]. simpl. by rewrite IH, escape_to_app.
Qed.

Lemma concat_cons_sep (x : string) (l : list string) :
  String.concat "," (x :: l) = x +:+ comma_join l.
Proof.
  revert x. induction l as [|y l IH]; intros x; [by rewrite string_app_nil_r|].
  change (String.concat "," (x :: y :: l)) with (x +:+ "," +:+ String.concat "," (y :: l)).
  by rewrite IH.
Qed.

Lemma join_to_ref t l :
  Forall (λ j, ∀ t, stringify_to j t = stringify_ref j +:+ t) l →
  join_to stringify_to t l = comma_join (map stringify_ref l) +:+ String "]" t.
Proof.
  induction 1 as [|y l Hy _ IH]; [done|]. simpl. rewrite Hy, IH.
  by rewrite !string_app_assoc.
Qed.

Lemma join_members_to_ref t kvs :
  Forall (λ kv, ∀ t, stringify_to kv.2 t = stringify_ref kv.2 +:+ t) kvs →
  join_members_to stringify_to t kvs =
    comma_join (map (λ kv, quote_ref kv.1 +:+ ":" +:+ stringify_ref kv.2) kvs) +:+ String "}" t.
Proof.
  induction 1 as [|[k v] kvs Hkv _ IH]; [done|]. simpl in *.
  unfold member_to, quote, quote_ref. simpl. rewrite Hkv, IH, (quote_to_app k).
  by rewrite !string_app_assoc.
Qed.

(** ** Properties *)

(** Termination of [JSON.parse]: with the fuel [parse_fuel s], one
    more than the text has characters, the parser never runs out of fuel,
    and any larger fuel gives the same result; so [parse] decides every
    text, and its [None] is exactly a SyntaxError. *)
Theorem parse_total (s : string) (m : nat) :
  p_value (parse_fuel s) s ≠ PFuel ∧
  (parse_fuel s ≤ m → p_value m s = p_value (parse_fuel s) s).
Proof.
  assert (len s < parse_fuel s) as Hf by (unfold parse_fuel; lia).
  destruct (p_total (parse_fuel s)) as (Hv & _ & _). split; [by apply Hv|].
  intros Hm. apply (p_mono (parse_fuel s) m); [lia|]. by apply Hv.
Qed.

Lemma parse_total_witness :
  parse_fuel "[1,2]" ≤ 10 ∧ p_value 10 "[1,2]" = p_value (parse_fuel "[1,2]") "[1,2]".
Proof. split; [vm_compute; lia|]. apply (proj2 (parse_total "[1,2]" 10)). vm_compute. lia. Defined.

(** Round trip: [JSON.parse(JSON.stringify(v))] gives back [v] for
    every JSON value: every string (quotes, backslashes and control
    characters are escaped), every integer, nested arrays and objects. *)
Theorem parse_stringify (j : json) : parse (stringify j) = inl j.
Proof.
  unfold parse, parse_fuel, stringify.
  set (s := stringify_to j "").
  assert (p_value (jsize j) s = POk j "") as Hj by (apply p_value_stringify; done).
  destruct (p_total (S (len s))) as (Hv & _ & _).
  assert (p_value (S (len s)) s ≠ PFuel) as Hs by (apply Hv; lia).
  destruct (decide (jsize j ≤ S (len s))) as [Hle|Hle].
  - rewrite (proj1 (p_mono (jsize j) (S (len s)) Hle)) by (by rewrite Hj). by rewrite Hj.
  - rewrite <-(proj1 (p_mono (S (len s)) (jsize j) ltac:(lia)) s Hs), Hj. done.
Qed.

(** The printer that writes each value in front of the rest of the
    text is the reference printer that concatenates the texts of the
    elements: [stringify_to j t] is [stringify_ref j] followed by [t]. *)
Theorem stringify_to_ref (j : json) (t : string) : stringify_to j t = stringify_ref j +:+ t.
Proof.
  revert t. induction j as [| b | z | s | l IH | kvs IH] using json_ind'; intros t.
  - done.
  - by destruct b.
  - done.
  - simpl. unfold quote, quote_ref. simpl. by rewrite (quote_to_app s t).
  - destruct l as [|x l]; [done|]. inversion IH as [|? ? Hx Hl]; subst.
    cbn [stringify_to stringify_ref map]. rewrite Hx, join_to_ref, concat_cons_sep by done.
    rewrite !string_app_assoc. done.
  - destruct kvs as [|[k v] kvs]; [done|]. inversion IH as [|? ? Hkv Hkvs]; subst.
    cbn [stringify_to stringify_ref map]. unfold member_to, quote.
    rewrite Hkv, join_members_to_ref, concat_cons_sep by done.
    unfold quote_ref. rewrite (quote_to_app k). simpl. rewrite !string_app_assoc. done.
Qed.

Example parse_examples :
  parse " [ 1 , -20 ,true, null , [ ] ,{ } ] " =
    inl (JArr [JNum 1; JNum (-20); JBool true; JNull; JArr []; JObj []]) ∧
  parse "1.50e1" = inl (JNum 15) ∧ parse "-0" = inl (JNum 0) ∧ parse "2E-0" = inl (JNum 2) ∧
  parse "01" = inr SyntaxError ∧ parse "[1,]" = inr SyntaxError ∧ parse "[1" = inr SyntaxError ∧
  parse "tru" = inr SyntaxError ∧ parse "" = inr SyntaxError ∧ parse "1 2" = inr SyntaxError ∧
  parse "[1.5]" = inr OutsideModel ∧
  parse (String dq (String bs ("uD800" +:+ String dq ""))) = inr OutsideModel ∧
  parse (String dq (String bs ("uD83D" +:+ String bs ("uDE00" +:+ String dq "")))) =
    inl (JStr (utf8 128512)) ∧
  parse (String dq (String bs ("uD800" +:+ String "001" (String dq "")))) = inr SyntaxError ∧
  parse (stringify (JObj [("a", JStr (String "010" (String dq "x"))); ("b", JArr [JNum (-3)])])) =
    inl (JObj [("a", JStr (String "010" (String dq "x"))); ("b", JArr [JNum (-3)])]).
Proof. vm_compute. split_and!; reflexivity. Qed.

End Json.
