(* ===== verification/Snapshot.v ===== *)
(** The persisted form of the inventory: the JSON value that
    [JSON.stringify(inventoryData)] (src/App.jsx line 85) prints for the
    item objects, and the item objects that [JSON.parse(savedData)]
    (line 13) gives back.  An object's properties are printed in their
    creation order: the order of the literal of lines 16-35, then the
    [initialQty] that the spread of line 79 adds; an [undefined]
    [initialQty] (an item of a snapshot written before line 79 existed) is
    left out, and [image: null] is printed as [null].  Decoding reads a
    property by name, the last one when a name repeats, as [JSON.parse]
    does.  [load_text] reads a stored text back: a SyntaxError, the items,
    or a text outside the model (a value that is not an array of such
    objects in this form). *)

From S2P Require Import Prelude Item Json.

Module Snapshot.
Import Item Json.

(** ** Printing *)

Definition encode_type (t : LedgerType) : json :=
  match t with IN => JStr "IN" | OUT => JStr "OUT" end.

(** [{ type, qty, date }] of lines 109 and 119. *)
Definition encode_entry (e : LedgerEntry) : json :=
  JObj [("type", encode_type e.(type)); ("qty", JNum e.(qty)); ("date", JStr e.(date))].

Definition encode_image (img : option string) : json :=
  match img with Some url => JStr url | None => JNull end.

(** One item object, its properties in creation order. *)
Definition encode_item (it : Item) : json :=
  JObj ([("materialCode", JStr it.(materialCode));
         ("materialName", JStr it.(materialName));
         ("specification", JStr it.(specification));
         ("warehouseName", JStr it.(warehouseName));
         ("lotNo", JStr it.(lotNo));
         ("stockUnit", JStr it.(stockUnit));
         ("inventoryQty", JNum it.(inventoryQty));
         ("inventoryStatus", JStr it.(inventoryStatus));
         ("inventoryOrg", JStr it.(inventoryOrg));
         ("typeOfOwner", JStr it.(typeOfOwner));
         ("ownerName", JStr it.(ownerName));
         ("customerPN", JStr it.(customerPN));
         ("brand", JStr it.(brand));
         ("gram", JStr it.(gram));
         ("materialGrouping", JStr it.(materialGrouping));
         ("customerEndPN", JStr it.(customerEndPN));
         ("masterDataProperty", JStr it.(masterDataProperty));
         ("history", JArr (encode_entry <$> it.(history)));
         ("image", encode_image it.(image))] ++
        match it.(initialQty) with Some q => [("initialQty", JNum q)] | None => [] end).

Definition encode_items (xs : list Item) : json := JArr (encode_item <$> xs).

(** The text that line 85 stores. *)
Definition snapshot (xs : list Item) : string := stringify (encode_items xs).

(** ** Reading back *)

(** [obj[k]]: the value of the last member named [k]. *)
Fixpoint get (k : string) (kvs : list (string * json)) : option json :=
  match kvs with
  | [] => None
  | (k', v) :: kvs' =>
      match get k kvs' with
      | Some v' => Some v'
      | None => if String.eqb k' k then Some v else None
      end
  end.

Definition as_str (j : json) : option string :=
  match j with JStr s => Some s | _ => None end.

Definition as_num (j : json) : option Z :=
  match j with JNum z => Some z | _ => None end.

Definition as_arr (j : json) : option (list json) :=
  match j with JArr l => Some l | _ => None end.

Definition get_str (k : string) (kvs : list (string * json)) : option string :=
  get k kvs ≫= as_str.

Definition decode_type (j : json) : option LedgerType :=
  match j with
  | JStr s => if String.eqb s "IN" then Some IN else if String.eqb s "OUT" then Some OUT else None
  | _ => None
  end.

Definition decode_entry (j : json) : option LedgerEntry :=
  match j with
  | JObj kvs =>
      t ← get "type" kvs ≫= decode_type;
      q ← get "qty" kvs ≫= as_num;
      d ← get_str "date" kvs;
      Some (mkEntry t q d)
  | _ => None
  end.

Definition decode_image (j : json) : option (option string) :=
  match j with JNull => Some None | JStr url => Some (Some url) | _ => None end.

(** A missing [initialQty] is [undefined]: the item of an older snapshot. *)
Definition decode_initialQty (o : option json) : option (option Z) :=
  match o with None => Some None | Some (JNum q) => Some (Some q) | Some _ => None end.

Definition decode_item (j : json) : option Item :=
  match j with
  | JObj kvs =>
      mc ← get_str "materialCode" kvs; mn ← get_str "materialName" kvs; sp ← get_str "specification" kvs;
      wh ← get_str "warehouseName" kvs; lot ← get_str "lotNo" kvs; su ← get_str "stockUnit" kvs;
      q ← get "inventoryQty" kvs ≫= as_num;
      ist ← get_str "inventoryStatus" kvs; org ← get_str "inventoryOrg" kvs; too ← get_str "typeOfOwner" kvs;
      own ← get_str "ownerName" kvs; cpn ← get_str "customerPN" kvs; br ← get_str "brand" kvs; gr ← get_str "gram" kvs;
      mg ← get_str "materialGrouping" kvs; cepn ← get_str "customerEndPN" kvs; mdp ← get_str "masterDataProperty" kvs;
      h ← (get "history" kvs ≫= as_arr) ≫= mapM decode_entry;
      img ← get "image" kvs ≫= decode_image;
      iq ← decode_initialQty (get "initialQty" kvs);
      Some (mkItem mc mn sp wh lot su q ist org too own cpn br gr mg cepn mdp h img iq)
  | _ => None
  end.

Definition decode_items (j : json) : option (list Item) :=
  as_arr j ≫= mapM decode_item.

(** [JSON.parse(savedData)] read as an item list: the SyntaxError of
    [JSON.parse], or the items.  An item of the model stands for the
    object of its encoding; a parsed value that is not an array of items,
    or whose objects have other properties, another order or a repeated
    name (which the save of line 85 would write back as they are), is
    outside the model. *)
Definition load_text (s : string) : list Item + perror :=
  match parse s with
  | inl j =>
      match decode_items j with
      | Some xs => if String.eqb (stringify j) (snapshot xs) then inl xs else inr OutsideModel
      | None => inr OutsideModel
      end
  | inr e => inr e
  end.

(** ** The schema of a stored item *)

(** The types the code gives the properties of a stored item. *)
Inductive jtype := TyStr | TyNum | TyImage | TyLedgerType | TyLedger.

Definition scalar_typed (t : jtype) (j : json) : bool :=
  match t, j with
  | TyStr, JStr _ | TyNum, JNum _ | TyImage, JNull | TyImage, JStr _ => true
  | TyLedgerType, JStr s => String.eqb s "IN" || String.eqb s "OUT"
  | _, _ => false
  end.

(** Every property of the schema is present with its type. *)
Definition fields_typed (typed : jtype → json → bool) (schema : list (string * jtype))
    (kvs : list (string * json)) : bool :=
  forallb (λ kt, match get kt.1 kvs with Some v => typed kt.2 v | None => false end) schema.

Definition entry_schema : list (string * jtype) :=
  [("type", TyLedgerType); ("qty", TyNum); ("date", TyStr)].

Definition entry_typed (j : json) : bool :=
  match j with JObj kvs => fields_typed scalar_typed entry_schema kvs | _ => false end.

Definition typed (t : jtype) (j : json) : bool :=
  match t, j with
  | TyLedger, JArr l => forallb entry_typed l
  | TyLedger, _ => false
  | _, _ => scalar_typed t j
  end.

(** The properties of the literal of lines 16-35 with their types; the
    [initialQty] of line 79 is optional and a number when present. *)
Definition item_schema : list (string * jtype) :=
  [("materialCode", TyStr); ("materialName", TyStr); ("specification", TyStr);
   ("warehouseName", TyStr); ("lotNo", TyStr); ("stockUnit", TyStr);
   ("inventoryQty", TyNum); ("inventoryStatus", TyStr); ("inventoryOrg", TyStr);
   ("typeOfOwner", TyStr); ("ownerName", TyStr); ("customerPN", TyStr);
   ("brand", TyStr); ("gram", TyStr); ("materialGrouping", TyStr);
   ("customerEndPN", TyStr); ("masterDataProperty", TyStr);
   ("history", TyLedger); ("image", TyImage)].

Definition item_typed (j : json) : bool :=
  match j with
  | JObj kvs =>
      fields_typed typed item_schema kvs &&
      match get "initialQty" kvs with None => true | Some v => typed TyNum v end
  | _ => false
  end.

(** ** Lemmas *)

(** Close an equivalence between a decoder's success and a schema test
    once both are decided. *)
Ltac schema_close :=
  first [split; [intros [? ?]; discriminate|discriminate] | split; [done|by eexists]].

Lemma decode_entries hs : mapM decode_entry (encode_entry <$> hs) = Some hs.
Proof. apply mapM_fmap_Some. by intros [[] q d]. Qed.

Lemma decode_encode_item it : decode_item (encode_item it) = Some it.
Proof.
  destruct it as [mc mn sp wh lot su q ist org too own cpn br gr mg cepn mdp h [img|] [iq|]];
    simpl; by rewrite decode_entries.
Qed.

Lemma decode_encode_items xs : decode_items (encode_items xs) = Some xs.
Proof. unfold decode_items, encode_items. simpl. apply mapM_fmap_Some, decode_encode_item. Qed.

Lemma decode_entry_typed j : is_Some (decode_entry j) ↔ entry_typed j = true.
Proof.
  destruct j as [| | | | |kvs]; try (split; [intros [? ?]; discriminate|discriminate]).
  unfold decode_entry, entry_typed, fields_typed, get_str. simpl.
  repeat (match goal with
          | |- context [get ?k kvs] => destruct (get k kvs) as [[]|]
          | |- context [String.eqb ?a ?b] => destruct (String.eqb a b)
          end; simpl; try schema_close).
Qed.

Lemma decode_entries_typed l : is_Some (mapM decode_entry l) ↔ forallb entry_typed l = true.
Proof.
  rewrite mapM_is_Some, forallb_forall, Forall_forall.
  setoid_rewrite <-list_elem_of_In. by setoid_rewrite decode_entry_typed.
Qed.

Lemma get_str_Some k kvs s : get_str k kvs = Some s ↔ get k kvs = Some (JStr s).
Proof. unfold get_str. destruct (get k kvs) as [[]|]; naive_solver. Qed.

(** Split a schema test into its fields and decide each property. *)
Ltac field_values :=
  repeat match goal with
  | H : (_ && _) = true |- _ => apply andb_prop in H as [? ?]
  | H : context [match get ?k ?kvs with _ => _ end] |- _ =>
      destruct (get k kvs) as [[]|] eqn:?; simpl in H; try discriminate
  end.

Lemma decode_item_typed_1 kvs : is_Some (decode_item (JObj kvs)) → item_typed (JObj kvs) = true.
Proof.
  intros [it Hit]. unfold decode_item in Hit. simplify_option_eq.
  repeat match goal with
  | H : get_str _ _ = Some _ |- _ => apply get_str_Some in H
  | H : as_num ?x = Some _ |- _ => destruct x; simplify_eq/=
  | H : as_arr ?x = Some _ |- _ => destruct x; simplify_eq/=
  | H : decode_image ?x = Some _ |- _ => destruct x; simplify_eq/=
  end.
  all: unfold item_typed, fields_typed; simpl;
    repeat match goal with Hg : get _ _ = Some _ |- _ => rewrite Hg; clear Hg end; simpl;
    match goal with H : mapM decode_entry ?l = Some _ |- _ =>
      assert (forallb entry_typed l = true) as -> by (apply decode_entries_typed; by eexists) end;
    simpl; match goal with |- context [get "initialQty" ?k] => destruct (get "initialQty" k) as [[]|] end;
    done.
Qed.

Lemma decode_item_typed_2 kvs : item_typed (JObj kvs) = true → is_Some (decode_item (JObj kvs)).
Proof.
  unfold item_typed, fields_typed. simpl. intros H. field_values.
  all: unfold decode_item, get_str;
    repeat match goal with Hg : get _ _ = _ |- _ => rewrite Hg; clear Hg end; simpl;
    match goal with H : forallb entry_typed ?l = true |- _ =>
      apply decode_entries_typed in H as [h ->] end;
    simpl; by eexists.
Qed.

Lemma item_typed_encode it : item_typed (encode_item it) = true.
Proof.
  destruct it as [mc mn sp wh lot su q ist org too own cpn br gr mg cepn mdp h [img|] [iq|]];
    simpl; rewrite ?andb_true_r; apply forallb_forall; intros e He%list_elem_of_In;
    apply list_elem_of_fmap in He as ([[] eq ed] & -> & _); done.
Qed.

(** ** Properties *)

(** C25: Round trip of the persisted text: the items that line 85 stores
    are the items that line 13 reads back, for every list of items,
    whatever their strings hold, with or without [initialQty] and image. *)
Theorem load_snapshot (xs : list Item) : load_text (snapshot xs) = inl xs.
Proof.
  unfold load_text, snapshot. rewrite parse_stringify, decode_encode_items.
  by rewrite String.eqb_refl.
Qed.

(** The type of the persisted data: an object read back from the
    storage becomes an item exactly when it has every property of the
    literal with its type (strings, the number [inventoryQty], a ledger of
    [{type: 'IN'|'OUT', qty, date}] entries, an image that is a string or
    [null]) and, if present, a number [initialQty]; and every item the app
    stores has that type. *)
Theorem item_schema_decode (j : json) :
  (is_Some (decode_item j) ↔ item_typed j = true) ∧ ∀ it, item_typed (encode_item it) = true.
Proof.
  split; [|apply item_typed_encode].
  destruct j as [| | | | |kvs]; try (split; [intros [? ?]; discriminate|discriminate]).
  split; [apply decode_item_typed_1|apply decode_item_typed_2].
Qed.

End Snapshot.
