(* ===== verification/Store.v ===== *)
(** The inventory store of src/App.jsx: the [inventoryData] state (line
    8), the persistence effect (lines 84-86) and the handlers
    [handleStockIn] (104-111), [handleStockOut] (113-121) and
    [handleImageUpload] (152-162).

    JavaScript objects live in a heap [gmap loc Item]; the React state is
    an array of references.  [[...inventoryData]] makes a new array that
    holds the same references, and the handlers then write through them:
    the objects of the previous state are the objects of the next.  The
    state after a successful handler is the [commit] of its array: React
    re-renders with it and, the array being a fresh one, the effect of
    lines 84-86 writes [JSON.stringify] of it to [localStorage].  The
    storage holds that text ([Snapshot.snapshot]). *)

From S2P Require Import Prelude Item ParseInt Snapshot.

Module Store.
Import Item ParseInt Snapshot.

(** A reference to a JavaScript object. *)
Record loc := Loc { loc_id : positive }.

#[export] Instance loc_eq_dec : EqDecision loc.
Proof. solve_decision. Defined.

#[export] Instance loc_countable : Countable loc.
Proof. by apply (inj_countable' loc_id Loc); intros []. Defined.

(** A [FileReader] started by [handleImageUpload] and not yet loaded: the
    array [inventoryData] of the render whose handler started it (the
    [onload] closure of line 156 captures it), the index, and the data URL
    that [readAsDataURL] will deliver. *)
Record Reader := mkReader {
  rd_data : list loc;
  rd_index : nat;
  rd_result : string
}.

(** The component's state: the three filter states (lines 5-7), the
    inventory array (line 8), the objects it references, the next fresh
    reference, the [localStorage] entry ['inventoryData'] and the readers
    in flight. *)
Record AppState := mkState {
  searchTerm : string;
  filterWarehouse : string;
  filterGrouping : string;
  inventoryData : list loc;
  heap : gmap loc Item;
  next_loc : positive;
  storage : option string;
  readers : list Reader
}.

(** What the caller observes of a handler: it returned, it showed an
    [alert] with a message, or it threw a TypeError (a property read on
    [undefined]). *)
Inductive outcome := Done | Alerted (msg : string) | Thrown.

Definition msg_invalid : string := "Masukkan jumlah valid!".
Definition msg_insufficient : string := "Stok tidak cukup!".

(** The items an array refers to, in order. *)
Definition view (h : gmap loc Item) (a : list loc) : option (list Item) :=
  mapM (λ l, h !! l) a.

Definition set_heap (h : gmap loc Item) (st : AppState) : AppState :=
  mkState st.(searchTerm) st.(filterWarehouse) st.(filterGrouping) st.(inventoryData)
    h st.(next_loc) st.(storage) st.(readers).

Definition set_readers (rs : list Reader) (st : AppState) : AppState :=
  mkState st.(searchTerm) st.(filterWarehouse) st.(filterGrouping) st.(inventoryData)
    st.(heap) st.(next_loc) st.(storage) rs.

(** [localStorage.setItem('inventoryData', JSON.stringify(a))] (line 85).
    Every reference of a reachable array is allocated ([App.app_inv]), so
    the [None] branch, a dangling reference, does not occur. *)
Definition save (a : list loc) (st : AppState) : AppState :=
  mkState st.(searchTerm) st.(filterWarehouse) st.(filterGrouping) st.(inventoryData)
    st.(heap) st.(next_loc)
    (match view st.(heap) a with Some xs => Some (snapshot xs) | None => st.(storage) end)
    st.(readers).

(** [setInventoryData(a)] with a fresh array [a]: React re-renders with
    [a], and the effect of lines 84-86, whose dependency changed, saves it. *)
Definition commit (a : list loc) (st : AppState) : AppState :=
  save a (mkState st.(searchTerm) st.(filterWarehouse) st.(filterGrouping) a
            st.(heap) st.(next_loc) st.(storage) st.(readers)).

(** The two writes of lines 108-109 on one object. *)
Definition stock_in_item (q : Z) (now : string) (it : Item) : Item :=
  push_history (mkEntry IN q now) (set_inventoryQty (it.(inventoryQty) + q)%Z it).

(** The two writes of lines 118-119. *)
Definition stock_out_item (q : Z) (now : string) (it : Item) : Item :=
  push_history (mkEntry OUT q now) (set_inventoryQty (it.(inventoryQty) - q)%Z it).

(** [handleStockIn(index)]: [answer] is what [prompt] returned and [now]
    the string of [new Date().toLocaleString()]. *)
Definition handleStockIn (index : nat) (answer : option string) (now : string)
    (st : AppState) : AppState * outcome :=
  let qty := read_qty answer in
  if qty_invalid qty then (st, Alerted msg_invalid) else
  (* past the guard [qty] is a positive number, never NaN *)
  let q := default 0%Z qty in
  let updatedData := st.(inventoryData) in
  match updatedData !! index with
  | None => (st, Thrown)
  | Some l =>
      match st.(heap) !! l with
      | None => (st, Thrown)
      | Some it => (commit updatedData (set_heap (<[l := stock_in_item q now it]> st.(heap)) st), Done)
      end
  end.

(** [handleStockOut(index)]: the guard of line 115, then the stock test of
    line 116 on [inventoryData[index]], then the writes. *)
Definition handleStockOut (index : nat) (answer : option string) (now : string)
    (st : AppState) : AppState * outcome :=
  let qty := read_qty answer in
  if qty_invalid qty then (st, Alerted msg_invalid) else
  let q := default 0%Z qty in
  match st.(inventoryData) !! index with
  | None => (st, Thrown)
  | Some l =>
      match st.(heap) !! l with
      | None => (st, Thrown)
      | Some it =>
          if (it.(inventoryQty) <? q)%Z then (st, Alerted msg_insufficient) else
          let updatedData := st.(inventoryData) in
          (commit updatedData (set_heap (<[l := stock_out_item q now it]> st.(heap)) st), Done)
      end
  end.

(** [handleImageUpload(e, index)] up to [reader.readAsDataURL(file)]:
    [file] is the data URL of [e.target.files[0]], [None] when no file was
    chosen.  The reader closes over this render's [inventoryData]. *)
Definition handleImageUpload (index : nat) (file : option string)
    (st : AppState) : AppState * outcome :=
  match file with
  | None => (st, Done)
  | Some url => (set_readers (st.(readers) ++ [mkReader st.(inventoryData) index url]) st, Done)
  end.

(** [reader.onload] (lines 156-160): copy the captured array, write the
    image through it, commit the copy. *)
Definition reader_onload (r : Reader) (st : AppState) : AppState * outcome :=
  let updatedData := r.(rd_data) in
  match updatedData !! r.(rd_index) with
  | None => (st, Thrown)
  | Some l =>
      match st.(heap) !! l with
      | None => (st, Thrown)
      | Some it => (commit updatedData (set_heap (<[l := set_image r.(rd_result) it]> st.(heap)) st), Done)
      end
  end.

(** A sample item and store for the examples: the record "A1" of the
    scenarios, 100 units, initial quantity 100. *)
Definition a1 : Item :=
  with_initialQty (mkItem "A1" "Item A1" "" "Gudang A" "" "Pcs" 100 "Available" "" ""
                     "" "" "" "" "Grup A" "" "" [] None None).

Definition demo_state : AppState :=
  mkState "" "" "" [Loc 1] {[Loc 1 := a1]} 2 (Some (snapshot [a1])) [].

(** ** Ledger invariant of the writes *)

Lemma item_ok_stock_in q now it : item_ok it → (0 < q)%Z → item_ok (stock_in_item q now it).
Proof.
  unfold item_ok, stock_in_item, ledger_sum. simpl. destruct (initialQty it); [|done].
  intros (Hq & Hnn & Hpos) Hq0. rewrite sumZ_app. cbn [sumZ foldr signed type qty].
  split_and!; [lia|lia|]. apply Forall_app. auto.
Qed.

Lemma item_ok_stock_out q now it :
  item_ok it → (0 < q)%Z → (q ≤ it.(inventoryQty))%Z → item_ok (stock_out_item q now it).
Proof.
  unfold item_ok, stock_out_item, ledger_sum. simpl. destruct (initialQty it); [|done].
  intros (Hq & Hnn & Hpos) Hq0 Hle. rewrite sumZ_app. cbn [sumZ foldr signed type qty].
  split_and!; [lia|lia|]. apply Forall_app. auto.
Qed.

Lemma item_ok_set_image url it : item_ok it → item_ok (set_image url it).
Proof. done. Qed.

#[export] Hint Resolve item_ok_stock_in item_ok_stock_out item_ok_set_image : inventory.

(** ** Lemmas on views of the heap *)

Lemma view_cons h l a : view h (l :: a) = (x ← h !! l; xs ← view h a; Some (x :: xs)).
Proof. done. Qed.

Lemma view_lookup h a xs i l :
  view h a = Some xs → a !! i = Some l → ∃ x, h !! l = Some x ∧ xs !! i = Some x.
Proof.
  intros Hv%mapM_Some_1 Hi. destruct (Forall2_lookup_l _ _ _ _ _ Hv Hi) as (x & ? & ?). eauto.
Qed.

Lemma view_lookup_inv h a xs i x :
  view h a = Some xs → xs !! i = Some x → ∃ l, a !! i = Some l ∧ h !! l = Some x.
Proof.
  intros Hv%mapM_Some_1 Hi. destruct (Forall2_lookup_r _ _ _ _ _ Hv Hi) as (l & ? & ?). eauto.
Qed.

Lemma view_length h a xs : view h a = Some xs → length xs = length a.
Proof. intros H. symmetry. by eapply length_mapM. Qed.

Lemma view_insert_notin h a l x : l ∉ a → view (<[l := x]> h) a = view h a.
Proof.
  induction a as [|l' a IH]; intros Hl; [done|].
  rewrite !view_cons, lookup_insert_ne, IH; set_solver.
Qed.

(** Writing through the [i]-th reference of an array without duplicates
    changes the [i]-th item of its view and nothing else. *)
Lemma view_insert h a xs i l x :
  NoDup a → a !! i = Some l → view h a = Some xs →
  view (<[l := x]> h) a = Some (<[i := x]> xs).
Proof.
  revert i xs. induction a as [|l0 a IH]; intros i xs Hnd Hi Hv; [done|].
  apply NoDup_cons in Hnd as [Hl0 Hnd].
  rewrite view_cons in Hv |- *.
  destruct (h !! l0) as [y|] eqn:Hy; [|done]; simpl in Hv.
  destruct (view h a) as [ys|] eqn:Hys; simplify_eq/=.
  destruct i as [|i]; simplify_eq/=.
  - by rewrite lookup_insert_eq, view_insert_notin, Hys.
  - assert (l0 ≠ l) by (intros ->; apply Hl0; by eapply list_elem_of_lookup_2).
    by rewrite lookup_insert_ne, Hy, (IH i ys) by done.
Qed.

Lemma view_app h a b : view h (a ++ b) = (xs ← view h a; ys ← view h b; Some (xs ++ ys)).
Proof.
  induction a as [|l a IH].
  - simpl. by destruct (view h b).
  - rewrite <-app_comm_cons, !view_cons, IH. destruct (h !! l); simpl; [|done].
    destruct (view h a); simpl; [|done]. by destruct (view h b).
Qed.

Lemma qty_valid answer q : read_qty answer = Some q → (0 < q)%Z → qty_invalid (read_qty answer) = false.
Proof. intros Hq Hpos. rewrite Hq. by apply qty_invalid_positive. Qed.

(** A write through the [i]-th reference followed by a commit of the same
    array: the view changes at [i] and the storage receives the new view. *)
Lemma commit_write st a i l x xs :
  NoDup a → a !! i = Some l → view st.(heap) a = Some xs →
  (commit a (set_heap (<[l := x]> st.(heap)) st)).(inventoryData) = a ∧
  view (commit a (set_heap (<[l := x]> st.(heap)) st)).(heap) a = Some (<[i := x]> xs) ∧
  (commit a (set_heap (<[l := x]> st.(heap)) st)).(storage) = Some (snapshot (<[i := x]> xs)).
Proof.
  intros Hnd Hi Hv. unfold commit, save, set_heap; simpl.
  by rewrite (view_insert _ _ xs i).
Qed.

(** The lookups a handler does, read off a view. *)
Lemma view_index st xs index it :
  view st.(heap) st.(inventoryData) = Some xs → xs !! index = Some it →
  ∃ l, st.(inventoryData) !! index = Some l ∧ st.(heap) !! l = Some it.
Proof. apply view_lookup_inv. Qed.

Lemma view_index_none st xs index :
  view st.(heap) st.(inventoryData) = Some xs → xs !! index = None →
  st.(inventoryData) !! index = None.
Proof. intros Hv Hi. apply lookup_ge_None. apply lookup_ge_None in Hi. by rewrite <-(view_length _ _ _ Hv). Qed.

(** ** Properties of the handlers *)

Section Handlers.
  Context (st : AppState) (xs : list Item).
  Hypothesis Hnodup : NoDup st.(inventoryData).
  Hypothesis Hview : view st.(heap) st.(inventoryData) = Some xs.

(** C2: A stock-in of a positive quantity [q] on an item of the list
    adds [q] to that item's quantity, appends the ledger entry
    [{IN, q, now}], changes no other item, keeps the array, and saves the
    new list to the storage. *)
Theorem handleStockIn_ok (index : nat) (answer : option string) (now : string) (q : Z) (it : Item) :
  xs !! index = Some it → read_qty answer = Some q → (0 < q)%Z →
  let '(st', o) := handleStockIn index answer now st in
  o = Done ∧ st'.(inventoryData) = st.(inventoryData) ∧
  view st'.(heap) st'.(inventoryData) = Some (<[index := stock_in_item q now it]> xs) ∧
  st'.(storage) = Some (snapshot (<[index := stock_in_item q now it]> xs)) ∧
  (stock_in_item q now it).(inventoryQty) = (it.(inventoryQty) + q)%Z ∧
  (stock_in_item q now it).(history) = it.(history) ++ [mkEntry IN q now] ∧
  (stock_in_item q now it).(initialQty) = it.(initialQty).
Proof.
  intros Hit Hq Hpos. destruct (view_index st xs index it) as (l & Hl & Hh); [done..|].
  unfold handleStockIn. rewrite (qty_valid _ q), Hq by done.
  cbv beta iota zeta delta [default id]. rewrite Hl, Hh.
  destruct (commit_write st st.(inventoryData) index l (stock_in_item q now it) xs)
    as (H1 & H2 & H3); [done..|]. by rewrite H1, H2, H3.
Qed.

(** C3: A stock-out of a positive quantity [q] no larger than the
    item's quantity subtracts [q], appends [{OUT, q, now}], changes no
    other item and saves the new list. *)
Theorem handleStockOut_ok (index : nat) (answer : option string) (now : string) (q : Z) (it : Item) :
  xs !! index = Some it → read_qty answer = Some q → (0 < q)%Z → (q ≤ it.(inventoryQty))%Z →
  let '(st', o) := handleStockOut index answer now st in
  o = Done ∧ st'.(inventoryData) = st.(inventoryData) ∧
  view st'.(heap) st'.(inventoryData) = Some (<[index := stock_out_item q now it]> xs) ∧
  st'.(storage) = Some (snapshot (<[index := stock_out_item q now it]> xs)) ∧
  (stock_out_item q now it).(inventoryQty) = (it.(inventoryQty) - q)%Z ∧
  (stock_out_item q now it).(history) = it.(history) ++ [mkEntry OUT q now] ∧
  (stock_out_item q now it).(initialQty) = it.(initialQty).
Proof.
  intros Hit Hq Hpos Hle. destruct (view_index st xs index it) as (l & Hl & Hh); [done..|].
  unfold handleStockOut. rewrite (qty_valid _ q), Hq by done.
  cbv beta iota zeta delta [default id]. rewrite Hl, Hh.
  destruct (Z.ltb_spec it.(inventoryQty) q); [lia|]. cbv beta iota.
  destruct (commit_write st st.(inventoryData) index l (stock_out_item q now it) xs)
    as (H1 & H2 & H3); [done..|]. by rewrite H1, H2, H3.
Qed.

(** C4: A stock-out of more than the item holds shows "Stok tidak
    cukup!" and leaves the whole state, storage included, unchanged. *)
Theorem handleStockOut_insufficient (index : nat) (answer : option string) (now : string) (q : Z) (it : Item) :
  xs !! index = Some it → read_qty answer = Some q → (0 < q)%Z → (it.(inventoryQty) < q)%Z →
  handleStockOut index answer now st = (st, Alerted msg_insufficient).
Proof.
  intros Hit Hq Hpos Hlt. destruct (view_index st xs index it) as (l & Hl & Hh); [done..|].
  unfold handleStockOut. rewrite (qty_valid _ q), Hq by done. simpl. rewrite Hl, Hh.
  js_cases; [done|lia].
Qed.

(** C15: A valid quantity for an index past the end of the list throws a
    TypeError ([updatedData[index]] is undefined) and changes nothing. *)
Theorem handleStock_out_of_range (index : nat) (answer : option string) (now : string) (q : Z) :
  xs !! index = None → read_qty answer = Some q → (0 < q)%Z →
  handleStockIn index answer now st = (st, Thrown) ∧
  handleStockOut index answer now st = (st, Thrown).
Proof.
  intros Hi Hq Hpos. pose proof (view_index_none st xs index Hview Hi) as Hl.
  unfold handleStockIn, handleStockOut. rewrite (qty_valid _ q), Hl by done. done.
Qed.

End Handlers.

(** C5: When the answer to the prompt is not a positive integer (a
    cancelled prompt, text with no leading digits, zero or a negative
    number) both stock handlers alert "Masukkan jumlah valid!" and change
    nothing, whatever the index. *)
Theorem handleStock_invalid_qty (st : AppState) (index : nat) (answer : option string) (now : string) :
  qty_invalid (read_qty answer) = true →
  handleStockIn index answer now st = (st, Alerted msg_invalid) ∧
  handleStockOut index answer now st = (st, Alerted msg_invalid).
Proof. intros H. unfold handleStockIn, handleStockOut. by rewrite H. Qed.

Lemma handleStockIn_ok_witness :
  let '(st', o) := handleStockIn 0 (Some "20") "t1" demo_state in
  o = Done ∧ st'.(inventoryData) = demo_state.(inventoryData) ∧
  view st'.(heap) st'.(inventoryData) = Some (<[0 := stock_in_item 20 "t1" a1]> [a1]) ∧
  st'.(storage) = Some (snapshot (<[0 := stock_in_item 20 "t1" a1]> [a1])) ∧
  (stock_in_item 20 "t1" a1).(inventoryQty) = (a1.(inventoryQty) + 20)%Z ∧
  (stock_in_item 20 "t1" a1).(history) = a1.(history) ++ [mkEntry IN 20 "t1"] ∧
  (stock_in_item 20 "t1" a1).(initialQty) = a1.(initialQty).
Proof.
  apply (handleStockIn_ok demo_state [a1]); [apply NoDup_singleton|reflexivity..|lia].
Defined.

Lemma handleStockOut_ok_witness :
  let '(st', o) := handleStockOut 0 (Some "95") "t1" demo_state in
  o = Done ∧ st'.(inventoryData) = demo_state.(inventoryData) ∧
  view st'.(heap) st'.(inventoryData) = Some (<[0 := stock_out_item 95 "t1" a1]> [a1]) ∧
  st'.(storage) = Some (snapshot (<[0 := stock_out_item 95 "t1" a1]> [a1])) ∧
  (stock_out_item 95 "t1" a1).(inventoryQty) = (a1.(inventoryQty) - 95)%Z ∧
  (stock_out_item 95 "t1" a1).(history) = a1.(history) ++ [mkEntry OUT 95 "t1"] ∧
  (stock_out_item 95 "t1" a1).(initialQty) = a1.(initialQty).
Proof.
  apply (handleStockOut_ok demo_state [a1]); [apply NoDup_singleton|reflexivity..|lia|simpl; lia].
Defined.

Lemma handleStockOut_insufficient_witness :
  handleStockOut 0 (Some "150") "t1" demo_state = (demo_state, Alerted msg_insufficient).
Proof.
  apply (handleStockOut_insufficient demo_state [a1] eq_refl 0 _ _ 150 a1);
    [reflexivity|reflexivity|lia|simpl; lia].
Defined.

Lemma handleStock_out_of_range_witness :
  handleStockIn 3 (Some "5") "t1" demo_state = (demo_state, Thrown) ∧
  handleStockOut 3 (Some "5") "t1" demo_state = (demo_state, Thrown).
Proof. apply (handleStock_out_of_range demo_state [a1] eq_refl 3 _ _ 5); [reflexivity|reflexivity|lia]. Defined.

Lemma handleStock_invalid_qty_witness :
  handleStockIn 0 (Some "abc") "t1" demo_state = (demo_state, Alerted msg_invalid) ∧
  handleStockOut 0 None "t1" demo_state = (demo_state, Alerted msg_invalid).
Proof.
  split.
  - apply (handleStock_invalid_qty demo_state 0 (Some "abc") "t1"). reflexivity.
  - apply (handleStock_invalid_qty demo_state 0 None "t1"). reflexivity.
Defined.

End Store.
