(* ===== verification/App.v ===== *)
(** The life cycle of the [App] component (src/App.jsx lines 4-162): the
    two effects that run when it mounts, the events its handlers answer,
    and the states reachable from a mount.  The invariant of reachable
    states says that the array has no repeated reference, that every item
    keeps its ledger invariant, that the storage holds the JSON text of
    the items on screen, and that every pending [FileReader] captured the current
    array. *)

From S2P Require Import Prelude Item ParseInt Json Snapshot Store.

Module App.
Import Item ParseInt Json Snapshot Store.

(** [JSON.parse] builds one new object per element: fresh references
    [Loc n], [Loc (n+1)], ... in array order. *)
Fixpoint alloc (xs : list Item) (h : gmap loc Item) (n : positive)
    : list loc * gmap loc Item * positive :=
  match xs with
  | [] => ([], h, n)
  | x :: xs' =>
      let '(a, h', n') := alloc xs' (<[Loc n := x]> h) (Pos.succ n) in
      (Loc n :: a, h', n')
  end.

(** The state of the first render: [useState('')] three times,
    [useState([])], and the [localStorage] entry as the browser holds it
    ([None]: [getItem] returns [null]). *)
Definition initial_state (stored : option string) : AppState :=
  mkState "" "" "" [] ∅ 1%positive stored [].

(** [if (savedData)] (line 12): [null] and the empty string are falsy. *)
Definition saved_text (stored : option string) : option string :=
  match stored with
  | Some s => if String.eqb s "" then None else Some s
  | None => None
  end.

(** The items the load effect sets: [JSON.parse(savedData)] (line 13) or
    [initialData] (lines 15-80).  [inr SyntaxError] is the exception
    [JSON.parse] throws on a text that is not JSON: it escapes the effect
    and the component crashes.  [inr OutsideModel] is a stored value the
    item model does not represent (see [load_text]); the model follows
    such a mount no further. *)
Definition loaded (stored : option string) : list Item + perror :=
  match saved_text stored with
  | Some s => load_text s
  | None => inl initialData
  end.

(** The effect of lines 10-82: read the storage, build the items, queue
    [setInventoryData] with them.  It returns the queued array beside the
    state with the new objects. *)
Definition load_effect (st : AppState) : (list loc * AppState) + perror :=
  match loaded st.(storage) with
  | inl src =>
      let '(a, h, n) := alloc src st.(heap) st.(next_loc) in
      inl (a, mkState st.(searchTerm) st.(filterWarehouse) st.(filterGrouping) st.(inventoryData)
                h n st.(storage) st.(readers))
  | inr e => inr e
  end.

(** The effects of the first commit in declaration order: the load
    effect, then the save effect of lines 84-86 with the array of that
    render.  An exception of the load effect stops the commit before the
    save effect runs. *)
Definition mount_effects (st : AppState) : (AppState * list loc) + perror :=
  match load_effect st with
  | inl (a, st1) => inl (save st.(inventoryData) st1, a)
  | inr e => inr e
  end.

(** Mounting: the first commit's effects, then the render with the
    queued array, whose save effect runs because the array changed. *)
Definition mount (st : AppState) : AppState + perror :=
  match mount_effects st with
  | inl (st1, a) => inl (commit a st1)
  | inr e => inr e
  end.

(** Under React's StrictMode in development the effects of the first
    commit run twice before the queued updates are rendered; the last
    queued array wins. *)
Definition mount_strict (st : AppState) : AppState + perror :=
  match mount_effects st with
  | inl (st1, _) =>
      match mount_effects st1 with
      | inl (st2, a2) => inl (commit a2 st2)
      | inr e => inr e
      end
  | inr e => inr e
  end.

(** The events the component answers. *)
Inductive event :=
| StockIn (index : nat) (answer : option string) (now : string)
| StockOut (index : nat) (answer : option string) (now : string)
| ImagePick (index : nat) (file : option string)
| ImageLoad (n : nat)
| SetSearch (s : string)
| SetWarehouse (s : string)
| SetGrouping (s : string)
| ExportExcel.

(** [setSearchTerm], [setFilterWarehouse], [setFilterGrouping] (lines
    187, 192, 200): a re-render with the same [inventoryData], so the save
    effect does not run. *)
Definition set_filters (s w g : string) (st : AppState) : AppState :=
  mkState s w g st.(inventoryData) st.(heap) st.(next_loc) st.(storage) st.(readers).

(** One event.  [ImageLoad n] is the [onload] of the [n]-th pending
    reader; it leaves the pending list first.  [handleExportExcel] only
    reads the state (its rows are [Export.rows]). *)
Definition step (ev : event) (st : AppState) : AppState * outcome :=
  match ev with
  | StockIn i ans now => handleStockIn i ans now st
  | StockOut i ans now => handleStockOut i ans now st
  | ImagePick i file => handleImageUpload i file st
  | ImageLoad n =>
      match st.(readers) !! n with
      | None => (st, Done)
      | Some r => reader_onload r (set_readers (delete n st.(readers)) st)
      end
  | SetSearch s => (set_filters s st.(filterWarehouse) st.(filterGrouping) st, Done)
  | SetWarehouse w => (set_filters st.(searchTerm) w st.(filterGrouping) st, Done)
  | SetGrouping g => (set_filters st.(searchTerm) st.(filterWarehouse) g st, Done)
  | ExportExcel => (st, Done)
  end.

(** A stored entry whose items, when it loads, all keep the ledger
    invariant. *)
Definition snapshot_ok (stored : option string) : Prop :=
  ∀ xs, loaded stored = inl xs → Forall item_ok xs.

(** The states of a mounted component. *)
Inductive reachable : AppState → Prop :=
| reach_mount stored st :
    snapshot_ok stored → mount (initial_state stored) = inl st → reachable st
| reach_step ev st : reachable st → reachable (step ev st).1.

(** The invariant of reachable states. *)
Definition app_inv (st : AppState) : Prop :=
  NoDup st.(inventoryData) ∧
  (∃ xs, view st.(heap) st.(inventoryData) = Some xs ∧ Forall item_ok xs ∧
         st.(storage) = Some (snapshot xs)) ∧
  Forall (λ r, r.(rd_data) = st.(inventoryData)) st.(readers).

(** Run a sequence of events, collecting what each one returned. *)
Fixpoint run (evs : list event) (st : AppState) : AppState * list outcome :=
  match evs with
  | [] => (st, [])
  | ev :: evs' =>
      let '(st1, o) := step ev st in
      let '(st2, os) := run evs' st1 in
      (st2, o :: os)
  end.

(** What the [onload] of a reader does to the items on screen (lines
    157-158): the item at the captured index gets the data URL as its
    image; an index past the end throws, and the items stay. *)
Definition load_image (xs : list Item) (r : Reader) : list Item :=
  alter (set_image r.(rd_result)) r.(rd_index) xs.

(** The component mounted on a stored snapshot holding the item [a1]. *)
Definition demo_mounted : AppState :=
  match mount (initial_state (Some (snapshot [a1]))) with
  | inl st => st
  | inr _ => initial_state None
  end.

(** The demo store after an image was picked for item 0 and, before the
    reader loaded, 20 units were stocked in. *)
Definition demo_pending : AppState :=
  (step (StockIn 0 (Some "20") "t2") (step (ImagePick 0 (Some "data:image/png;base64,AA")) demo_mounted).1).1.

(** ** Allocation *)

Definition fresh_from (h : gmap loc Item) (n : positive) : Prop :=
  ∀ l x, h !! l = Some x → (loc_id l < n)%positive.

Lemma alloc_spec xs h n :
  fresh_from h n →
  let '(a, h', n') := alloc xs h n in
  view h' a = Some xs ∧ NoDup a ∧ Forall (λ l, (n ≤ loc_id l)%positive) a ∧
  (∀ l, (loc_id l < n)%positive → h' !! l = h !! l).
Proof.
  revert h n. induction xs as [|x xs IH]; intros h n Hfresh; simpl.
  - split_and!; [done|constructor|done|done].
  - specialize (IH (<[Loc n := x]> h) (Pos.succ n)).
    destruct (alloc xs (<[Loc n := x]> h) (Pos.succ n)) as [[a h'] n'].
    destruct IH as (Hv & Hnd & Hge & Hkeep).
    { intros l y. rewrite lookup_insert. case_decide; [subst; simpl; lia|].
      intros Hl%Hfresh. lia. }
    assert (h' !! Loc n = Some x) as Hn by (rewrite Hkeep; [apply lookup_insert_eq|simpl; lia]).
    split_and!.
    + by rewrite view_cons, Hn, Hv.
    + constructor; [|done]. intros Hin. eapply Forall_forall in Hge; [|done]. simpl in Hge. lia.
    + constructor; [simpl; lia|]. eapply Forall_impl; [done|]. simpl. lia.
    + intros l Hl. rewrite Hkeep by lia. rewrite lookup_insert_ne; [done|].
      intros <-. simpl in Hl. lia.
Qed.

(** The stored snapshot of a list reads back as that list. *)
Lemma loaded_snapshot xs : loaded (Some (snapshot xs)) = inl xs.
Proof.
  unfold loaded, saved_text.
  assert (String.eqb (snapshot xs) "" = false) as ->.
  { unfold snapshot, encode_items, stringify. by destruct (encode_item <$> xs). }
  unfold load_text, snapshot. rewrite parse_stringify, decode_encode_items.
  by rewrite String.eqb_refl.
Qed.

(** The mounted state, from any stored entry that loads. *)
Lemma mount_spec stored src :
  loaded stored = inl src →
  ∃ st, mount (initial_state stored) = inl st ∧
    NoDup st.(inventoryData) ∧ view st.(heap) st.(inventoryData) = Some src ∧
    st.(storage) = Some (snapshot src) ∧ st.(readers) = [].
Proof.
  intros Hsrc. unfold mount, mount_effects, load_effect. simpl. rewrite Hsrc. simpl.
  pose proof (alloc_spec src ∅ 1) as Halloc.
  destruct (alloc src ∅ 1) as [[a h] n]. destruct Halloc as (Hv & Hnd & _ & _); [done|].
  eexists. split; [reflexivity|]. unfold commit, save. simpl. by rewrite Hv.
Qed.

Lemma initialData_ok : Forall item_ok initialData.
Proof. unfold initialData. repeat constructor; simpl; lia. Qed.

Lemma snapshot_ok_seed stored : saved_text stored = None → snapshot_ok stored.
Proof. intros Hs xs. unfold loaded. rewrite Hs. intros [= <-]. apply initialData_ok. Qed.

(** A load that fails stops every mount with its error. *)
Lemma mount_error stored e :
  loaded stored = inr e →
  mount_effects (initial_state stored) = inr e ∧
  mount (initial_state stored) = inr e ∧ mount_strict (initial_state stored) = inr e.
Proof. intros Hl. unfold mount, mount_strict, mount_effects, load_effect. simpl. by rewrite Hl. Qed.

(** ** The invariant *)

Lemma app_inv_write st i l it x :
  app_inv st → st.(inventoryData) !! i = Some l → st.(heap) !! l = Some it →
  (item_ok it → item_ok x) →
  app_inv (commit st.(inventoryData) (set_heap (<[l := x]> st.(heap)) st)).
Proof.
  intros (Hnd & (xs & Hv & Hok & Hs) & Hr) Hl Hit Hx.
  destruct (view_lookup _ _ _ _ _ Hv Hl) as (y & Hy & Hxs). simplify_eq.
  destruct (commit_write st _ i l x xs Hnd Hl Hv) as (H1 & H2 & H3).
  split_and!; rewrite ?H1; [done| |done].
  exists (<[i := x]> xs). split_and!; [done| |done].
  apply Forall_insert; [done|]. apply Hx. by eapply Forall_lookup_1.
Qed.

Lemma app_inv_set_readers st rs :
  app_inv st → Forall (λ r, r.(rd_data) = st.(inventoryData)) rs → app_inv (set_readers rs st).
Proof. intros (? & ? & _) ?. by split_and!. Qed.

Lemma app_inv_set_filters st s w g : app_inv st → app_inv (set_filters s w g st).
Proof. done. Qed.

Lemma app_inv_stock_in st i ans now : app_inv st → app_inv (handleStockIn i ans now st).1.
Proof.
  intros Hinv. unfold handleStockIn.
  destruct (qty_invalid (read_qty ans)) eqn:Hq; [done|].
  apply qty_invalid_false_inv in Hq as (q & -> & Hpos). cbn [default id].
  destruct (inventoryData st !! i) as [l|] eqn:Hl; [|done].
  destruct (heap st !! l) as [it|] eqn:Hit; [|done].
  eapply app_inv_write; eauto with inventory.
Qed.

Lemma app_inv_stock_out st i ans now : app_inv st → app_inv (handleStockOut i ans now st).1.
Proof.
  intros Hinv. unfold handleStockOut.
  destruct (qty_invalid (read_qty ans)) eqn:Hq; [done|].
  apply qty_invalid_false_inv in Hq as (q & -> & Hpos). cbn [default id].
  destruct (inventoryData st !! i) as [l|] eqn:Hl; [|done].
  destruct (heap st !! l) as [it|] eqn:Hit; [|done].
  destruct (Z.ltb_spec (inventoryQty it) q); [done|].
  eapply app_inv_write; eauto with inventory.
Qed.

Lemma app_inv_image_pick st i file : app_inv st → app_inv (handleImageUpload i file st).1.
Proof.
  intros Hinv. destruct file as [url|]; [|done]. simpl.
  apply app_inv_set_readers; [done|]. apply Forall_app. split; [apply Hinv|by constructor].
Qed.

Lemma app_inv_image_load st n : app_inv st → app_inv (step (ImageLoad n) st).1.
Proof.
  intros Hinv. simpl. destruct (readers st !! n) as [r|] eqn:Hr; [|done].
  assert (rd_data r = inventoryData st) as Hdata
    by (eapply (Forall_lookup_1 _ _ _ _ (proj2 (proj2 Hinv)) Hr)).
  assert (app_inv (set_readers (delete n (readers st)) st)) as Hinv'.
  { apply app_inv_set_readers; [done|]. apply Forall_delete, Hinv. }
  unfold reader_onload. rewrite Hdata.
  destruct (inventoryData st !! rd_index r) as [l|] eqn:Hl; [|exact Hinv'].
  destruct (heap (set_readers (delete n (readers st)) st) !! l) as [it|] eqn:Hit; [|exact Hinv'].
  apply (app_inv_write (set_readers (delete n (readers st)) st) (rd_index r) l it); eauto with inventory.
Qed.

Lemma app_inv_step ev st : app_inv st → app_inv (step ev st).1.
Proof.
  intros Hinv. destruct ev; simpl.
  - by apply app_inv_stock_in.
  - by apply app_inv_stock_out.
  - by apply app_inv_image_pick.
  - by apply app_inv_image_load.
  - by apply app_inv_set_filters.
  - by apply app_inv_set_filters.
  - by apply app_inv_set_filters.
  - done.
Qed.

Lemma app_inv_mount stored st :
  snapshot_ok stored → mount (initial_state stored) = inl st → app_inv st.
Proof.
  intros Hok Hm. destruct (loaded stored) as [src|e] eqn:Hsrc.
  - destruct (mount_spec stored src Hsrc) as (st' & Hm' & Hnd & Hv & Hs & Hr).
    rewrite Hm in Hm'. injection Hm' as <-.
    split_and!; [done| |by rewrite Hr]. eexists; split_and!; [done| |done]. by apply Hok.
  - by rewrite (proj1 (proj2 (mount_error stored e Hsrc))) in Hm.
Qed.

Lemma image_load_commit st n r l it :
  app_inv st → st.(readers) !! n = Some r → st.(inventoryData) !! r.(rd_index) = Some l →
  st.(heap) !! l = Some it →
  step (ImageLoad n) st =
    (commit st.(inventoryData)
       (set_heap (<[l := set_image r.(rd_result) it]> st.(heap)) (set_readers (delete n st.(readers)) st)),
     Done).
Proof.
  intros Hinv Hr Hl Hit. simpl. rewrite Hr. unfold reader_onload.
  rewrite (Forall_lookup_1 _ _ _ _ (proj2 (proj2 Hinv)) Hr). simpl. by rewrite Hl, Hit.
Qed.

Lemma reach_inv st : reachable st → app_inv st.
Proof.
  induction 1 as [stored st Hok Hm|ev st _ IH].
  - by eapply app_inv_mount.
  - by apply app_inv_step.
Qed.

(** *** Runs of events *)

Lemma run_cons_fst ev evs st : (run (ev :: evs) st).1 = (run evs (step ev st).1).1.
Proof. simpl. destruct (step ev st) as [st1 o]. simpl. by destruct (run evs st1). Qed.

Lemma run_reachable evs st : reachable st → reachable (run evs st).1.
Proof.
  revert st. induction evs as [|ev evs IH]; intros st Hst; [done|].
  rewrite run_cons_fst. apply IH. by apply reach_step.
Qed.

(** The [onload] of the first pending reader takes it off the queue; the
    writes it does add no reader. *)
Lemma step_load_readers st : (step (ImageLoad 0) st).1.(readers) = drop 1 st.(readers).
Proof.
  simpl. destruct (readers st) as [|r rs] eqn:Hrs; simpl; [by rewrite Hrs|].
  unfold reader_onload. simpl.
  destruct (rd_data r !! rd_index r) as [l|]; [|done].
  destruct (heap st !! l); done.
Qed.

Lemma run_loads_readers k st :
  (run (replicate k (ImageLoad 0)) st).1.(readers) = drop k st.(readers).
Proof.
  revert st. induction k as [|k IH]; intros st; [done|].
  rewrite replicate_S, run_cons_fst, IH, step_load_readers, drop_drop. done.
Qed.

(** The [onload] of the first pending reader, read off the items. *)
Lemma image_load_view st r rs xs :
  app_inv st → st.(readers) = r :: rs → view st.(heap) st.(inventoryData) = Some xs →
  (step (ImageLoad 0) st).1.(readers) = rs ∧
  view (step (ImageLoad 0) st).1.(heap) (step (ImageLoad 0) st).1.(inventoryData) =
    Some (load_image xs r).
Proof.
  intros Hinv Hrs Hv. split; [by rewrite step_load_readers, Hrs|].
  assert (readers st !! 0 = Some r) as Hr by (by rewrite Hrs).
  unfold load_image. destruct (xs !! rd_index r) as [it|] eqn:Hit.
  - destruct (view_index st xs _ it Hv Hit) as (l & Hl & Hh).
    rewrite (image_load_commit st 0 r l it Hinv Hr Hl Hh), (list_alter_lookup_Some _ _ _ it Hit).
    destruct (commit_write (set_readers (delete 0 (readers st)) st) (inventoryData st) (rd_index r) l
      (set_image (rd_result r) it) xs) as (_ & Hv' & _); [apply Hinv|done|done|exact Hv'].
  - rewrite list_alter_lookup_None by done. simpl. rewrite Hr. unfold reader_onload.
    rewrite (Forall_lookup_1 _ _ _ _ (proj2 (proj2 Hinv)) Hr), (view_index_none st xs) by done.
    exact Hv.
Qed.

(** The [onload]s of all pending readers, in pick order, fold their
    writes over the items. *)
Lemma run_loads_view rs st xs :
  app_inv st → st.(readers) = rs → view st.(heap) st.(inventoryData) = Some xs →
  view (run (replicate (length rs) (ImageLoad 0)) st).1.(heap)
       (run (replicate (length rs) (ImageLoad 0)) st).1.(inventoryData) = Some (foldl load_image xs rs).
Proof.
  induction rs as [|r rs IH] in st, xs |- *; intros Hinv Hrs Hv; [done|].
  simpl length. rewrite replicate_S, run_cons_fst.
  destruct (image_load_view st r rs xs Hinv Hrs Hv) as [Hr' Hv'].
  apply IH; [by apply app_inv_step|done|done].
Qed.

Lemma demo_mounted_ok :
  snapshot_ok (Some (snapshot [a1])) ∧ mount (initial_state (Some (snapshot [a1]))) = inl demo_mounted.
Proof.
  split; [|vm_compute; reflexivity].
  intros xs Hxs. rewrite loaded_snapshot in Hxs. injection Hxs as <-.
  repeat constructor; simpl; lia.
Qed.

Lemma demo_mounted_reachable : reachable demo_mounted.
Proof. apply (reach_mount (Some (snapshot [a1]))); apply demo_mounted_ok. Qed.

(** ** Properties *)

(** C1: Every reachable state keeps the invariant: the array repeats no
    reference; every item on screen has quantity = initial quantity +
    signed ledger, never negative, with positive ledger entries; the
    storage holds exactly the items on screen; every pending reader
    captured the current array. *)
Theorem reachable_app_inv (st : AppState) : reachable st → app_inv st.
Proof.
  induction 1 as [stored st Hok Hm|ev st _ IH].
  - by eapply app_inv_mount.
  - by apply app_inv_step.
Qed.

(** C6: Reloading reproduces the screen: in any reachable state the
    storage holds the JSON text of the items on screen, and mounting the
    component again on that text shows the same items in the same order,
    ledgers, images and initial quantities included. *)
Theorem reload_roundtrip (st : AppState) :
  reachable st →
  ∃ xs st', st.(storage) = Some (snapshot xs) ∧ view st.(heap) st.(inventoryData) = Some xs ∧
    mount (initial_state st.(storage)) = inl st' ∧ view st'.(heap) st'.(inventoryData) = Some xs.
Proof.
  intros (_ & (xs & Hv & _ & Hs) & _)%reach_inv.
  destruct (mount_spec (Some (snapshot xs)) xs) as (st' & Hm & _ & Hv' & _); [apply loaded_snapshot|].
  exists xs, st'. by rewrite Hs.
Qed.

(** C16: When the storage holds no entry or an empty one ([if
    (savedData)] fails), the component shows the three seed items of
    lines 16-78, each with [initialQty] equal to its quantity, and stores
    their JSON text. *)
Theorem mount_seed (stored : option string) :
  saved_text stored = None →
  ∃ st, mount (initial_state stored) = inl st ∧
    view st.(heap) st.(inventoryData) = Some initialData ∧
    st.(storage) = Some (snapshot initialData) ∧
    Forall (λ it, it.(initialQty) = Some it.(inventoryQty)) initialData.
Proof.
  intros Hs. destruct (mount_spec stored initialData) as (st & Hm & _ & Hv & Hst & _).
  { unfold loaded. by rewrite Hs. }
  exists st. split_and!; [done|done|done|]. unfold initialData. by repeat constructor.
Qed.

(** C9: Between the first commit and the re-render with the loaded
    array, the save effect of the first render has overwritten the
    storage with the text ["[]"]: whatever was stored, the storage holds
    an empty inventory until the second render's effect writes the data
    back. *)
Theorem mount_effects_clobber (stored : option string) (src : list Item) :
  loaded stored = inl src →
  ∃ st1 a, mount_effects (initial_state stored) = inl (st1, a) ∧ st1.(storage) = Some "[]".
Proof.
  intros Hsrc. unfold mount_effects, load_effect. simpl. rewrite Hsrc. simpl.
  destruct (alloc src ∅ 1) as [[a h] n]. by eexists _, _.
Qed.

(** C10: Under StrictMode's double run of the mount effects, the second
    load reads the ["[]"] the first save wrote: the component shows no
    item and stores ["[]"], losing the stored inventory. *)
Theorem mount_strict_loses_data (xs : list Item) :
  ∃ st, mount_strict (initial_state (Some (snapshot xs))) = inl st ∧
    view st.(heap) st.(inventoryData) = Some [] ∧ st.(storage) = Some "[]".
Proof.
  unfold mount_strict, mount_effects, load_effect. cbn -[loaded alloc snapshot].
  rewrite loaded_snapshot. cbn -[loaded alloc snapshot].
  destruct (alloc xs ∅ 1) as [[a h] n]. cbn -[loaded alloc snapshot].
  rewrite loaded_snapshot. simpl. by eexists.
Qed.

(** C26: A stored entry that [JSON.parse] rejects (a truncated or
    hand-edited entry) makes the mount crash: the load effect throws
    before any save, so the entry stays as it is and every later mount,
    StrictMode's included, crashes again. *)
Theorem mount_corrupt (s : string) :
  s ≠ "" → parse s = inr SyntaxError →
  mount_effects (initial_state (Some s)) = inr SyntaxError ∧
  mount (initial_state (Some s)) = inr SyntaxError ∧
  mount_strict (initial_state (Some s)) = inr SyntaxError.
Proof.
  intros Hne Hs. apply mount_error.
  unfold loaded, saved_text. destruct (String.eqb_spec s ""); [done|].
  unfold load_text. by rewrite Hs.
Qed.

(** C8: The [onload] of a reader works through the array its render
    captured, yet in a reachable state that array holds the current
    references: the image lands on the current item, the stock changes
    made since the file was picked are kept, and the storage receives the
    result. *)
Theorem image_load_current (st : AppState) (n : nat) (r : Reader) (xs : list Item) (it : Item) :
  reachable st → st.(readers) !! n = Some r →
  view st.(heap) st.(inventoryData) = Some xs → xs !! r.(rd_index) = Some it →
  let '(st', o) := step (ImageLoad n) st in
  o = Done ∧
  view st'.(heap) st'.(inventoryData) = Some (<[r.(rd_index) := set_image r.(rd_result) it]> xs) ∧
  st'.(storage) = Some (snapshot (<[r.(rd_index) := set_image r.(rd_result) it]> xs)).
Proof.
  intros Hreach%reach_inv Hr Hv Hit.
  destruct (view_index st xs _ it Hv Hit) as (l & Hl & Hh).
  rewrite (image_load_commit st n r l it) by done.
  destruct (commit_write (set_readers (delete n (readers st)) st) (inventoryData st)
              (rd_index r) l (set_image (rd_result r) it) xs) as (H1 & H2 & H3);
    [apply Hreach|done|done|].
  change (heap (set_readers ?rs st)) with (heap st) in H1, H2, H3.
  by rewrite H1, H2, H3.
Qed.

Lemma reachable_app_inv_witness : app_inv demo_mounted.
Proof. apply (reachable_app_inv demo_mounted). apply demo_mounted_reachable. Defined.

Lemma reload_roundtrip_witness :
  ∃ xs st', demo_mounted.(storage) = Some (snapshot xs) ∧
    view demo_mounted.(heap) demo_mounted.(inventoryData) = Some xs ∧
    mount (initial_state demo_mounted.(storage)) = inl st' ∧ view st'.(heap) st'.(inventoryData) = Some xs.
Proof. apply (reload_roundtrip demo_mounted). apply demo_mounted_reachable. Defined.

Lemma mount_seed_witness :
  ∃ st, mount (initial_state (Some "")) = inl st ∧
    view st.(heap) st.(inventoryData) = Some initialData ∧
    st.(storage) = Some (snapshot initialData) ∧
    Forall (λ it, it.(initialQty) = Some it.(inventoryQty)) initialData.
Proof. apply (mount_seed (Some "")). reflexivity. Defined.

Lemma mount_effects_clobber_witness :
  ∃ st1 a, mount_effects (initial_state (Some (snapshot [a1]))) = inl (st1, a) ∧ st1.(storage) = Some "[]".
Proof. apply (mount_effects_clobber (Some (snapshot [a1])) [a1]). vm_compute. reflexivity. Defined.

Lemma mount_corrupt_witness :
  mount_effects (initial_state (Some "[{")) = inr SyntaxError ∧
  mount (initial_state (Some "[{")) = inr SyntaxError ∧
  mount_strict (initial_state (Some "[{")) = inr SyntaxError.
Proof. apply (mount_corrupt "[{"); [discriminate|vm_compute; reflexivity]. Defined.

Lemma image_load_current_witness :
  let r := mkReader [Loc 1] 0 "data:image/png;base64,AA" in
  let '(st', o) := step (ImageLoad 0) demo_pending in
  o = Done ∧
  view st'.(heap) st'.(inventoryData) =
    Some (<[0 := set_image "data:image/png;base64,AA" (stock_in_item 20 "t2" a1)]> [stock_in_item 20 "t2" a1]) ∧
  st'.(storage) =
    Some (snapshot (<[0 := set_image "data:image/png;base64,AA" (stock_in_item 20 "t2" a1)]> [stock_in_item 20 "t2" a1])).
Proof.
  apply (image_load_current demo_pending 0 (mkReader [Loc 1] 0 "data:image/png;base64,AA")
           [stock_in_item 20 "t2" a1] (stock_in_item 20 "t2" a1)); [|vm_compute; reflexivity..].
  apply (reach_step (StockIn 0 (Some "20") "t2")), (reach_step (ImagePick 0 (Some "data:image/png;base64,AA"))).
  apply demo_mounted_reachable.
Defined.

(** C30: Liveness and effect of the image upload: from any reachable
    state, the [onload] events of the pending readers, one per reader in
    the order the files were picked, empty the queue; each writes its
    data URL onto the item at its index of the current items (a later
    pick of the same item wins, an index past the end changes nothing),
    and the storage receives the final items. *)
Theorem readers_drain (st : AppState) (xs : list Item) :
  reachable st → view st.(heap) st.(inventoryData) = Some xs →
  (run (replicate (length st.(readers)) (ImageLoad 0)) st).1.(readers) = [] ∧
  view (run (replicate (length st.(readers)) (ImageLoad 0)) st).1.(heap)
       (run (replicate (length st.(readers)) (ImageLoad 0)) st).1.(inventoryData) =
    Some (foldl load_image xs st.(readers)) ∧
  (run (replicate (length st.(readers)) (ImageLoad 0)) st).1.(storage) =
    Some (snapshot (foldl load_image xs st.(readers))).
Proof.
  intros Hst Hv.
  pose proof (run_loads_view _ st xs (reach_inv _ Hst) eq_refl Hv) as Hv'.
  destruct (reach_inv _ (run_reachable (replicate (length st.(readers)) (ImageLoad 0)) st Hst))
    as (_ & (ys & Hys & _ & Hs) & _).
  rewrite Hv' in Hys. injection Hys as <-.
  split_and!; [rewrite run_loads_readers; apply drop_all|done|done].
Qed.

(** Two readers, one picked before and one after a stock-in of 20 on
    [a1]: both images are written in pick order, and the stock-in stays. *)
Lemma readers_drain_witness :
  let st := (step (ImagePick 0 (Some "data:b")) demo_pending).1 in
  view st.(heap) st.(inventoryData) = Some [stock_in_item 20 "t2" a1] ∧
  (run (replicate (length st.(readers)) (ImageLoad 0)) st).1.(readers) = [] ∧
  view (run (replicate (length st.(readers)) (ImageLoad 0)) st).1.(heap)
       (run (replicate (length st.(readers)) (ImageLoad 0)) st).1.(inventoryData) =
    Some (foldl load_image [stock_in_item 20 "t2" a1] st.(readers)) ∧
  (run (replicate (length st.(readers)) (ImageLoad 0)) st).1.(storage) =
    Some (snapshot (foldl load_image [stock_in_item 20 "t2" a1] st.(readers))) ∧
  foldl load_image [stock_in_item 20 "t2" a1] st.(readers) =
    [set_image "data:b" (set_image "data:image/png;base64,AA" (stock_in_item 20 "t2" a1))].
Proof.
  intros st. assert (view st.(heap) st.(inventoryData) = Some [stock_in_item 20 "t2" a1]) as Hv
    by (vm_compute; reflexivity).
  assert (foldl load_image [stock_in_item 20 "t2" a1] st.(readers) =
    [set_image "data:b" (set_image "data:image/png;base64,AA" (stock_in_item 20 "t2" a1))]) as Hf
    by (vm_compute; reflexivity).
  assert (reachable st) as Hr.
  { apply (reach_step (ImagePick 0 (Some "data:b"))), (reach_step (StockIn 0 (Some "20") "t2")),
      (reach_step (ImagePick 0 (Some "data:image/png;base64,AA"))).
    apply demo_mounted_reachable. }
  destruct (readers_drain st _ Hr Hv) as (H1 & H2 & H3). split_and!; assumption.
Defined.

(** The scenario of the specification (section 8): from [A1] with 100
    units, a stock-out of 95 leaves 5; a stock-out of 10 is refused and
    leaves 5; a stock-in of 20 gives 25 with the ledger [OUT 95; IN 20]. *)
Example spec_scenario :
  let '(st, os) := run [StockOut 0 (Some "95") "t1"; StockOut 0 (Some "10") "t2";
                        StockIn 0 (Some "20") "t3"] demo_mounted in
  os = [Done; Alerted msg_insufficient; Done] ∧
  view st.(heap) st.(inventoryData) = Some [stock_in_item 20 "t3" (stock_out_item 95 "t1" a1)] ∧
  st.(storage) = Some (snapshot [stock_in_item 20 "t3" (stock_out_item 95 "t1" a1)]) ∧
  (stock_in_item 20 "t3" (stock_out_item 95 "t1" a1)).(inventoryQty) = 25%Z ∧
  (stock_in_item 20 "t3" (stock_out_item 95 "t1" a1)).(history) =
    [mkEntry OUT 95 "t1"; mkEntry IN 20 "t3"].
Proof. vm_compute. split_and!; reflexivity. Qed.

End App.
