(* ===== verification/Quota.v ===== *)
(** The save effect when [localStorage.setItem] fails (src/App.jsx line
    85).  The browser refuses a value that does not fit in the origin's
    quota: [setItem] throws a [QuotaExceededError] and keeps the entry it
    held.  The effect does not catch it, so the error leaves the commit
    and React unmounts the component.  This file models the quota test as
    a parameter [fits] of a section, and the save effect, the events and
    the mount as partial steps that either go on or stop with the text
    left in the storage. *)

From S2P Require Import Prelude Item Json Snapshot Store App.

Module Quota.
Import Item Json Snapshot Store App.

(** The text the save effect of line 85 writes after an event, when the
    event calls [setInventoryData]: stock-in and stock-out past their
    guards, and a [FileReader] load that finds its item.  The other
    events leave [inventoryData] alone, and the effect does not run. *)
Definition step_write (ev : event) (st : AppState) : option string :=
  let committed := match (step ev st).2 with Done => (step ev st).1.(storage) | _ => None end in
  match ev with
  | StockIn _ _ _ | StockOut _ _ _ => committed
  | ImageLoad n => match st.(readers) !! n with Some _ => committed | None => None end
  | _ => None
  end.

(** A step either goes on, or stops when the save effect throws, with the
    storage as [setItem] left it. *)
Inductive sresult := SOk (st : AppState) (o : outcome) | SQuota (stored : option string).

(** A mount either ends with a state, with the error [JSON.parse] stopped
    it with, or with the storage a throwing [setItem] left. *)
Inductive mresult := MOk (st : AppState) | MParse (e : perror) | MQuota (stored : option string).

Section Quota.
(** [fits t]: the browser accepts [t] as the new value of the entry. *)
Variable fits : string → bool.

(** The quota test of the write that produced [st]'s storage. *)
Definition fits_storage (st : AppState) : bool :=
  match st.(storage) with Some t => fits t | None => true end.

(** An event followed by the save effect of its commit. *)
Definition step_q (ev : event) (st : AppState) : sresult :=
  match step_write ev st with
  | Some t => if fits t then SOk (step ev st).1 (step ev st).2 else SQuota st.(storage)
  | None => SOk (step ev st).1 (step ev st).2
  end.

(** The mount of [App.mount] with both saves under the quota: the save
    of the first commit writes ["[]"], the save of the render of the
    loaded array writes its snapshot. *)
Definition mount_q (st : AppState) : mresult :=
  match load_effect st with
  | inr e => MParse e
  | inl (a, st1) =>
      let st2 := save st.(inventoryData) st1 in
      if fits_storage st2 then
        let st3 := commit a st2 in
        if fits_storage st3 then MOk st3 else MQuota st2.(storage)
      else MQuota st1.(storage)
  end.

(** The states of a mounted component that has not crashed. *)
Inductive reachable_q : AppState → Prop :=
| rq_mount stored st :
    snapshot_ok stored → mount_q (initial_state stored) = MOk st → reachable_q st
| rq_step ev st st' o : reachable_q st → step_q ev st = SOk st' o → reachable_q st'.

End Quota.

(** A quota of [n] characters, for the examples. *)
Definition fits_under (n : nat) (t : string) : bool := String.length t <=? n.

(** * Lemmas *)

Lemma step_write_storage ev st t :
  step_write ev st = Some t → (step ev st).1.(storage) = Some t.
Proof.
  unfold step_write. destruct (step ev st) as [st' o]; simpl.
  destruct o; destruct ev; try destruct (readers st !! _); done.
Qed.

(** An event that does not commit leaves the storage alone. *)
Lemma step_nowrite ev st :
  step_write ev st = None → (step ev st).1.(storage) = st.(storage).
Proof.
  unfold step_write. destruct ev as [i ans now|i ans now|i file|n|s|w|g|]; simpl; try done.
  - unfold handleStockIn. repeat case_match; simplify_eq/=; try done.
    unfold commit, save; simpl. by case_match.
  - unfold handleStockOut. repeat case_match; simplify_eq/=; try done.
    unfold commit, save; simpl. by case_match.
  - unfold handleImageUpload. by case_match.
  - destruct (readers st !! n) as [r|]; [|done]. unfold reader_onload.
    repeat case_match; simplify_eq/=; try done.
    unfold commit, save; simpl. by case_match.
Qed.

Section Lemmas.
Variable fits : string → bool.

(** A step that goes on is the step of [App.step], and the storage it
    leaves passed the quota test if the one before it did. *)
Lemma step_q_ok ev st st' o :
  step_q fits ev st = SOk st' o →
  step ev st = (st', o) ∧ (fits_storage fits st = true → fits_storage fits st' = true).
Proof.
  unfold step_q, fits_storage. destruct (step_write ev st) as [t|] eqn:Hw.
  - pose proof (step_write_storage _ _ _ Hw) as Hs.
    destruct (fits t) eqn:Hf; [|done]. intros [= <- <-].
    rewrite Hs, Hf. by destruct (step ev st).
  - intros [= <- <-]. rewrite (step_nowrite _ _ Hw). by destruct (step ev st).
Qed.

(** A mount that goes on is [App.mount], and its storage passed the quota. *)
Lemma mount_q_ok st st' :
  mount_q fits st = MOk st' → mount st = inl st' ∧ fits_storage fits st' = true.
Proof.
  unfold mount_q, mount, mount_effects. destruct (load_effect st) as [[a st1]|e]; [|done].
  destruct (fits_storage fits (save _ st1)); [|done].
  destruct (fits_storage fits (commit a _)) eqn:Hf; [|done]. by intros [= <-].
Qed.

(** The mount under the quota, from a stored entry that loads: the save
    of the first commit is tested with ["[]"], the save of the loaded
    array with its snapshot. *)
Lemma mount_q_spec stored src :
  loaded stored = inl src →
  ∃ st, mount (initial_state stored) = inl st ∧ st.(storage) = Some (snapshot src) ∧
    mount_q fits (initial_state stored) =
      if fits (snapshot []) then (if fits (snapshot src) then MOk st else MQuota (Some (snapshot [])))
      else MQuota stored.
Proof.
  intros Hsrc. unfold mount_q, mount, mount_effects, load_effect. simpl. rewrite Hsrc. simpl.
  pose proof (alloc_spec src ∅ 1) as Halloc.
  destruct (alloc src ∅ 1) as [[a h] n]. destruct Halloc as (Hv & _); [done|].
  eexists; split_and!; [reflexivity| |]; unfold fits_storage, commit, save; simpl; by rewrite ?Hv.
Qed.

Lemma rq_reachable st : reachable_q fits st → reachable st ∧ fits_storage fits st = true.
Proof.
  induction 1 as [stored st Hok Hm|ev st st' o _ [IH IHf] Hs].
  - destruct (mount_q_ok _ _ Hm). split; [by eapply reach_mount|done].
  - destruct (step_q_ok _ _ _ _ Hs) as [Heq Hf]. split; [|by apply Hf].
    replace st' with (step ev st).1 by by rewrite Heq. by apply reach_step.
Qed.

(** The invariant with the quota test of the stored text. *)
Lemma rq_inv st :
  reachable_q fits st →
  app_inv st ∧ ∃ xs, view st.(heap) st.(inventoryData) = Some xs ∧
    st.(storage) = Some (snapshot xs) ∧ fits (snapshot xs) = true.
Proof.
  intros [Hr Hf]%rq_reachable. pose proof (reach_inv _ Hr) as Hinv. split; [done|].
  destruct Hinv as (_ & (xs & Hv & _ & Hs) & _).
  exists xs. unfold fits_storage in Hf. by rewrite Hs in Hf.
Qed.

(** ** Properties *)

(** C11: A save the quota refuses is fatal and undoes the event for good:
    when an event commits a text the browser refuses, the component
    stops, the storage keeps the snapshot of the items before the event,
    and a reload mounts those items.  The spec asks for a reported,
    non-fatal [PersistenceFailure] that keeps the user's action. *)
Theorem quota_crash_rollback (ev : event) (st : AppState) (t : string) :
  reachable_q fits st → step_write ev st = Some t → fits t = false →
  ∃ xs st', view st.(heap) st.(inventoryData) = Some xs ∧
    step_q fits ev st = SQuota (Some (snapshot xs)) ∧
    mount (initial_state (Some (snapshot xs))) = inl st' ∧
    view st'.(heap) st'.(inventoryData) = Some xs.
Proof.
  intros Hq Hw Hf. destruct (rq_inv _ Hq) as [_ (xs & Hv & Hs & _)].
  destruct (mount_spec (Some (snapshot xs)) xs) as (st' & Hm & _ & Hv' & _); [apply loaded_snapshot|].
  exists xs, st'. unfold step_q. by rewrite Hw, Hf, Hs.
Qed.

(** C12: The mount wipes the stored inventory when its snapshot no longer
    fits: the save of the first commit replaces the entry by ["[]"], the
    save of the loaded array is refused, the component stops, and the
    next mount loads the empty list. *)
Theorem mount_quota_wipes (stored : option string) (src : list Item) :
  loaded stored = inl src → fits (snapshot []) = true → fits (snapshot src) = false →
  mount_q fits (initial_state stored) = MQuota (Some (snapshot [])) ∧
  loaded (Some (snapshot [])) = inl [].
Proof.
  intros Hsrc H0 H1. destruct (mount_q_spec _ _ Hsrc) as (st & _ & _ & ->).
  rewrite H0, H1. split; [done|apply loaded_snapshot].
Qed.

End Lemmas.

(** ** Examples *)

(** The store holding [a1] mounts under a quota of 373 characters, the
    length of its snapshot. *)
Lemma demo_mounted_q :
  snapshot_ok (Some (snapshot [a1])) ∧
  mount_q (fits_under 373) (initial_state (Some (snapshot [a1]))) = MOk demo_mounted.
Proof. split; [apply demo_mounted_ok|vm_compute; reflexivity]. Qed.

Lemma demo_reachable_q : reachable_q (fits_under 373) demo_mounted.
Proof. apply (rq_mount _ (Some (snapshot [a1]))); apply demo_mounted_q. Qed.

(** The event of the examples: 20 units of [a1] stocked in. *)
Definition demo_stock_in : event := StockIn 0 (Some "20") "t2".

(** Stocking in adds a ledger entry, and the new snapshot exceeds the
    quota: the component stops and the storage keeps [a1] at 100 units. *)
Lemma quota_crash_rollback_witness :
  let t := default "" (step_write demo_stock_in demo_mounted) in
  step_write demo_stock_in demo_mounted = Some t ∧ fits_under 373 t = false ∧
  ∃ xs st', view demo_mounted.(heap) demo_mounted.(inventoryData) = Some xs ∧
    step_q (fits_under 373) demo_stock_in demo_mounted = SQuota (Some (snapshot xs)) ∧
    mount (initial_state (Some (snapshot xs))) = inl st' ∧
    view st'.(heap) st'.(inventoryData) = Some xs.
Proof.
  intros t. assert (step_write demo_stock_in demo_mounted = Some t) as Hw by (vm_compute; reflexivity).
  assert (fits_under 373 t = false) as Hf by (vm_compute; reflexivity).
  split_and!; [exact Hw|exact Hf|].
  apply (quota_crash_rollback (fits_under 373) demo_stock_in demo_mounted t demo_reachable_q Hw Hf).
Defined.

Lemma mount_quota_wipes_witness :
  mount_q (fits_under 100) (initial_state (Some (snapshot [a1]))) = MQuota (Some (snapshot [])) ∧
  loaded (Some (snapshot [])) = inl [].
Proof.
  apply (mount_quota_wipes (fits_under 100) (Some (snapshot [a1])) [a1]);
    [apply loaded_snapshot|vm_compute; reflexivity|vm_compute; reflexivity].
Defined.

End Quota.

