(* ===== verification/Aggregate.v ===== *)
(** The values derived from the inventory on every render (src/App.jsx
    lines 88-93): the warehouse and grouping options, [totalItems],
    [totalStock] and [lowStockCount].  They are functions of the list of
    items on screen (the view of the array).  A JavaScript [Set] keeps
    its elements in insertion order, so [[...new Set(xs)]] is the list of
    first occurrences. *)

From S2P Require Import Prelude Item Double Store.

Module Aggregate.
Import Item Store.

(** [Set.prototype.add]: a value already present is not added again. *)
Definition set_add (s : list string) (x : string) : list string :=
  if bool_decide (x ∈ s) then s else s ++ [x].

(** [[...new Set(xs)]] *)
Definition new_Set (xs : list string) : list string := fold_left set_add xs [].

(** Line 88. *)
Definition warehouseOptions (data : list Item) : list string := new_Set (warehouseName <$> data).

(** Line 89. *)
Definition groupingOptions (data : list Item) : list string := new_Set (materialGrouping <$> data).

(** Line 91. *)
Definition totalItems (data : list Item) : nat := length data.

(** Line 92: [reduce((sum, item) => sum + item.inventoryQty, 0)]. *)
Definition totalStock (data : list Item) : Z :=
  fold_left (λ sum item, sum + item.(inventoryQty))%Z data 0%Z.

(** The test of line 93, [item.inventoryQty < item.initialQty * 0.1], in
    double arithmetic; an absent [initialQty] gives NaN, and a comparison
    with NaN is false. *)
Definition isLowStock (it : Item) : bool :=
  match it.(initialQty) with
  | Some i => Double.lt (Double.of_Z it.(inventoryQty)) (Double.mul (Double.of_Z i) Double.tenth)
  | None => false
  end.

(** The same test on integers, [10 * inventoryQty < initialQty]. *)
Definition isLowStock_int (it : Item) : bool :=
  match it.(initialQty) with
  | Some i => (10 * it.(inventoryQty) <? i)%Z
  | None => false
  end.

(** The quantities of an item are integers that a double holds exactly,
    and its initial quantity is not negative. *)
Definition exact_item (it : Item) : Prop :=
  (Z.abs it.(inventoryQty) < 2 ^ 53)%Z ∧ ∀ i, it.(initialQty) = Some i → (0 ≤ i < 2 ^ 53)%Z.

(** Line 93. *)
Definition lowStockCount (data : list Item) : nat := length (List.filter isLowStock data).

(** ** Lemmas *)

Lemma fold_set_add_sublist xs acc :
  ∃ ys, fold_left set_add xs acc = acc ++ ys ∧ sublist ys xs.
Proof.
  revert acc. induction xs as [|x xs IH]; intros acc; simpl.
  - exists []. by rewrite app_nil_r.
  - unfold set_add at 2. case_bool_decide.
    + destruct (IH acc) as (ys & -> & Hs). exists ys. split; [done|]. by apply sublist_cons.
    + destruct (IH (acc ++ [x])) as (ys & -> & Hs). exists (x :: ys).
      rewrite <-app_assoc. split; [done|]. by apply sublist_skip.
Qed.

Lemma fold_set_add_NoDup xs acc : NoDup acc → NoDup (fold_left set_add xs acc).
Proof.
  revert acc. induction xs as [|x xs IH]; intros acc Hacc; simpl; [done|].
  apply IH. unfold set_add. case_bool_decide; [done|].
  apply NoDup_app. split_and!; [done| |by apply NoDup_singleton]. set_solver.
Qed.

Lemma fold_set_add_elem xs acc x : x ∈ fold_left set_add xs acc ↔ x ∈ acc ∨ x ∈ xs.
Proof.
  revert acc. induction xs as [|y xs IH]; intros acc; simpl; [set_solver|].
  rewrite IH. unfold set_add. case_bool_decide; set_solver.
Qed.

Lemma elem_of_new_Set xs x : x ∈ new_Set xs ↔ x ∈ xs.
Proof. unfold new_Set. rewrite fold_set_add_elem. set_solver. Qed.

(** [[...new Set(xs)]] read from its last element: JavaScript's [Set]
    iterates in insertion order, and adding a present value keeps its
    first position. *)
Lemma new_Set_snoc xs x :
  new_Set (xs ++ [x]) = if bool_decide (x ∈ xs) then new_Set xs else new_Set xs ++ [x].
Proof.
  unfold new_Set at 1. rewrite fold_left_app. simpl. fold (new_Set xs). unfold set_add.
  by rewrite (bool_decide_ext _ _ (elem_of_new_Set xs x)).
Qed.

(** On exact items the double test is the integer test. *)
Lemma isLowStock_exact it : exact_item it → isLowStock it = isLowStock_int it.
Proof.
  intros [Hq Hi]. unfold isLowStock, isLowStock_int.
  destruct (initialQty it) as [i|]; [|done]. apply Double.lt_tenth; [by apply Hi|done].
Qed.

(** A stock-in and a stock-out of the same quantity within the exact
    range leave the item in it. *)
Lemma exact_item_stock it q now :
  (0 < q)%Z → exact_item (stock_in_item q now it) → exact_item (stock_out_item q now it) →
  exact_item it.
Proof. intros Hq [Hin Hi] [Hout _]. simpl in *. split; [lia|done]. Qed.

Lemma totalStock_sumZ data : totalStock data = sumZ inventoryQty data.
Proof. unfold totalStock. rewrite (fold_left_sumZ inventoryQty). lia. Qed.

(** ** Properties *)

(** C20: The option lists of lines 88-89 are the distinct warehouse
    names and groupings in the order of their first occurrence: empty for
    no item, and an item appended to the list adds its value at the end
    exactly when no earlier item has it. *)
Theorem options_first_seen (xs : list Item) (it : Item) :
  warehouseOptions [] = [] ∧ groupingOptions [] = [] ∧
  warehouseOptions (xs ++ [it]) =
    (if bool_decide (it.(warehouseName) ∈ warehouseName <$> xs) then warehouseOptions xs
     else warehouseOptions xs ++ [it.(warehouseName)]) ∧
  groupingOptions (xs ++ [it]) =
    (if bool_decide (it.(materialGrouping) ∈ materialGrouping <$> xs) then groupingOptions xs
     else groupingOptions xs ++ [it.(materialGrouping)]).
Proof.
  unfold warehouseOptions, groupingOptions. rewrite !fmap_app. split_and!; [done|done|..];
    apply new_Set_snoc.
Qed.

Example warehouseOptions_seed :
  warehouseOptions initialData =
    ["Pulp Tray (Consumable Material)"; "Pulp Tray (Finished Product)"].
Proof. reflexivity. Qed.

(** A stock-in of [q] on an item of the list raises [totalStock]
    by [q], a stock-out lowers it by [q], and [totalItems] does not
    change. *)
Theorem totalStock_stock (xs : list Item) (i : nat) (it : Item) (q : Z) (now : string) :
  xs !! i = Some it →
  totalStock (<[i := stock_in_item q now it]> xs) = (totalStock xs + q)%Z ∧
  totalStock (<[i := stock_out_item q now it]> xs) = (totalStock xs - q)%Z ∧
  totalItems (<[i := stock_in_item q now it]> xs) = totalItems xs ∧
  totalItems (<[i := stock_out_item q now it]> xs) = totalItems xs.
Proof.
  intros Hi. unfold totalItems. rewrite !totalStock_sumZ, !(sumZ_insert _ _ _ _ it), !length_insert by done.
  simpl. split_and!; lia.
Qed.

Lemma totalStock_stock_witness :
  totalStock (<[0 := stock_in_item 20 "t" a1]> [a1]) = (totalStock [a1] + 20)%Z ∧
  totalStock (<[0 := stock_out_item 20 "t" a1]> [a1]) = (totalStock [a1] - 20)%Z ∧
  totalItems (<[0 := stock_in_item 20 "t" a1]> [a1]) = totalItems [a1] ∧
  totalItems (<[0 := stock_out_item 20 "t" a1]> [a1]) = totalItems [a1].
Proof. apply (totalStock_stock [a1] 0 a1 20 "t"). reflexivity. Defined.

(** A record whose initial quantity is 0 is never counted as low
    on stock while its quantity is not negative (0 is never below
    [0 * 0.1]), and a record without [initialQty] is never counted. *)
Theorem isLowStock_zero_initial (it : Item) :
  (it.(initialQty) = Some 0%Z → (0 ≤ it.(inventoryQty) < 2 ^ 53)%Z → isLowStock it = false) ∧
  (it.(initialQty) = None → isLowStock it = false).
Proof.
  split; intros Hi; [|by unfold isLowStock; rewrite Hi]. intros Hq.
  rewrite isLowStock_exact.
  - unfold isLowStock_int. rewrite Hi. apply Z.ltb_ge. lia.
  - split; [lia|]. intros i. rewrite Hi. intros [= <-]. lia.
Qed.

Lemma isLowStock_zero_initial_witness :
  isLowStock (with_initialQty (set_inventoryQty 0 a1)) = false ∧ isLowStock (hd a1 seedLiteral) = false.
Proof.
  split.
  - apply (proj1 (isLowStock_zero_initial _)); [reflexivity|simpl; lia].
  - apply (proj2 (isLowStock_zero_initial (hd a1 seedLiteral))). reflexivity.
Defined.

(** C19: While the quantities stay in the range a double holds exactly,
    a stock-in never raises [lowStockCount] and a stock-out never lowers
    it. *)
Theorem lowStockCount_stock (xs : list Item) (i : nat) (it : Item) (q : Z) (now : string) :
  xs !! i = Some it → (0 < q)%Z →
  exact_item (stock_in_item q now it) → exact_item (stock_out_item q now it) →
  lowStockCount (<[i := stock_in_item q now it]> xs) ≤ lowStockCount xs ∧
  lowStockCount xs ≤ lowStockCount (<[i := stock_out_item q now it]> xs).
Proof.
  intros Hi Hq Hin_ex Hout_ex. unfold lowStockCount.
  pose proof (length_filter_insert isLowStock xs i (stock_in_item q now it) it Hi) as Hin.
  pose proof (length_filter_insert isLowStock xs i (stock_out_item q now it) it Hi) as Hout.
  rewrite !isLowStock_exact in Hin, Hout by (done || by eapply exact_item_stock).
  unfold isLowStock_int in Hin, Hout. simpl in Hin, Hout.
  destruct (initialQty it); [|lia]. js_cases; lia.
Qed.

Lemma lowStockCount_stock_witness :
  lowStockCount (<[0 := stock_in_item 20 "t" a1]> [a1]) ≤ lowStockCount [a1] ∧
  lowStockCount [a1] ≤ lowStockCount (<[0 := stock_out_item 20 "t" a1]> [a1]).
Proof.
  apply (lowStockCount_stock [a1] 0 a1 20 "t"); [reflexivity|lia| |];
    (split; [simpl; lia|intros j Hj; simplify_eq/=; lia]).
Defined.

(** C31: On items in the exact range, [lowStockCount] counts the items
    with [10 * inventoryQty < initialQty]: the double test of line 93
    agrees with the integer test. *)
Theorem lowStockCount_exact (xs : list Item) :
  Forall exact_item xs → lowStockCount xs = length (List.filter isLowStock_int xs).
Proof.
  induction 1 as [|x xs Hx _ IH]; [done|]. unfold lowStockCount in *. simpl.
  rewrite isLowStock_exact by done. by destruct (isLowStock_int x); simpl; rewrite IH.
Qed.

Lemma lowStockCount_exact_witness :
  lowStockCount initialData = length (List.filter isLowStock_int initialData).
Proof.
  apply (lowStockCount_exact initialData).
  unfold initialData. apply Forall_fmap, Forall_forall. intros x Hx. unfold seedLiteral in Hx.
  repeat (apply elem_of_cons in Hx as [->|Hx]);
    [..|by apply not_elem_of_nil in Hx];
    (split; [simpl; lia|intros j Hj; simplify_eq/=; lia]).
Defined.

Example lowStock_scenario :
  lowStockCount [stock_out_item 95 "t1" a1] = 1 ∧ lowStockCount [a1] = 0 ∧
  lowStockCount initialData = 0.
Proof. split_and!; reflexivity. Qed.

End Aggregate.
