(* ===== verification/Filter.v ===== *)
(** The filter of src/App.jsx lines 95-102: an item is shown when the
    lower-cased search text occurs in its lower-cased name or code, and
    the warehouse and grouping filters are empty or equal to its values.
    The three tests are combined with [&&] in that order. *)

From S2P Require Import Prelude Item JsString Aggregate.

Module Filter.
Import Item JsString Aggregate.

(** [matchesSearch] (lines 96-98). *)
Definition matchesSearch (searchTerm : string) (it : Item) : bool :=
  includes (toLowerCase it.(materialName)) (toLowerCase searchTerm) ||
  includes (toLowerCase it.(materialCode)) (toLowerCase searchTerm).

(** [matchesWarehouse] (line 99); [===] on strings. *)
Definition matchesWarehouse (filterWarehouse : string) (it : Item) : bool :=
  bool_decide (filterWarehouse = "") || bool_decide (it.(warehouseName) = filterWarehouse).

(** [matchesGrouping] (line 100). *)
Definition matchesGrouping (filterGrouping : string) (it : Item) : bool :=
  bool_decide (filterGrouping = "") || bool_decide (it.(materialGrouping) = filterGrouping).

(** The callback of [inventoryData.filter] (lines 95-102). *)
Definition keep (searchTerm filterWarehouse filterGrouping : string) (it : Item) : bool :=
  matchesSearch searchTerm it && matchesWarehouse filterWarehouse it &&
  matchesGrouping filterGrouping it.

(** [filteredData] (line 95). *)
Definition filteredData (searchTerm filterWarehouse filterGrouping : string)
    (data : list Item) : list Item :=
  List.filter (keep searchTerm filterWarehouse filterGrouping) data.

Lemma filteredData_none s w g data :
  (∀ it, it ∈ data → keep s w g it = false) → filteredData s w g data = [].
Proof.
  induction data as [|it data IH]; intros Hk; [done|]. simpl.
  rewrite Hk by set_solver. apply IH. set_solver.
Qed.

Lemma elem_of_filteredData s w g data it :
  it ∈ filteredData s w g data ↔ it ∈ data ∧ keep s w g it = true.
Proof. apply elem_of_filterb. Qed.

(** ** Properties *)

(** C17: An item is shown exactly when it is in the list, the
    lower-cased search text is a substring of its lower-cased name or
    code, the warehouse filter is empty or equals its warehouse, and the
    grouping filter is empty or equals its grouping. *)
Theorem filteredData_spec (s w g : string) (data : list Item) (it : Item) :
  it ∈ filteredData s w g data ↔
  it ∈ data ∧
  ((∃ a b, toLowerCase it.(materialName) = a +:+ toLowerCase s +:+ b) ∨
   (∃ a b, toLowerCase it.(materialCode) = a +:+ toLowerCase s +:+ b)) ∧
  (w = "" ∨ it.(warehouseName) = w) ∧ (g = "" ∨ it.(materialGrouping) = g).
Proof.
  rewrite elem_of_filteredData. unfold keep, matchesSearch, matchesWarehouse, matchesGrouping.
  rewrite !andb_true_iff, !orb_true_iff, !includes_spec, !bool_decide_eq_true. tauto.
Qed.

(** With the three criteria empty, the filter shows every item in
    the original order. *)
Theorem filteredData_empty (data : list Item) : filteredData "" "" "" data = data.
Proof.
  unfold filteredData. induction data as [|it data IH]; [done|]. cbn [List.filter].
  assert (keep "" "" "" it = true) as ->; [|by rewrite IH].
  unfold keep, matchesSearch, matchesWarehouse, matchesGrouping. cbn [toLowerCase].
  rewrite includes_empty. reflexivity.
Qed.

(** C21: Every warehouse the option list offers selects at least one
    item: filtering on it with no other criterion is never empty. *)
Theorem warehouseOption_nonempty (data : list Item) (w : string) :
  w ∈ warehouseOptions data → filteredData "" w "" data ≠ [].
Proof.
  unfold warehouseOptions. rewrite elem_of_new_Set. intros Hw.
  apply list_elem_of_fmap in Hw as (it & -> & Hit).
  intros Hnil. assert (it ∈ filteredData "" (warehouseName it) "" data) as Hin.
  { apply elem_of_filteredData. split; [done|].
    unfold keep, matchesSearch, matchesWarehouse, matchesGrouping. cbn [toLowerCase].
    rewrite includes_empty. simpl. by rewrite (bool_decide_eq_true_2 (warehouseName it = warehouseName it)), orb_true_r. }
  rewrite Hnil in Hin. set_solver.
Qed.

Lemma warehouseOption_nonempty_witness :
  filteredData "" "Pulp Tray (Finished Product)" "" initialData ≠ [].
Proof. apply (warehouseOption_nonempty initialData). vm_compute. by right; left. Defined.

(** The search is case-insensitive: lower-casing the search text does
    not change the result. *)
Lemma filteredData_lower (s w g : string) (data : list Item) :
  filteredData (toLowerCase s) w g data = filteredData s w g data.
Proof. unfold filteredData, keep, matchesSearch. by rewrite toLowerCase_idem. Qed.

Example filteredData_seed :
  (materialCode <$> filteredData "mccb" "" "" initialData) = ["9.04.009449"] ∧
  (materialCode <$> filteredData "" "" "Pulp" initialData) = ["1465.Z.0021"] ∧
  (materialCode <$> filteredData "9.0" "Pulp Tray (Consumable Material)" "" initialData) =
    ["9.04.009449"; "9.07.011003"].
Proof. split_and!; reflexivity. Qed.

End Filter.
