(* ===== verification/Render.v ===== *)
(** The markup that [App] returns (src/App.jsx lines 164-215): the three
    summary cards, the search box, the two filter selects and the export
    button, with the handlers that each control is wired to.  The render
    is a function of the state; what a user can do is what the rendered
    controls dispatch.  The markup wires no control to [handleStockIn],
    [handleStockOut] or [handleImageUpload] and shows no row of
    [filteredData]: the states a user reaches keep the inventory the
    mount produced.  The options of the two selects have no [value]
    attribute: the value a select submits is the option's text with its
    ASCII whitespace stripped and collapsed.

    [Number.prototype.toLocaleString()] (line 174) depends on the
    browser's locale; the model takes the locale's group separator as a
    parameter and groups the digits by three, as the [en-US] and [id-ID]
    locales do. *)

From S2P Require Import Prelude Item JsString ParseInt Json Snapshot Store App Aggregate Filter.
From stdpp Require Import pretty.

Module Render.
Import Item JsString ParseInt Json Snapshot Store App Aggregate Filter.

#[local] Arguments String.append _ _ : simpl nomatch.

(** ** [toLocaleString] of an integer *)

Record Locale := mkLocale { group_sep : string }.

Definition en_US : Locale := mkLocale ",".
Definition id_ID : Locale := mkLocale ".".

(** The decimal digits with the separator before every group of three
    counted from the right. *)
Fixpoint group_digits (sep : string) (ds : string) : string :=
  match ds with
  | EmptyString => EmptyString
  | String c rest =>
      if bool_decide (rest ≠ EmptyString) && (String.length rest mod 3 =? 0)%nat
      then String c (sep +:+ group_digits sep rest)
      else String c (group_digits sep rest)
  end.

Definition toLocaleString (loc : Locale) (z : Z) : string :=
  match z with
  | Zneg p => "-" +:+ group_digits loc.(group_sep) (pretty (Npos p))
  | _ => group_digits loc.(group_sep) (pretty z)
  end.

(** ** The rendered view *)

Record Card := mkCard { card_label : string; card_value : string }.

(** The controls of lines 182-212 and the state update each dispatches:
    an [<input>] whose [onChange] receives the typed text, a [<select>]
    whose options are (value, label) pairs, a [<button>]. *)
Inductive Control :=
| TextInput (value placeholder : string) (onChange : string → event)
| Select (value : string) (options : list (string * string)) (onChange : string → event)
| Button (label : string) (onClick : event).

Record View := mkView {
  heading : string;
  cards : list Card;
  controls : list Control
}.

(** [<option key={idx}>{wh}</option>]: an option without a [value]
    attribute has as value its text with ASCII whitespace stripped and
    collapsed (HTML's [option.value]); the label is the text. *)
Definition option_of (x : string) : string * string := (strip_collapse x, x).

(** The render of lines 164-215 on the items of the array (the values of
    lines 88-93 are [Aggregate]'s).  A dangling reference does not occur
    in a reachable state ([App.app_inv]). *)
Definition render (loc : Locale) (st : AppState) : option View :=
  xs ← view st.(heap) st.(inventoryData);
  Some (mkView "Aplikasi Inventaris"
    [mkCard "Jumlah Item" (pretty (totalItems xs));
     mkCard "Total Stok" (toLocaleString loc (totalStock xs));
     mkCard "Stok < 10%" (pretty (lowStockCount xs))]
    [TextInput st.(searchTerm) "Cari kode atau nama..." SetSearch;
     Select st.(filterWarehouse) (("", "Semua Gudang") :: (option_of <$> warehouseOptions xs)) SetWarehouse;
     Select st.(filterGrouping) (("", "Semua Kategori") :: (option_of <$> groupingOptions xs)) SetGrouping;
     Button "Export ke Excel" ExportExcel]).

(** The events a user can cause through a rendered view: any text typed
    in an input, any option of a select, a click on a button. *)
Inductive dispatchable (vw : View) : event → Prop :=
| disp_input value ph onChange s :
    TextInput value ph onChange ∈ vw.(controls) → dispatchable vw (onChange s)
| disp_select value opts onChange o :
    Select value opts onChange ∈ vw.(controls) → o ∈ opts → dispatchable vw (onChange o.1)
| disp_click label ev :
    Button label ev ∈ vw.(controls) → dispatchable vw ev.

(** The states a user reaches from a mount through the rendered controls. *)
Inductive ui_reachable (loc : Locale) : AppState → Prop :=
| ui_mount stored st :
    snapshot_ok stored → mount (initial_state stored) = inl st → ui_reachable loc st
| ui_step st vw ev :
    ui_reachable loc st → render loc st = Some vw → dispatchable vw ev →
    ui_reachable loc (step ev st).1.

(** The decimal digits of a text, in order. *)
Fixpoint digits_of (s : string) : string :=
  match s with
  | EmptyString => EmptyString
  | String c r =>
      match radix_digit 10 c with
      | Some _ => String c (digits_of r)
      | None => digits_of r
      end
  end.

(** A copy of [a1] whose warehouse name has a leading space, as an
    entry typed by hand can have, and the component mounted on it. *)
Definition a1_spaced : Item :=
  with_initialQty (mkItem "A1" "Item A1" "" " Gudang A" "" "Pcs" 100 "Available" "" ""
                     "" "" "" "" "Grup A" "" "" [] None None).

Definition demo_spaced : AppState :=
  match mount (initial_state (Some (snapshot [a1_spaced]))) with
  | inl st => st
  | inr _ => initial_state None
  end.

(** ** Lemmas *)

(** *** Digits of a grouped number *)

Lemma digits_of_app s t : digits_of (s +:+ t) = digits_of s +:+ digits_of t.
Proof. induction s as [|c s IH]; [done|]. simpl. destruct (radix_digit 10 c); by rewrite IH. Qed.

Lemma digits_of_group sep ds :
  digits_of sep = EmptyString → digits_of (group_digits sep ds) = digits_of ds.
Proof.
  intros Hsep. induction ds as [|c ds IH]; [done|]. simpl.
  destruct (_ && _); simpl; rewrite ?digits_of_app, ?Hsep, IH; done.
Qed.

Lemma digits_of_all ds : all_digits ds = true → digits_of ds = ds.
Proof.
  induction ds as [|c ds IH]; [done|]. simpl.
  destruct (radix_digit 10 c); [|done]. intros H. by rewrite IH.
Qed.

(** The decimal text of a natural number starts with a digit and has
    only digits. *)
Lemma pretty_N_digits (n : N) :
  all_digits (pretty n) = true ∧ ∃ c r, pretty n = String c r ∧ radix_digit 10 c ≠ None.
Proof.
  destruct n as [|p]; [split; [done|by eexists _, _]|].
  split; [apply all_digits_pretty_go; done|].
  destruct (pretty_N_go_head (Npos p) "") as (d & u & Hu & Hd); [done|].
  exists (pretty_N_char d), u. split; [done|]. rewrite radix_digit_char by lia. done.
Qed.

Lemma group_digits_head sep c r : ∃ t, group_digits sep (String c r) = String c t.
Proof. simpl. destruct (_ && _); by eexists. Qed.

(** *** What the controls dispatch *)

Lemma elem_of_options x lbl o opts :
  o ∈ (x, lbl) :: (option_of <$> opts) → o.1 = x ∨ ∃ y, y ∈ opts ∧ o.1 = strip_collapse y.
Proof.
  rewrite elem_of_cons, list_elem_of_fmap. intros [->|(y & -> & Hy)]; [by left|by right; exists y].
Qed.

(** A rendered view dispatches a search text, an offered warehouse or
    grouping (or the empty one), or the export; nothing else. *)
Lemma render_dispatch loc st vw ev :
  render loc st = Some vw → dispatchable vw ev →
  ∃ xs, view st.(heap) st.(inventoryData) = Some xs ∧
    ((∃ s, ev = SetSearch s) ∨
     (∃ w, ev = SetWarehouse w ∧ (w = "" ∨ ∃ y, y ∈ warehouseOptions xs ∧ w = strip_collapse y)) ∨
     (∃ g, ev = SetGrouping g ∧ (g = "" ∨ ∃ y, y ∈ groupingOptions xs ∧ g = strip_collapse y)) ∨
     ev = ExportExcel).
Proof.
  unfold render. destruct (view st.(heap) st.(inventoryData)) as [xs|]; [|done].
  intros [= <-] Hd. exists xs. split; [done|].
  destruct Hd as [value ph onChange s Hc|value opts onChange o Hc Ho|label ev Hc]; simpl in Hc;
    repeat (apply elem_of_cons in Hc as [Hc|Hc]); try (apply not_elem_of_nil in Hc; done);
    simplify_eq.
  - left. by eexists.
  - right; left. eexists. split; [done|]. by apply elem_of_options in Ho.
  - right; right; left. eexists. split; [done|]. by apply elem_of_options in Ho.
  - by right; right; right.
Qed.

Lemma mount_filters stored st :
  mount (initial_state stored) = inl st →
  st.(searchTerm) = "" ∧ st.(filterWarehouse) = "" ∧ st.(filterGrouping) = "" ∧ st.(readers) = [].
Proof.
  unfold mount, mount_effects, load_effect. simpl.
  destruct (loaded stored) as [src|]; [|done]. simpl.
  destruct (alloc src ∅ 1) as [[a h] n]. simpl. by intros [= <-].
Qed.

(** The invariant of the states a user reaches: the inventory, the heap,
    the storage are those of the mount, no reader is pending, and each
    filter is empty or one of the offered options. *)
Definition ui_inv (st : AppState) : Prop :=
  ∃ stored st0 xs,
    snapshot_ok stored ∧ mount (initial_state stored) = inl st0 ∧
    st.(inventoryData) = st0.(inventoryData) ∧ st.(heap) = st0.(heap) ∧
    st.(storage) = st0.(storage) ∧ st.(readers) = [] ∧
    view st.(heap) st.(inventoryData) = Some xs ∧
    (st.(filterWarehouse) = "" ∨ ∃ y, y ∈ warehouseOptions xs ∧ st.(filterWarehouse) = strip_collapse y) ∧
    (st.(filterGrouping) = "" ∨ ∃ y, y ∈ groupingOptions xs ∧ st.(filterGrouping) = strip_collapse y).

Lemma ui_reachable_inv loc st : ui_reachable loc st → ui_inv st.
Proof.
  induction 1 as [stored st Hok Hm|st vw ev _ IH Hr Hd].
  - destruct (mount_filters stored st Hm) as (_ & Hw & Hg & Hrd).
    pose proof (app_inv_mount stored st Hok Hm) as (_ & (xs & Hv & _) & _).
    exists stored, st, xs. rewrite Hw, Hg. auto 10.
  - destruct IH as (stored & st0 & xs & Hok & Hm & Hdat & Hh & Hs & Hrd & Hv & Hw & Hg).
    destruct (render_dispatch loc st vw ev Hr Hd) as (xs' & Hv' & Hev).
    rewrite Hv in Hv'. injection Hv' as <-.
    exists stored, st0, xs.
    destruct Hev as [(s & ->)|[(w & -> & Hw')|[(g & -> & Hg')| ->]]]; simpl; auto 15.
Qed.

(** The demo store after the user picked the warehouse "Gudang A". *)
Lemma demo_ui_reachable : ui_reachable en_US (step (SetWarehouse "Gudang A") demo_mounted).1.
Proof.
  eapply (ui_step en_US demo_mounted).
  - apply (ui_mount en_US (Some (snapshot [a1]))); apply demo_mounted_ok.
  - vm_compute. reflexivity.
  - apply (disp_select _ "" [("", "Semua Gudang"); ("Gudang A", "Gudang A")] SetWarehouse ("Gudang A", "Gudang A")).
    + simpl. apply list_elem_of_further, list_elem_of_here.
    + apply list_elem_of_further, list_elem_of_here.
Qed.

(** ** Properties *)

(** C24: The rendered markup offers no way to change the inventory: every
    state a user reaches through the search box, the two selects and the
    export button has the array, the objects, the stored text of the
    mount and no pending reader; the stock and image handlers are never
    called. *)
Theorem ui_inventory_frozen (loc : Locale) (st : AppState) :
  ui_reachable loc st →
  ∃ stored st0, mount (initial_state stored) = inl st0 ∧
    st.(inventoryData) = st0.(inventoryData) ∧ st.(heap) = st0.(heap) ∧
    st.(storage) = st0.(storage) ∧ st.(readers) = [].
Proof. intros (stored & st0 & xs & _ & Hm & ? & ? & ? & ? & _)%ui_reachable_inv. eauto 10. Qed.

Lemma ui_inventory_frozen_witness :
  ∃ stored st0, mount (initial_state stored) = inl st0 ∧
    (step (SetWarehouse "Gudang A") demo_mounted).1.(inventoryData) = st0.(inventoryData) ∧
    (step (SetWarehouse "Gudang A") demo_mounted).1.(heap) = st0.(heap) ∧
    (step (SetWarehouse "Gudang A") demo_mounted).1.(storage) = st0.(storage) ∧
    (step (SetWarehouse "Gudang A") demo_mounted).1.(readers) = [].
Proof. apply (ui_inventory_frozen en_US). apply demo_ui_reachable. Defined.

(** C27: The two selects set their filters to the values of the offered
    options: in every state a user reaches, the warehouse filter is empty
    or the warehouse of an item on screen with its ASCII whitespace
    stripped and collapsed, and likewise the grouping filter. *)
Theorem ui_filters_offered (loc : Locale) (st : AppState) :
  ui_reachable loc st →
  ∃ xs, view st.(heap) st.(inventoryData) = Some xs ∧
    (st.(filterWarehouse) = "" ∨ ∃ y, y ∈ warehouseOptions xs ∧ st.(filterWarehouse) = strip_collapse y) ∧
    (st.(filterGrouping) = "" ∨ ∃ y, y ∈ groupingOptions xs ∧ st.(filterGrouping) = strip_collapse y).
Proof. intros (stored & st0 & xs & _ & _ & _ & _ & _ & _ & Hv & Hw & Hg)%ui_reachable_inv. eauto. Qed.

Lemma ui_filters_offered_witness :
  ∃ xs, view (step (SetWarehouse "Gudang A") demo_mounted).1.(heap)
             (step (SetWarehouse "Gudang A") demo_mounted).1.(inventoryData) = Some xs ∧
    ((step (SetWarehouse "Gudang A") demo_mounted).1.(filterWarehouse) = "" ∨
     ∃ y, y ∈ warehouseOptions xs ∧
       (step (SetWarehouse "Gudang A") demo_mounted).1.(filterWarehouse) = strip_collapse y) ∧
    ((step (SetWarehouse "Gudang A") demo_mounted).1.(filterGrouping) = "" ∨
     ∃ y, y ∈ groupingOptions xs ∧
       (step (SetWarehouse "Gudang A") demo_mounted).1.(filterGrouping) = strip_collapse y).
Proof. apply (ui_filters_offered en_US). apply demo_ui_reachable. Defined.

(** With a group separator that holds no digit, the digits of [toLocaleString] are the decimal
    digits of the absolute value, and the text starts with a minus sign
    exactly for a negative number. *)
Theorem toLocaleString_digits (loc : Locale) (z : Z) :
  digits_of loc.(group_sep) = EmptyString →
  digits_of (toLocaleString loc z) = pretty (Z.abs_N z) ∧
  ((z < 0)%Z ↔ ∃ t, toLocaleString loc z = "-" +:+ t).
Proof.
  intros Hsep. destruct z as [|p|p]; unfold toLocaleString.
  - split; [done|]. split; [lia|]. intros [t Ht]. discriminate Ht.
  - destruct (pretty_N_digits (Npos p)) as (Hall & c & r & Hp & Hc).
    split; [by rewrite digits_of_group, digits_of_all|].
    split; [lia|]. intros [t Ht]. change (pretty (Zpos p)) with (pretty (Npos p)) in Ht.
    rewrite Hp in Ht. destruct (group_digits_head (group_sep loc) c r) as [u Hu].
    rewrite Hu in Ht. injection Ht as -> _. done.
  - destruct (pretty_N_digits (Npos p)) as (Hall & _).
    split; [|split; [intros _; by eexists|intros _; lia]].
    rewrite digits_of_app, digits_of_group, (digits_of_all (pretty (Npos p))) by done. reflexivity.
Qed.

(** C29: The "Total Stok" card shows the total stock of the stored
    items: in every reachable state, with a group separator that holds no
    digit, the second card is labelled "Total Stok" and its text has as
    digits the decimal digits of the sum of the quantities of the items
    the storage holds, with no minus sign. *)
Theorem total_stok_card (loc : Locale) (st : AppState) :
  digits_of loc.(group_sep) = EmptyString → reachable st →
  ∃ xs vw t, loaded st.(storage) = inl xs ∧ render loc st = Some vw ∧
    vw.(cards) !! 1 = Some (mkCard "Total Stok" t) ∧
    digits_of t = pretty (Z.to_N (sumZ inventoryQty xs)) ∧ ¬ ∃ u, t = "-" +:+ u.
Proof.
  intros Hsep (_ & (xs & Hv & Hok & Hs) & _)%reach_inv.
  assert (0 ≤ sumZ inventoryQty xs)%Z as Hpos.
  { apply sumZ_nonneg. intros it Hit. rewrite Forall_forall in Hok. specialize (Hok it Hit).
    unfold item_ok in Hok. destruct (initialQty it); [lia|done]. }
  destruct (toLocaleString_digits loc (totalStock xs) Hsep) as [Hd Hneg].
  unfold render. rewrite Hv, Hs, loaded_snapshot.
  eexists xs, _, (toLocaleString loc (totalStock xs)). split_and!; [done|done|done| |].
  - rewrite Hd, totalStock_sumZ. f_equal. lia.
  - rewrite <-Hneg, totalStock_sumZ. lia.
Qed.

Lemma total_stok_card_witness :
  ∃ xs vw t, loaded demo_mounted.(storage) = inl xs ∧ render en_US demo_mounted = Some vw ∧
    vw.(cards) !! 1 = Some (mkCard "Total Stok" t) ∧
    digits_of t = pretty (Z.to_N (sumZ inventoryQty xs)) ∧ ¬ ∃ u, t = "-" +:+ u.
Proof. apply (total_stok_card en_US demo_mounted); [reflexivity|apply demo_mounted_reachable]. Defined.

(** C28: The option of an offered warehouse sets the filter to the warehouse
    name with its ASCII whitespace stripped and collapsed.  When no item
    has that exact name, the option the user picked selects no item,
    although its label is the warehouse of an item on screen. *)
Theorem offered_warehouse_selects_none (loc : Locale) (st : AppState) (vw : View)
    (xs : list Item) (w : string) :
  render loc st = Some vw → view st.(heap) st.(inventoryData) = Some xs →
  w ∈ warehouseOptions xs → strip_collapse w ≠ "" →
  (∀ it, it ∈ xs → it.(warehouseName) ≠ strip_collapse w) →
  dispatchable vw (SetWarehouse (strip_collapse w)) ∧
  (step (SetWarehouse (strip_collapse w)) st).1.(filterWarehouse) = strip_collapse w ∧
  filteredData st.(searchTerm) (strip_collapse w) st.(filterGrouping) xs = [].
Proof.
  intros Hr Hv Hw Hne Hnone. split_and!; [|done|].
  - unfold render in Hr. rewrite Hv in Hr. injection Hr as <-.
    apply (disp_select _ st.(filterWarehouse) (("", "Semua Gudang") :: (option_of <$> warehouseOptions xs))
      SetWarehouse (option_of w)).
    + simpl. apply list_elem_of_further, list_elem_of_here.
    + apply list_elem_of_further. by apply list_elem_of_fmap_2.
  - apply filteredData_none. intros it Hit. unfold keep, matchesWarehouse.
    rewrite !bool_decide_eq_false_2; [by rewrite andb_false_r|by apply Hnone|done].
Qed.

Lemma offered_warehouse_selects_none_witness :
  let vw := default (mkView "" [] []) (render en_US demo_spaced) in
  let xs := default [] (view demo_spaced.(heap) demo_spaced.(inventoryData)) in
  xs = [a1_spaced] ∧ warehouseOptions xs = [" Gudang A"] ∧
  dispatchable vw (SetWarehouse (strip_collapse " Gudang A")) ∧
  (step (SetWarehouse (strip_collapse " Gudang A")) demo_spaced).1.(filterWarehouse) = "Gudang A" ∧
  filteredData demo_spaced.(searchTerm) (strip_collapse " Gudang A") demo_spaced.(filterGrouping) xs = [].
Proof.
  intros vw xs. assert (xs = [a1_spaced]) as Hxs by (vm_compute; reflexivity).
  assert (render en_US demo_spaced = Some vw) as Hr by (vm_compute; reflexivity).
  assert (view demo_spaced.(heap) demo_spaced.(inventoryData) = Some xs) as Hv by (vm_compute; reflexivity).
  destruct (offered_warehouse_selects_none en_US demo_spaced vw xs " Gudang A" Hr Hv) as (H1 & H2 & H3).
  - rewrite Hxs. apply list_elem_of_here.
  - vm_compute. discriminate.
  - rewrite Hxs. intros it ->%list_elem_of_singleton. vm_compute. discriminate.
  - split_and!; [done|by rewrite Hxs|done|exact H2|exact H3].
Defined.

Example render_examples :
  toLocaleString en_US 1234567 = "1,234,567" ∧ toLocaleString id_ID (-1000) = "-1.000" ∧
  toLocaleString en_US 999 = "999" ∧ toLocaleString en_US 0 = "0" ∧
  (card_value <$> default [] (cards <$> render id_ID demo_mounted)) = ["1"; "100"; "0"].
Proof. split_and!; vm_compute; reflexivity. Qed.

End Render.
