(* ===== verification/Refinement.v ===== *)
(** The contract of the Inventory Store on item values, and its
    implementation by the heap store of src/App.jsx.

    [spec_stockIn] and [spec_stockOut] state what a stock operation does
    to the list of items and which error it reports: InvalidQuantity when
    the quantity is absent, not a number, zero or negative,
    InsufficientStock when a stock-out exceeds the quantity, and a missing
    record.  The class [InventoryStore] packages a store's operations with
    the laws that it follows this contract and keeps its own invariant.
    Clients (the aggregates) are proved against the class; [App.app_inv]
    and the handler theorems of [Store] discharge it for [AppState]. *)

From S2P Require Import Prelude Item ParseInt Store App Aggregate.

Module Refinement.
Import Item ParseInt Store App Aggregate.

Inductive StoreError := InvalidQuantity | InsufficientStock | RecordNotFound.

(** Stock-in on values. *)
Definition spec_stockIn (i : nat) (qty : jsnum) (now : string) (xs : list Item)
    : list Item + StoreError :=
  match qty with
  | Some q =>
      if (0 <? q)%Z then
        match xs !! i with
        | Some it => inl (<[i := stock_in_item q now it]> xs)
        | None => inr RecordNotFound
        end
      else inr InvalidQuantity
  | None => inr InvalidQuantity
  end.

(** Stock-out on values. *)
Definition spec_stockOut (i : nat) (qty : jsnum) (now : string) (xs : list Item)
    : list Item + StoreError :=
  match qty with
  | Some q =>
      if (0 <? q)%Z then
        match xs !! i with
        | Some it =>
            if (it.(inventoryQty) <? q)%Z then inr InsufficientStock
            else inl (<[i := stock_out_item q now it]> xs)
        | None => inr RecordNotFound
        end
      else inr InvalidQuantity
  | None => inr InvalidQuantity
  end.

(** Attaching an image to a record: the record gets the image, or the
    record is missing. *)
Definition spec_attachImage (i : nat) (url : string) (xs : list Item) : list Item + StoreError :=
  match xs !! i with
  | Some it => inl (<[i := set_image url it]> xs)
  | None => inr RecordNotFound
  end.

(** How the component reports a result of the contract. *)
Definition observe (r : list Item + StoreError) : outcome :=
  match r with
  | inl _ => Done
  | inr InvalidQuantity => Alerted msg_invalid
  | inr InsufficientStock => Alerted msg_insufficient
  | inr RecordNotFound => Thrown
  end.

(** The items after a result: unchanged on an error. *)
Definition after (xs : list Item) (r : list Item + StoreError) : list Item :=
  match r with inl ys => ys | inr _ => xs end.

(** A store: its items, its two stock operations (taking the prompt
    answer and the time), its image attach (taking the data URL) and its
    invariant. *)
Class InventoryStore (S : Type) := {
  items : S → list Item;
  stockIn : nat → option string → string → S → S * outcome;
  stockOut : nat → option string → string → S → S * outcome;
  attachImage : nat → string → S → S * outcome;
  store_ok : S → Prop
}.

(** The laws: each operation keeps the invariant, reports what the
    contract reports, and leaves the items the contract computes. *)
Class InventoryStoreLaws (S : Type) `{InventoryStore S} := {
  stockIn_law : ∀ s i ans now, store_ok s →
    let '(s', o) := stockIn i ans now s in
    store_ok s' ∧ o = observe (spec_stockIn i (read_qty ans) now (items s)) ∧
    items s' = after (items s) (spec_stockIn i (read_qty ans) now (items s));
  stockOut_law : ∀ s i ans now, store_ok s →
    let '(s', o) := stockOut i ans now s in
    store_ok s' ∧ o = observe (spec_stockOut i (read_qty ans) now (items s)) ∧
    items s' = after (items s) (spec_stockOut i (read_qty ans) now (items s));
  attach_law : ∀ s i url, store_ok s →
    let '(s', o) := attachImage i url s in
    store_ok s' ∧ o = observe (spec_attachImage i url (items s)) ∧
    items s' = after (items s) (spec_attachImage i url (items s))
}.

(** The image attach of the component: [handleImageUpload] with a chosen
    file (lines 152-162), then the [onload] of the reader it started,
    with no other event in between. *)
Definition attach_now (i : nat) (url : string) (st : AppState) : AppState * outcome :=
  step (ImageLoad (length st.(readers))) (step (ImagePick i (Some url)) st).1.

(** The component's store: the items on screen. *)
#[export] Instance app_store : InventoryStore AppState := {
  items st := default [] (view st.(heap) st.(inventoryData));
  stockIn := handleStockIn;
  stockOut := handleStockOut;
  attachImage := attach_now;
  store_ok := app_inv
}.

(** ** The heap store follows the contract *)

Lemma spec_invalid i qty now xs :
  qty_invalid qty = true →
  spec_stockIn i qty now xs = inr InvalidQuantity ∧ spec_stockOut i qty now xs = inr InvalidQuantity.
Proof.
  intros Hq. destruct qty as [q|]; [|done]. unfold spec_stockIn, spec_stockOut.
  destruct (Z.ltb_spec 0 q); [|done]. by rewrite qty_invalid_positive in Hq.
Qed.

Lemma app_items st xs : view st.(heap) st.(inventoryData) = Some xs → items st = xs.
Proof. simpl. by intros ->. Qed.

Lemma app_stockIn_law st i ans now : app_inv st →
  let '(st', o) := handleStockIn i ans now st in
  app_inv st' ∧ o = observe (spec_stockIn i (read_qty ans) now (items st)) ∧
  items st' = after (items st) (spec_stockIn i (read_qty ans) now (items st)).
Proof.
  intros Hinv. pose proof (app_inv_stock_in st i ans now Hinv) as Hinv'.
  destruct Hinv as (Hnd & (xs & Hv & _ & _) & _). rewrite (app_items st xs Hv).
  destruct (qty_invalid (read_qty ans)) eqn:Hq.
  - rewrite (proj1 (spec_invalid i _ now xs Hq)). unfold handleStockIn in *. rewrite Hq in Hinv' |- *.
    split_and!; [done|done|by apply app_items].
  - destruct (qty_invalid_false_inv _ Hq) as (q & Hrq & Hpos).
    unfold spec_stockIn, handleStockIn in *. rewrite Hq, Hrq in *. cbn [default id] in *.
    destruct (Z.ltb_spec 0 q); [|lia].
    destruct (xs !! i) as [it|] eqn:Hit.
    + destruct (view_index st xs i it Hv Hit) as (l & Hl & Hh). rewrite Hl, Hh in Hinv' |- *.
      destruct (commit_write st _ i l (stock_in_item q now it) xs Hnd Hl Hv) as (H1 & H2 & _).
      split_and!; [done|done|]. apply app_items. by rewrite H1.
    + rewrite (view_index_none st xs i Hv Hit) in Hinv' |- *.
      split_and!; [done|done|by apply app_items].
Qed.

Lemma app_stockOut_law st i ans now : app_inv st →
  let '(st', o) := handleStockOut i ans now st in
  app_inv st' ∧ o = observe (spec_stockOut i (read_qty ans) now (items st)) ∧
  items st' = after (items st) (spec_stockOut i (read_qty ans) now (items st)).
Proof.
  intros Hinv. pose proof (app_inv_stock_out st i ans now Hinv) as Hinv'.
  destruct Hinv as (Hnd & (xs & Hv & _ & _) & _). rewrite (app_items st xs Hv).
  destruct (qty_invalid (read_qty ans)) eqn:Hq.
  - rewrite (proj2 (spec_invalid i _ now xs Hq)). unfold handleStockOut in *. rewrite Hq in Hinv' |- *.
    split_and!; [done|done|by apply app_items].
  - destruct (qty_invalid_false_inv _ Hq) as (q & Hrq & Hpos).
    unfold spec_stockOut, handleStockOut in *. rewrite Hq, Hrq in *. cbn [default id] in *.
    destruct (Z.ltb_spec 0 q); [|lia].
    destruct (xs !! i) as [it|] eqn:Hit.
    + destruct (view_index st xs i it Hv Hit) as (l & Hl & Hh). rewrite Hl, Hh in Hinv' |- *.
      destruct (Z.ltb_spec (inventoryQty it) q); [split_and!; [done|done|by apply app_items]|].
      destruct (commit_write st _ i l (stock_out_item q now it) xs Hnd Hl Hv) as (H1 & H2 & _).
      split_and!; [done|done|]. apply app_items. by rewrite H1.
    + rewrite (view_index_none st xs i Hv Hit) in Hinv' |- *.
      split_and!; [done|done|by apply app_items].
Qed.

(** The reader started by the pick is the last one; its [onload] takes it
    off the queue and writes through the current array. *)
Lemma app_attach_law st i url : app_inv st →
  let '(st', o) := attach_now i url st in
  app_inv st' ∧ o = observe (spec_attachImage i url (items st)) ∧
  items st' = after (items st) (spec_attachImage i url (items st)).
Proof.
  intros Hinv. unfold attach_now.
  pose proof (app_inv_step (ImageLoad (length st.(readers))) _ (app_inv_image_pick st i (Some url) Hinv))
    as Hinv'.
  destruct Hinv as (Hnd & (xs & Hv & _ & _) & _). rewrite (app_items st xs Hv).
  simpl in Hinv' |- *. rewrite lookup_app_r, Nat.sub_diag in Hinv' |- * by done. simpl in Hinv' |- *.
  assert (delete (length (readers st)) (readers st ++ [mkReader (inventoryData st) i url]) = readers st)
    as Hdel by (rewrite delete_middle; apply app_nil_r).
  assert (set_readers (readers st) (set_readers (readers st ++ [mkReader (inventoryData st) i url]) st) = st)
    as Hst by (by destruct st).
  rewrite Hdel, Hst in Hinv' |- *. unfold reader_onload in Hinv' |- *. simpl in Hinv' |- *.
  unfold spec_attachImage. destruct (xs !! i) as [it|] eqn:Hit.
  - destruct (view_index st xs i it Hv Hit) as (l & Hl & Hh). rewrite Hl, Hh in Hinv' |- *.
    destruct (commit_write st (inventoryData st) i l (set_image url it) xs)
      as (H1 & H2 & _); [done|done|done|].
    split_and!; [done|done|]. apply app_items. by rewrite H1.
  - rewrite (view_index_none st xs i Hv Hit) in Hinv' |- *.
    split_and!; [done|done|]. apply app_items. exact Hv.
Qed.

#[export] Instance app_store_laws : InventoryStoreLaws AppState.
Proof. split; [apply app_stockIn_law|apply app_stockOut_law|apply app_attach_law]. Qed.

(** ** Clients of the contract *)

Section Client.
  Context {S : Type} `{InventoryStoreLaws S}.

(** For any store that follows the contract, a stock operation that
    does not return normally (an alert or a TypeError) is one the
    contract rejects with an error, and it leaves the items unchanged,
    quantities and ledgers included: it is atomic. *)
Theorem stock_failure_atomic (s : S) (i : nat) (ans : option string) (now : string) :
  store_ok s →
  ((stockIn i ans now s).2 ≠ Done →
     items (stockIn i ans now s).1 = items s ∧ ∃ e, spec_stockIn i (read_qty ans) now (items s) = inr e) ∧
  ((stockOut i ans now s).2 ≠ Done →
     items (stockOut i ans now s).1 = items s ∧ ∃ e, spec_stockOut i (read_qty ans) now (items s) = inr e).
Proof.
  intros Hs. pose proof (stockIn_law s i ans now Hs) as Hin.
  pose proof (stockOut_law s i ans now Hs) as Hout.
  destruct (stockIn i ans now s) as [s1 o1], (stockOut i ans now s) as [s2 o2]; simpl.
  destruct Hin as (_ & -> & ->), Hout as (_ & -> & ->).
  split; [destruct (spec_stockIn i (read_qty ans) now (items s))|destruct (spec_stockOut i (read_qty ans) now (items s))];
    simpl; intros Hd; done || eauto.
Qed.

(** C18: For any store that follows the contract, a stock-in of [q]
    that returns normally raises [totalStock] of the items by [q], and a
    stock-out lowers it by [q]. *)
Theorem stock_totalStock (s : S) (i : nat) (ans : option string) (now : string) (q : Z) :
  store_ok s → read_qty ans = Some q →
  ((stockIn i ans now s).2 = Done →
     spec_stockIn i (Some q) now (items s) = inl (items (stockIn i ans now s).1) ∧
     totalStock (items (stockIn i ans now s).1) = (totalStock (items s) + q)%Z) ∧
  ((stockOut i ans now s).2 = Done →
     spec_stockOut i (Some q) now (items s) = inl (items (stockOut i ans now s).1) ∧
     totalStock (items (stockOut i ans now s).1) = (totalStock (items s) - q)%Z).
Proof.
  intros Hs Hq. pose proof (stockIn_law s i ans now Hs) as Hin.
  pose proof (stockOut_law s i ans now Hs) as Hout.
  destruct (stockIn i ans now s) as [s1 o1], (stockOut i ans now s) as [s2 o2]; simpl.
  destruct Hin as (_ & -> & ->), Hout as (_ & -> & ->). rewrite Hq.
  unfold spec_stockIn, spec_stockOut. destruct (0 <? q)%Z; [|done].
  destruct (items s !! i) as [it|] eqn:Hit; [|done].
  rewrite !totalStock_sumZ. split.
  - intros _. simpl. rewrite (sumZ_insert _ _ _ _ it) by done. simpl. split; [done|lia].
  - destruct (inventoryQty it <? q)%Z; [done|]. intros _. simpl.
    rewrite (sumZ_insert _ _ _ _ it) by done. simpl. split; [done|lia].
Qed.

End Client.

(** C7: The component's heap store follows the contract in every
    reachable state: each stock handler, and the image upload followed by
    its reader's [onload], keeps the invariant, reports the contract's
    outcome (InvalidQuantity as "Masukkan jumlah valid!",
    InsufficientStock as "Stok tidak cukup!", a missing record as a
    TypeError) and leaves the items on screen that the contract computes. *)
Theorem heap_store_refines (st : AppState) (i : nat) (ans : option string) (now url : string) :
  reachable st →
  (let '(st', o) := handleStockIn i ans now st in
   app_inv st' ∧ o = observe (spec_stockIn i (read_qty ans) now (items st)) ∧
   items st' = after (items st) (spec_stockIn i (read_qty ans) now (items st))) ∧
  (let '(st', o) := handleStockOut i ans now st in
   app_inv st' ∧ o = observe (spec_stockOut i (read_qty ans) now (items st)) ∧
   items st' = after (items st) (spec_stockOut i (read_qty ans) now (items st))) ∧
  (let '(st', o) := attach_now i url st in
   app_inv st' ∧ o = observe (spec_attachImage i url (items st)) ∧
   items st' = after (items st) (spec_attachImage i url (items st))).
Proof.
  intros Hr%reach_inv. split_and!; [apply app_stockIn_law|apply app_stockOut_law|apply app_attach_law]; done.
Qed.

Lemma heap_store_refines_witness :
  (let '(st', o) := handleStockIn 0 (Some "7") "t" demo_mounted in
   app_inv st' ∧ o = observe (spec_stockIn 0 (read_qty (Some "7")) "t" (items demo_mounted)) ∧
   items st' = after (items demo_mounted) (spec_stockIn 0 (read_qty (Some "7")) "t" (items demo_mounted))) ∧
  (let '(st', o) := handleStockOut 0 (Some "7") "t" demo_mounted in
   app_inv st' ∧ o = observe (spec_stockOut 0 (read_qty (Some "7")) "t" (items demo_mounted)) ∧
   items st' = after (items demo_mounted) (spec_stockOut 0 (read_qty (Some "7")) "t" (items demo_mounted))) ∧
  (let '(st', o) := attach_now 0 "data:image/png;base64,AA" demo_mounted in
   app_inv st' ∧ o = observe (spec_attachImage 0 "data:image/png;base64,AA" (items demo_mounted)) ∧
   items st' = after (items demo_mounted) (spec_attachImage 0 "data:image/png;base64,AA" (items demo_mounted))).
Proof.
  apply (heap_store_refines demo_mounted 0 (Some "7") "t" "data:image/png;base64,AA").
  apply demo_mounted_reachable.
Defined.

Lemma stock_failure_atomic_witness :
  ((stockIn 0 (Some "-3") "t" demo_mounted).2 ≠ Done →
     items (stockIn 0 (Some "-3") "t" demo_mounted).1 = items demo_mounted ∧
     ∃ e, spec_stockIn 0 (read_qty (Some "-3")) "t" (items demo_mounted) = inr e) ∧
  ((stockOut 0 (Some "-3") "t" demo_mounted).2 ≠ Done →
     items (stockOut 0 (Some "-3") "t" demo_mounted).1 = items demo_mounted ∧
     ∃ e, spec_stockOut 0 (read_qty (Some "-3")) "t" (items demo_mounted) = inr e).
Proof.
  apply (stock_failure_atomic demo_mounted 0 (Some "-3") "t").
  apply reach_inv, demo_mounted_reachable.
Defined.

Lemma stock_totalStock_witness :
  ((stockIn 0 (Some "7") "t" demo_mounted).2 = Done →
     spec_stockIn 0 (Some 7%Z) "t" (items demo_mounted) = inl (items (stockIn 0 (Some "7") "t" demo_mounted).1) ∧
     totalStock (items (stockIn 0 (Some "7") "t" demo_mounted).1) = (totalStock (items demo_mounted) + 7)%Z) ∧
  ((stockOut 0 (Some "7") "t" demo_mounted).2 = Done →
     spec_stockOut 0 (Some 7%Z) "t" (items demo_mounted) = inl (items (stockOut 0 (Some "7") "t" demo_mounted).1) ∧
     totalStock (items (stockOut 0 (Some "7") "t" demo_mounted).1) = (totalStock (items demo_mounted) - 7)%Z).
Proof.
  apply (stock_totalStock demo_mounted 0 (Some "7") "t" 7); [|reflexivity].
  apply reach_inv, demo_mounted_reachable.
Defined.

End Refinement.
