(* ===== verification/XlsxExport.v ===== *)
(** The rows of [handleExportExcel] (src/App.jsx lines 123-146): one
    object per item of the full [inventoryData] (not the filtered view),
    with nineteen properties in a fixed order.  [XLSX.utils.json_to_sheet]
    turns the property names of the first object into the header row and
    leaves a cell empty for an [undefined] value; the writer itself is a
    library and is not modelled.  A cell is a string, an integral number,
    NaN or [undefined]. *)

From S2P Require Import Prelude Item Double Snapshot Store App Filter.

Module XlsxExport.
Import Item Snapshot Store App Filter.

Inductive Cell := CStr (s : string) | CNum (z : Z) | CNaN | CUndefined.

#[export] Instance Cell_eq_dec : EqDecision Cell.
Proof. solve_decision. Defined.

(** [Math.ceil(initialQty * 0.1)] (line 134) in double arithmetic;
    [undefined * 0.1] is NaN.  The product of a double with [0.1] is
    finite, so [ceil_Z] gives a value for every [initialQty] a double
    holds. *)
Definition safetyStock (initialQty : option Z) : Cell :=
  match initialQty with
  | Some i =>
      match Double.ceil_Z (Double.mul (Double.of_Z i) Double.tenth) with
      | Some c => CNum c
      | None => CNaN
      end
  | None => CNaN
  end.

Definition optNum (v : option Z) : Cell :=
  match v with Some z => CNum z | None => CUndefined end.

(** The object literal of lines 125-145, property by property. *)
Definition exportRow (item : Item) : list (string * Cell) := [
  ("Material Code", CStr item.(materialCode));
  ("Material Name", CStr item.(materialName));
  ("Specification", CStr item.(specification));
  ("Warehouse", CStr item.(warehouseName));
  ("Lot No.", CStr item.(lotNo));
  ("Stock Unit", CStr item.(stockUnit));
  ("Inventory Qty", CNum item.(inventoryQty));
  ("Initial Qty", optNum item.(initialQty));
  ("Safety Stock (10%)", safetyStock item.(initialQty));
  ("Inventory Status", CStr item.(inventoryStatus));
  ("Inventory Org.", CStr item.(inventoryOrg));
  ("Type of Owner", CStr item.(typeOfOwner));
  ("Owner Name", CStr item.(ownerName));
  ("Customer P/N", CStr item.(customerPN));
  ("Brand", CStr item.(brand));
  ("Gram", CStr item.(gram));
  ("Material Grouping", CStr item.(materialGrouping));
  ("Customer End PN", CStr item.(customerEndPN));
  ("Master Data Property", CStr item.(masterDataProperty))
].

(** [inventoryData.map(item => ({ ... }))] (lines 124-146). *)
Definition exportRows (data : list Item) : list (list (string * Cell)) := exportRow <$> data.

(** The header row of the sheet. *)
Definition exportHeader : list string :=
  ["Material Code"; "Material Name"; "Specification"; "Warehouse"; "Lot No.";
   "Stock Unit"; "Inventory Qty"; "Initial Qty"; "Safety Stock (10%)";
   "Inventory Status"; "Inventory Org."; "Type of Owner"; "Owner Name";
   "Customer P/N"; "Brand"; "Gram"; "Material Grouping"; "Customer End PN";
   "Master Data Property"].

(** The calls [handleExportExcel] makes on the [XLSX] library (lines
    124-149), in order.  A call's result is named by its position in the
    list: the sheet is result 0, the book result 1. *)
Inductive xlsx_call :=
| JsonToSheet (rows : list (list (string * Cell)))
| BookNew
| BookAppendSheet (wb ws : nat) (name : string)
| WriteFile (wb : nat) (filename : string).

Definition export_calls (data : list Item) : list xlsx_call :=
  [JsonToSheet (exportRows data); BookNew; BookAppendSheet 1 0 "Inventaris";
   WriteFile 1 "inventaris_export.xlsx"].

(** [handleExportExcel()] on the objects of [inventoryData], the whole
    array and not [filteredData]. *)
Definition handleExportExcel (st : AppState) : option (list xlsx_call) :=
  export_calls <$> view st.(heap) st.(inventoryData).

(** An item with every property empty and no [initialQty], for examples. *)
Definition blank : Item := mkItem "" "" "" "" "" "" 0 "" "" "" "" "" "" "" "" "" "" [] None None.

(** ** Properties *)

(** The export has one row per item of the full list, and every row
    has the same nineteen columns in the fixed order of the header. *)
Theorem exportRows_shape (data : list Item) :
  length (exportRows data) = length data ∧
  Forall (λ row, fst <$> row = exportHeader) (exportRows data) ∧
  length exportHeader = 19 ∧ NoDup exportHeader.
Proof.
  unfold exportRows. rewrite length_fmap. split_and!; [done| |done|].
  - apply Forall_fmap, Forall_forall. intros it _. reflexivity.
  - apply (bool_decide_unpack (NoDup exportHeader)). vm_compute. reflexivity.
Qed.

(** C23: The safety stock of an item with initial quantity [0 <= i <
    2^53] is the ceiling of [i/10]: the least integer [s] with
    [i <= 10 s]; the rounding of the double [i * 0.1] never moves it. *)
Theorem safetyStock_ceil (it : Item) (i : Z) :
  it.(initialQty) = Some i → (0 ≤ i < 2 ^ 53)%Z →
  ∃ s, exportRow it !! 8 = Some ("Safety Stock (10%)", CNum s) ∧
       (10 * (s - 1) < i ≤ 10 * s)%Z.
Proof.
  intros Hi Hr. exists (- ((- i) `div` 10))%Z. unfold exportRow, safetyStock. rewrite Hi.
  rewrite Double.ceil_tenth by done. split; [reflexivity|]. apply Double.ceil_div_bounds.
Qed.

(** C22: In every reachable state the export writes one file,
    [inventaris_export.xlsx], whose one sheet [Inventaris] has the rows of
    exactly the items the storage holds, and the search and the two
    filters do not change what it writes. *)
Theorem export_all_items (st : AppState) :
  reachable st →
  ∃ xs, loaded st.(storage) = inl xs ∧ handleExportExcel st = Some (export_calls xs) ∧
    ∀ s w g, handleExportExcel (set_filters s w g st) = handleExportExcel st.
Proof.
  intros (_ & (xs & Hv & _ & Hs) & _)%reach_inv. exists xs.
  rewrite Hs, loaded_snapshot. unfold handleExportExcel.
  split_and!; [done|by rewrite Hv|done].
Qed.

Lemma export_all_items_witness :
  ∃ xs, loaded demo_mounted.(storage) = inl xs ∧ handleExportExcel demo_mounted = Some (export_calls xs) ∧
    ∀ s w g, handleExportExcel (set_filters s w g demo_mounted) = handleExportExcel demo_mounted.
Proof. apply (export_all_items demo_mounted). apply demo_mounted_reachable. Defined.

Lemma safetyStock_ceil_witness :
  ∃ s, exportRow (hd blank (drop 1 initialData)) !! 8 = Some ("Safety Stock (10%)", CNum s) ∧
       (10 * (s - 1) < 3 ≤ 10 * s)%Z.
Proof. apply (safetyStock_ceil (hd blank (drop 1 initialData)) 3); [reflexivity|lia]. Defined.

Example export_seed :
  (λ row, snd <$> row !! 8) <$> exportRows initialData =
    [Some (CNum 1); Some (CNum 1); Some (CNum 300)] ∧
  exportRow blank !! 8 = Some ("Safety Stock (10%)", CNaN) ∧
  exportRow blank !! 7 = Some ("Initial Qty", CUndefined).
Proof. split_and!; reflexivity. Qed.

(** A search that hides every seed item leaves the export whole. *)
Example export_ignores_search :
  filteredData "zzz" "" "" initialData = [] ∧ length (exportRows initialData) = 3.
Proof. split; reflexivity. Qed.

End XlsxExport.
